(** * fargate: service creation and the task inventory

    A shallow embedding of two files of the fargate command line tool:
    the [service create] command (package [cmd]) and the task inventory
    of package [ecs] ([ecs/task.go]).

    Go strings are byte sequences and are modelled by [string], whose
    characters are the 256 byte values.  Code that leaves through
    [console.ErrorExit] or a run-time panic is modelled by the
    [Outcome] type; remote calls are recorded in a trace. *)

From Stdlib Require Import ZArith Ascii String List Bool Lia.
From Stdlib Require Import DecimalString DecimalZ DecimalPos Decimal.
From stdpp Require Import base tactics option list strings gmap.

Set Default Proof Using "Type".

(* ================================================================== *)
(** ** Bytes and the Go [strings] package *)
(* ================================================================== *)

Module GoStrings.

Definition isUpperByte (c : ascii) : bool :=
  (65 <=? nat_of_ascii c)%nat && (nat_of_ascii c <=? 90)%nat.

Definition isLowerByte (c : ascii) : bool :=
  (97 <=? nat_of_ascii c)%nat && (nat_of_ascii c <=? 122)%nat.

Definition upperByte (c : ascii) : ascii :=
  if isLowerByte c then ascii_of_nat (nat_of_ascii c - 32) else c.

Definition lowerByte (c : ascii) : ascii :=
  if isUpperByte c then ascii_of_nat (nat_of_ascii c + 32) else c.

(** A byte below 0x80, a one-byte UTF-8 sequence. *)
Definition isASCIIByte (c : ascii) : bool := (nat_of_ascii c <? 128)%nat.

Fixpoint isASCII (s : string) : bool :=
  match s with
  | EmptyString => true
  | String c r => isASCIIByte c && isASCII r
  end.

(** [strings.ToUpper] on a string of ASCII bytes (its fast path). *)
Fixpoint upperASCII (s : string) : string :=
  match s with
  | EmptyString => EmptyString
  | String c r => String (upperByte c) (upperASCII r)
  end.

Fixpoint lowerASCII (s : string) : string :=
  match s with
  | EmptyString => EmptyString
  | String c r => String (lowerByte c) (lowerASCII r)
  end.

(** [s[n:]] for [n <= len(s)]. *)
Fixpoint dropBytes (n : nat) (s : string) : string :=
  match n, s with
  | O, _ => s
  | S k, String _ r => dropBytes k r
  | S _, EmptyString => EmptyString
  end.

(** [strings.HasPrefix(s, prefix)]. *)
Fixpoint HasPrefix (s prefix : string) : bool :=
  match prefix, s with
  | EmptyString, _ => true
  | String p ps, String c cs => if Ascii.eqb p c then HasPrefix cs ps else false
  | String _ _, EmptyString => false
  end.

(** [strings.Contains(s, substr)]. *)
Fixpoint Contains (s substr : string) : bool :=
  HasPrefix s substr ||
  match s with
  | EmptyString => false
  | String _ r => Contains r substr
  end.

(** The step of [genSplit]: [m := Index(s, sep)], then [s[:m]] and
    [s[m+len(sep):]]; [None] when [Index] is negative. *)
Fixpoint cutAt (s sep : string) : option (string * string) :=
  if HasPrefix s sep then Some (EmptyString, dropBytes (String.length sep) s)
  else match s with
       | EmptyString => None
       | String c r =>
           match cutAt r sep with
           | Some (a, b) => Some (String c a, b)
           | None => None
           end
       end.

(** The loop of [genSplit] for a non-empty separator: at most [cuts]
    pieces are cut off, the remainder is the last element. *)
Fixpoint genSplit (cuts : nat) (s sep : string) : list string :=
  match cuts with
  | O => [s]
  | S k =>
      match cutAt s sep with
      | None => [s]
      | Some (a, b) => a :: genSplit k b sep
      end
  end.

(** [strings.SplitN(s, sep, n)] for a non-empty [sep]: [nil] for
    [n = 0], every piece for [n < 0], at most [n] pieces otherwise. *)
Definition SplitN (s sep : string) (n : Z) : list string :=
  if (n =? 0)%Z then []
  else if (n <? 0)%Z then genSplit (String.length s) s sep
  else genSplit (Z.to_nat (n - 1)) s sep.

(** [strings.Split(s, sep)] is [SplitN(s, sep, -1)]. *)
Definition Split (s sep : string) : list string := SplitN s sep (-1).

(** [strings.Join(elems, sep)]. *)
Fixpoint Join (elems : list string) (sep : string) : string :=
  match elems with
  | [] => EmptyString
  | [e] => e
  | e :: rest => e +:+ sep +:+ Join rest sep
  end.

End GoStrings.

(** What the embedding uses of the Go run time beyond the byte-level
    functions above.  [strings.ToUpper] applies Unicode case mapping and
    [fmt.Errorf] interprets its first operand as a format; both are
    fixed here only where the bytes decide them. *)
Class GoRuntime := {
  (** [strings.ToUpper] *)
  strings_ToUpper : string -> string;
  strings_ToUpper_ascii :
    forall s, GoStrings.isASCII s = true ->
              strings_ToUpper s = GoStrings.upperASCII s;
  (** The text of [fmt.Errorf(format)] called without operands. *)
  fmt_Errorf0 : string -> string;
  fmt_Errorf0_plain :
    forall s, GoStrings.Contains s "%" = false -> fmt_Errorf0 s = s
}.

(** The run time restricted to ASCII text without format verbs. *)
#[global] Instance asciiRuntime : GoRuntime := {
  strings_ToUpper := GoStrings.upperASCII;
  strings_ToUpper_ascii := fun s _ => eq_refl;
  fmt_Errorf0 := fun s => s;
  fmt_Errorf0_plain := fun s _ => eq_refl
}.

(* ================================================================== *)
(** ** Outcomes *)
(* ================================================================== *)

(** How a call ends: it returns, it leaves the process through
    [console.ErrorExit(err, msg)], or it panics. *)
Inductive Outcome (A : Type) : Type :=
| Ret (a : A)
| ErrorExit (err : string) (msg : string)
| Panic (reason : string).

Arguments Ret {A} a.
Arguments ErrorExit {A} err msg.
Arguments Panic {A} reason.

Definition obind {A B : Type} (m : Outcome A) (f : A -> Outcome B) : Outcome B :=
  match m with
  | Ret a => f a
  | ErrorExit e msg => ErrorExit e msg
  | Panic r => Panic r
  end.

Declare Scope outcome_scope.
Delimit Scope outcome_scope with outcome.
Notation "x <- m ;; k" := (obind m (fun x => k))
  (at level 100, m at next level, right associativity) : outcome_scope.

Definition returns {A : Type} (m : Outcome A) : bool :=
  match m with Ret _ => true | _ => false end.

(** [l[i]]: a slice index expression panics out of range. *)
Definition index {A : Type} (l : list A) (i : nat) : Outcome A :=
  match l !! i with
  | Some x => Ret x
  | None => Panic "index out of range"
  end.

(** A call together with the remote and local collaborator calls it
    issues, oldest first. *)
Definition Traced (E A : Type) : Type := (list E * Outcome A)%type.

Definition tret {E A : Type} (a : A) : Traced E A := ([], Ret a).

Definition tbind {E A B : Type} (m : Traced E A) (f : A -> Traced E B) : Traced E B :=
  match m with
  | (tr, Ret a) => let '(tr', o) := f a in (tr ++ tr', o)
  | (tr, ErrorExit e msg) => (tr, ErrorExit e msg)
  | (tr, Panic r) => (tr, Panic r)
  end.

(** One collaborator call: the event is recorded, the collaborator's
    answer is the outcome. *)
Definition call {E A : Type} (ev : E) (answer : Outcome A) : Traced E A :=
  ([ev], answer).

Definition lift {E A : Type} (o : Outcome A) : Traced E A := ([], o).

Declare Scope traced_scope.
Delimit Scope traced_scope with traced.
Notation "x <- m ;; k" := (tbind m (fun x => k))
  (at level 100, m at next level, right associativity) : traced_scope.

(** [fmt.Sprintf("%d", z)] for an integer operand. *)
Definition Itoa (z : Z) : string := NilZero.string_of_int (Z.to_int z).

(* ================================================================== *)
(** ** Package [regexp]: the three patterns of the program *)
(* ================================================================== *)

Module Regexp.
Import GoStrings.

(** U+017F (long s) and U+212A (Kelvin sign) in UTF-8: the two
    non-ASCII members of the [unicode.SimpleFold] orbits of ASCII
    letters, which a literal under the flag [(?i)] matches too. *)
Definition longS : string :=
  String (ascii_of_nat 197) (String (ascii_of_nat 191) EmptyString).
Definition kelvin : string :=
  String (ascii_of_nat 226)
    (String (ascii_of_nat 132) (String (ascii_of_nat 170) EmptyString)).

(** The byte sequences matched by the literal [c] under [(?i)]. *)
Definition foldVariants (c : ascii) : list string :=
  if isLowerByte (lowerByte c) then
    [String (lowerByte c) EmptyString; String (upperByte c) EmptyString]
    ++ (if Ascii.eqb (lowerByte c) "s" then [longS]
        else if Ascii.eqb (lowerByte c) "k" then [kelvin] else [])
  else [String c EmptyString].

(** The text after the first of [vs] that starts [s]. *)
Fixpoint stripFirst (vs : list string) (s : string) : option string :=
  match vs with
  | [] => None
  | v :: vs' =>
      if HasPrefix s v then Some (dropBytes (String.length v) s)
      else stripFirst vs' s
  end.

(** The literal [lit] under [(?i)] matched at the start of [s]; the
    result is the text after the match. *)
Fixpoint matchFold (lit s : string) : option string :=
  match lit with
  | EmptyString => Some s
  | String c lit' =>
      match stripFirst (foldVariants c) s with
      | Some r => matchFold lit' r
      | None => None
      end
  end.

(** An unanchored search: [p] holds of some suffix of [s]. *)
Fixpoint somewhere (p : string -> bool) (s : string) : bool :=
  p s ||
  match s with
  | EmptyString => false
  | String _ r => somewhere p r
  end.

Definition matchesToEnd (lit s : string) : bool :=
  match matchFold lit s with
  | Some EmptyString => true
  | _ => false
  end.

(** [regexp.MustCompile("(?i)^host|path$").MatchString(s)].
    Alternation binds loosest, so the pattern is [^host] or [path$]:
    [host] at the start of the text, or [path] at its end. *)
Definition validRuleTypes_MatchString (s : string) : bool :=
  bool_decide (is_Some (matchFold "host" s))
  || somewhere (matchesToEnd "path") s.

(** The bytes up to the first newline: what the starred dot matches. *)
Fixpoint dotStar (s : string) : string :=
  match s with
  | EmptyString => EmptyString
  | String c r => if Ascii.eqb c "010" then EmptyString else String c (dotStar r)
  end.

(** [FindStringSubmatch(s)] of the compiled [taskGroupStartedByPattern],
    the literal [fargate:] followed by one group of any bytes but
    newline, as many as possible: the leftmost match and its group,
    [nil] without a match. *)
Fixpoint taskGroupStartedBy_FindStringSubmatch (s : string) : list string :=
  if HasPrefix s "fargate:" then
    let group := dotStar (dropBytes 8 s) in ["fargate:" +:+ group; group]
  else match s with
       | EmptyString => []
       | String _ r => taskGroupStartedBy_FindStringSubmatch r
       end.

End Regexp.

(* ================================================================== *)
(** ** Package [elbv2]: what the command uses of the client *)
(* ================================================================== *)

Module ELBV2.

(** [ELBV2.Rule]; the field [Type] is spelled [Type_]. *)
Record Rule := { Type_ : string; Value : string }.

Record LoadBalancer := { LoadBalancer_Type : string; Arn : string }.

Record CreateTargetGroupInput := {
  Name : string;
  Port : Z;
  Protocol : string;
  VpcId : string
}.

(** Modelled from the spec: the load balancer client, whose code is in
    package [elbv2]: [describe(name)] gives the balancer's identity and
    kind, [createTargetGroup(spec)] gives the new group's identity.
    Each answer is an outcome, a remote failure being fatal inside the
    client. *)
Record ELBV2 := {
  DescribeLoadBalancer : string -> Outcome LoadBalancer;
  CreateTargetGroup : CreateTargetGroupInput -> Outcome string;
  AddRule : string -> string -> Rule -> Outcome unit;
  ModifyLoadBalancerDefaultAction : string -> string -> Outcome unit
}.

End ELBV2.

(* ================================================================== *)
(** ** The AWS SDK: package [aws] and the ECS service client *)
(* ================================================================== *)

(** A pointer to a string is [option string], [nil] being [None]. *)
Module aws.
Definition String (s : string) : option string := Some s.
Definition StringValue (p : option string) : string := default EmptyString p.
Definition StringSlice (l : list string) : list (option string) := map Some l.
Definition StringValueSlice (l : list (option string)) : list string :=
  map StringValue l.
(** A time is a count of nanoseconds; the zero time is 0. *)
Definition TimeValue (p : option Z) : Z := default 0%Z p.
End aws.

Module awsecs.

Record KeyValuePair := { Name : option string; Value : option string }.

Record Attachment := { Type_ : option string; Details : list KeyValuePair }.

Record Task := {
  TaskArn : option string;
  Cpu : option string;
  CreatedAt : option Z;
  TaskDefinitionArn : option string;
  DesiredStatus : option string;
  LastStatus : option string;
  Memory : option string;
  StartedBy : option string;
  Attachments : list Attachment
}.

Record ContainerDefinition := {
  Image : option string;
  Environment : list KeyValuePair
}.

Record TaskDefinition := {
  ContainerDefinitions : list ContainerDefinition;
  TaskRoleArn : option string
}.

Module DescribeTaskDefinitionOutput.
Record t := { TaskDefinition : awsecs.TaskDefinition }.
End DescribeTaskDefinitionOutput.

Module ListTasksInput.
Record t := {
  Cluster : option string;
  LaunchType : option string;
  ServiceName : option string;
  StartedBy : option string
}.
End ListTasksInput.

Module ListTasksOutput.
Record t := { TaskArns : list (option string) }.
End ListTasksOutput.

Module DescribeTasksInput.
Record t := { Cluster : option string; Tasks : list (option string) }.
End DescribeTasksInput.

Module DescribeTasksOutput.
Record t := { Tasks : list Task }.
End DescribeTasksOutput.

(** What the service answers: to a listing, the pages it delivers in
    order and the error, if any, that ends the iteration after them; to
    a describe call, a response or an error. *)
Record ECSAPI := {
  listTasksPages : ListTasksInput.t -> list ListTasksOutput.t * option string;
  describeTasks : DescribeTasksInput.t -> DescribeTasksOutput.t + string
}.

(** The paginator's loop: [fn] receives each page and whether it is the
    last one; the iteration stops as soon as [fn] answers [false].  The
    state [S] is what the callback's closure mutates.  The boolean of
    the result tells whether every page was delivered. *)
Fixpoint eachPage {S : Type}
    (fn : S -> ListTasksOutput.t -> bool -> S * bool)
    (pages : list ListTasksOutput.t) (s : S) : S * bool :=
  match pages with
  | [] => (s, true)
  | resp :: rest =>
      let '(s', continue) := fn s resp (bool_decide (rest = [])) in
      if continue then eachPage fn rest s' else (s', false)
  end.

(** [svc.ListTasksPages(input, fn)]: the error is the one that ended
    the iteration, [nil] when the callback stopped it before. *)
Definition ListTasksPages {S : Type} (svc : ECSAPI) (input : ListTasksInput.t)
    (fn : S -> ListTasksOutput.t -> bool -> S * bool) (s : S)
  : S * option string :=
  let '(pages, err) := listTasksPages svc input in
  let '(s', delivered) := eachPage fn pages s in
  (s', if delivered then err else None).

End awsecs.

(* ================================================================== *)
(** ** Package [ecs]: the task inventory ([ecs/task.go]) *)
(* ================================================================== *)

Module ECS.
Import GoStrings.
Local Open Scope traced_scope.

Definition detailNetworkInterfaceId : string := "networkInterfaceId".
Definition detailSubnetId : string := "subnetId".
Definition eniAttachmentType : string := "ElasticNetworkInterface".

Record EnvVar := { Key : string; Value : string }.

Record Task := {
  Cpu : string;
  CreatedAt : Z;
  DeploymentId : string;
  DesiredStatus : string;
  EniId : string;
  EnvVars : list EnvVar;
  Image : string;
  LastStatus : string;
  Memory : string;
  SecurityGroupIds : list string;
  StartedBy : string;
  SubnetId : string;
  TaskId : string;
  TaskRole : string
}.

Record TaskGroup := { TaskGroupName : string; Instances : Z }.

(** The receiver: its cluster, the service client, and the two methods
    of the package that [task.go] calls and another file defines.
    [DescribeTaskDefinition] is fatal inside on a remote failure. *)
Record ECS := {
  ClusterName : string;
  svc : awsecs.ECSAPI;
  GetRevisionNumber : string -> string;
  DescribeTaskDefinition : string -> Outcome awsecs.DescribeTaskDefinitionOutput.t
}.

(** The remote calls of the inventory. *)
Inductive Event :=
| Svc_ListTasksPages (input : awsecs.ListTasksInput.t)
| Svc_DescribeTasks (input : awsecs.DescribeTasksInput.t)
| Ecs_DescribeTaskDefinition (taskDefinitionArn : string).

(** An [int64] after an arithmetic operation. *)
Definition wrap64 (z : Z) : Z :=
  ((z + 2 ^ 63) mod 2 ^ 64 - 2 ^ 63)%Z.

(** *** determineENIDetails *)

(** The loop over [attachment.Details]. *)
Fixpoint detailsLoop (details : list awsecs.KeyValuePair)
    (eniId subnetId : string) : string * string :=
  match details with
  | [] => (eniId, subnetId)
  | detail :: rest =>
      let name := aws.StringValue (awsecs.Name detail) in
      if String.eqb name detailNetworkInterfaceId then
        detailsLoop rest (aws.StringValue (awsecs.Value detail)) subnetId
      else if String.eqb name detailSubnetId then
        detailsLoop rest eniId (aws.StringValue (awsecs.Value detail))
      else detailsLoop rest eniId subnetId
  end.

(** The loop over [t.Attachments]; [*attachment.Type] dereferences the
    pointer. *)
Fixpoint attachmentsLoop (attachments : list awsecs.Attachment)
    (foundEni : bool) (eniId subnetId : string)
  : Outcome (bool * string * string) :=
  match attachments with
  | [] => Ret (foundEni, eniId, subnetId)
  | attachment :: rest =>
      match awsecs.Type_ attachment with
      | None => Panic "invalid memory address or nil pointer dereference"
      | Some type0 =>
          if negb (String.eqb type0 eniAttachmentType) then
            attachmentsLoop rest foundEni eniId subnetId
          else
            let '(eniId', subnetId') :=
              detailsLoop (awsecs.Details attachment) eniId subnetId in
            attachmentsLoop rest true eniId' subnetId'
      end
  end.

Definition determineENIDetails (t : awsecs.Task)
  : Outcome (bool * string * string) :=
  if (0 <? length (awsecs.Attachments t))%nat then
    attachmentsLoop (awsecs.Attachments t) false "" ""
  else Ret (false, EmptyString, EmptyString).

(** *** DescribeTasks *)

(** The loop over the environment of the first container. *)
Fixpoint envLoop (environment : list awsecs.KeyValuePair)
    (envVars : list EnvVar) : list EnvVar :=
  match environment with
  | [] => envVars
  | e :: rest =>
      envLoop rest
        (envVars ++ [ {| Key := aws.StringValue (awsecs.Name e);
                         Value := aws.StringValue (awsecs.Value e) |} ])
  end.

(** The body of the loop over [resp.Tasks]: one remote record to one
    [Task]. *)
Definition describeOne (ecs : ECS) (t : awsecs.Task) : Traced Event Task :=
  let taskArn := aws.StringValue (awsecs.TaskArn t) in
  let contents := Split taskArn "/" in
  taskID <- lift (index contents (length contents - 1)) ;;
  let deploymentId :=
    GetRevisionNumber ecs (aws.StringValue (awsecs.TaskDefinitionArn t)) in
  taskDefinition <-
    call (Ecs_DescribeTaskDefinition (aws.StringValue (awsecs.TaskDefinitionArn t)))
         (DescribeTaskDefinition ecs (aws.StringValue (awsecs.TaskDefinitionArn t))) ;;
  let containerDefinitions :=
    awsecs.ContainerDefinitions
      (awsecs.DescribeTaskDefinitionOutput.TaskDefinition taskDefinition) in
  container0 <- lift (index containerDefinitions 0) ;;
  let image := aws.StringValue (awsecs.Image container0) in
  let taskRole :=
    aws.StringValue
      (awsecs.TaskRoleArn
         (awsecs.DescribeTaskDefinitionOutput.TaskDefinition taskDefinition)) in
  let envVars := envLoop (awsecs.Environment container0) [] in
  eni <- lift (determineENIDetails t) ;;
  let '(found, eniId, subnetId) := eni in
  tret {| Cpu := aws.StringValue (awsecs.Cpu t);
          CreatedAt := aws.TimeValue (awsecs.CreatedAt t);
          DeploymentId := deploymentId;
          DesiredStatus := aws.StringValue (awsecs.DesiredStatus t);
          EniId := if found then eniId else EmptyString;
          EnvVars := envVars;
          Image := image;
          LastStatus := aws.StringValue (awsecs.LastStatus t);
          Memory := aws.StringValue (awsecs.Memory t);
          SecurityGroupIds := [];
          StartedBy := aws.StringValue (awsecs.StartedBy t);
          SubnetId := if found then subnetId else EmptyString;
          TaskId := taskID;
          TaskRole := taskRole |}.

Fixpoint describeLoop (ecs : ECS) (remote : list awsecs.Task)
    (tasks : list Task) : Traced Event (list Task) :=
  match remote with
  | [] => tret tasks
  | t :: rest =>
      task <- describeOne ecs t ;;
      describeLoop ecs rest (tasks ++ [task])
  end.

Definition DescribeTasks (ecs : ECS) (taskIds : list string)
  : Traced Event (list Task) :=
  if (length taskIds =? 0)%nat then tret []
  else
    let input :=
      {| awsecs.DescribeTasksInput.Cluster := aws.String (ClusterName ecs);
         awsecs.DescribeTasksInput.Tasks := aws.StringSlice taskIds |} in
    resp <- call (Svc_DescribeTasks input)
              (match awsecs.describeTasks (svc ecs) input with
               | inl resp => Ret resp
               | inr err => ErrorExit err "Could not describe ECS tasks"
               end) ;;
    describeLoop ecs (awsecs.DescribeTasksOutput.Tasks resp) [].

(** *** listTasks *)

(** The callback handed to [ListTasksPages]; its state is the captured
    [taskArnBatches]. *)
Definition collectPage (taskArnBatches : list (list string))
    (resp : awsecs.ListTasksOutput.t) (lastPage : bool)
  : list (list string) * bool :=
  (if (0 <? length (awsecs.ListTasksOutput.TaskArns resp))%nat then
     taskArnBatches ++ [aws.StringValueSlice (awsecs.ListTasksOutput.TaskArns resp)]
   else taskArnBatches,
   true).

(** The inner loop: [tasks = append(tasks, task)] for each task. *)
Fixpoint appendEach (described : list Task) (tasks : list Task) : list Task :=
  match described with
  | [] => tasks
  | task :: rest => appendEach rest (tasks ++ [task])
  end.

Fixpoint batchesLoop (ecs : ECS) (taskArnBatches : list (list string))
    (tasks : list Task) : Traced Event (list Task) :=
  match taskArnBatches with
  | [] => tret tasks
  | taskArnBatch :: rest =>
      described <- DescribeTasks ecs taskArnBatch ;;
      batchesLoop ecs rest (appendEach described tasks)
  end.

(** The batches [listTasks] holds when the paginator is done. *)
Definition listTasks_batches (ecs : ECS) (input : awsecs.ListTasksInput.t)
  : list (list string) * option string :=
  awsecs.ListTasksPages (svc ecs) input collectPage [].

Definition listTasks (ecs : ECS) (input : awsecs.ListTasksInput.t)
  : Traced Event (list Task) :=
  let '(taskArnBatches, err) := listTasks_batches ecs input in
  _ <- call (Svc_ListTasksPages input)
         (match err with
          | Some e => ErrorExit e "Could not list ECS tasks"
          | None => Ret tt
          end) ;;
  if (0 <? length taskArnBatches)%nat then batchesLoop ecs taskArnBatches []
  else tret [].

(** *** ListTaskGroups *)

(** The inner loop: the first group of that name has its counter
    incremented in place; [None] when no group has the name. *)
Fixpoint incrementGroup (taskGroupName : string) (taskGroups : list TaskGroup)
  : option (list TaskGroup) :=
  match taskGroups with
  | [] => None
  | taskGroup :: rest =>
      if String.eqb (TaskGroupName taskGroup) taskGroupName then
        Some ({| TaskGroupName := TaskGroupName taskGroup;
                 Instances := wrap64 (Instances taskGroup + 1) |} :: rest)
      else
        match incrementGroup taskGroupName rest with
        | Some rest' => Some (taskGroup :: rest')
        | None => None
        end
  end.

(** The body of the loop labelled [OUTER] for a task whose tag matches:
    the inner loop, and the [append] reached when it finds no group. *)
Definition countTask (taskGroupName : string) (taskGroups : list TaskGroup)
  : list TaskGroup :=
  match incrementGroup taskGroupName taskGroups with
  | Some taskGroups' => taskGroups'
  | None =>
      taskGroups ++ [ {| TaskGroupName := taskGroupName; Instances := 1 |} ]
  end.

(** The loop labelled [OUTER]. *)
Fixpoint groupLoop (tasks : list Task) (taskGroups : list TaskGroup)
  : list TaskGroup :=
  match tasks with
  | [] => taskGroups
  | task :: rest =>
      match Regexp.taskGroupStartedBy_FindStringSubmatch (StartedBy task) with
      | [_; taskGroupName] => groupLoop rest (countTask taskGroupName taskGroups)
      | _ => groupLoop rest taskGroups
      end
  end.

Definition clusterInput (ecs : ECS) : awsecs.ListTasksInput.t :=
  {| awsecs.ListTasksInput.Cluster := aws.String (ClusterName ecs);
     awsecs.ListTasksInput.LaunchType := None;
     awsecs.ListTasksInput.ServiceName := None;
     awsecs.ListTasksInput.StartedBy := None |}.

Definition ListTaskGroups (ecs : ECS) : Traced Event (list TaskGroup) :=
  tasks <- listTasks ecs (clusterInput ecs) ;;
  tret (groupLoop tasks []).

(** *** What [cmd] passes to the package *)

Module CreateTaskDefinitionInput.
Record t := {
  Cpu : string;
  EnvVars : list EnvVar;
  ExecutionRoleArn : string;
  Image : string;
  Memory : string;
  Name : string;
  Port : Z;
  LogGroupName : string;
  LogRegion : string
}.
End CreateTaskDefinitionInput.

Module CreateServiceInput.
Record t := {
  Cluster : string;
  Name : string;
  Port : Z;
  SubnetIds : list string;
  TargetGroupArn : string;
  TaskDefinitionArn : string
}.
End CreateServiceInput.

End ECS.

(* ================================================================== *)
(** ** Package [ecr]: what the command uses of the client *)
(* ================================================================== *)

Module ECR.

(** Modelled from the spec: the image repository client, whose code is
    in package [ecr]: [exists(name)], [reference(name)], [create(name)]
    and [credentials()].  Each answer is an outcome, a remote failure
    being fatal inside the client. *)
Record ECR := {
  IsRepositoryCreated : string -> Outcome bool;
  GetRepositoryUri : string -> Outcome string;
  CreateRepository : string -> Outcome string;
  GetUsernameAndPassword : Outcome (string * string)
}.

End ECR.

(* ================================================================== *)
(** ** Package [cmd]: [service create] *)
(* ================================================================== *)

Module cmd.
Import GoStrings.
Local Open Scope outcome_scope.

(** Modelled from the spec: the type [Port] of package [cmd], declared
    outside this file: a listening port is a protocol and a number. *)
Module Port.
Record t := { Port : Z; Protocol : string }.
End Port.

Record ServiceCreateOperation := {
  ServiceName : string;
  Cpu : string;
  Image : string;
  Memory : string;
  Port : Port.t;
  LoadBalancerArn : string;
  LoadBalancerName : string;
  Rules : list ELBV2.Rule;
  Elbv2 : ELBV2.ELBV2;
  EnvVars : list ECS.EnvVar
}.

Definition set_Port (o : ServiceCreateOperation) (p : Port.t) :=
  {| ServiceName := ServiceName o; Cpu := Cpu o; Image := Image o;
     Memory := Memory o; Port := p;
     LoadBalancerArn := LoadBalancerArn o;
     LoadBalancerName := LoadBalancerName o; Rules := Rules o;
     Elbv2 := Elbv2 o; EnvVars := EnvVars o |}.

Definition set_LoadBalancer (o : ServiceCreateOperation) (name arn : string) :=
  {| ServiceName := ServiceName o; Cpu := Cpu o; Image := Image o;
     Memory := Memory o; Port := Port o;
     LoadBalancerArn := arn; LoadBalancerName := name; Rules := Rules o;
     Elbv2 := Elbv2 o; EnvVars := EnvVars o |}.

Definition set_Rules (o : ServiceCreateOperation) (rules : list ELBV2.Rule) :=
  {| ServiceName := ServiceName o; Cpu := Cpu o; Image := Image o;
     Memory := Memory o; Port := Port o;
     LoadBalancerArn := LoadBalancerArn o;
     LoadBalancerName := LoadBalancerName o; Rules := rules;
     Elbv2 := Elbv2 o; EnvVars := EnvVars o |}.

Definition set_Image (o : ServiceCreateOperation) (image : string) :=
  {| ServiceName := ServiceName o; Cpu := Cpu o; Image := image;
     Memory := Memory o; Port := Port o;
     LoadBalancerArn := LoadBalancerArn o;
     LoadBalancerName := LoadBalancerName o; Rules := Rules o;
     Elbv2 := Elbv2 o; EnvVars := EnvVars o |}.

(** [append(msgs, msg)] under a condition. *)
Definition appendIf (cond : bool) (msgs : list string) (msg : string) :=
  if cond then msgs ++ [msg] else msgs.

(** *** SetPort *)

(** [fmt.Sprintf("Invalid protocol %s [specify TCP, HTTP, or HTTPS]", p)] *)
Definition msgInvalidProtocol (p : string) : string :=
  "Invalid protocol " +:+ p +:+ " [specify TCP, HTTP, or HTTPS]".

(** [fmt.Sprintf("Invalid port %d [specify within 1 - 65535]", n)] *)
Definition msgInvalidPort (n : Z) : string :=
  "Invalid port " +:+ Itoa n +:+ " [specify within 1 - 65535]".

Section SetPort.
Context `{GoRuntime}.
(** [inflatePort] and the compiled [validProtocolsPattern] are
    declared in another file of the package. *)
Variable inflatePort : string -> Port.t.
Variable validProtocols_MatchString : string -> bool.

Definition SetPort_msgs (port : Port.t) : list string :=
  let msgs := [] in
  let msgs := appendIf (negb (validProtocols_MatchString (Port.Protocol port)))
                msgs (msgInvalidProtocol (Port.Protocol port)) in
  let msgs := appendIf ((Port.Port port <? 1)%Z || (Port.Port port >? 65535)%Z)
                msgs (msgInvalidPort (Port.Port port)) in
  msgs.

Definition SetPort (o : ServiceCreateOperation) (inputPort : string)
  : Outcome ServiceCreateOperation :=
  let port := inflatePort inputPort in
  let msgs := SetPort_msgs port in
  if (0 <? length msgs)%nat then
    ErrorExit (fmt_Errorf0 (Join msgs ", ")) "Invalid command line flags"
  else Ret (set_Port o port).
End SetPort.

(** *** SetLoadBalancer *)

(** [fmt.Errorf("network load balancer %s only supports TCP", lb)] *)
Definition errNetworkOnlyTCP (lb : string) : string :=
  "network load balancer " +:+ lb +:+ " only supports TCP".

(** [fmt.Errorf("application load balancer %s only supports HTTP or HTTPS", lb)] *)
Definition errApplicationOnlyHTTP (lb : string) : string :=
  "application load balancer " +:+ lb +:+ " only supports HTTP or HTTPS".

Definition SetLoadBalancer (o : ServiceCreateOperation) (lb : string)
  : Outcome ServiceCreateOperation :=
  loadBalancer <- ELBV2.DescribeLoadBalancer (Elbv2 o) lb ;;
  _ <- (if String.eqb (ELBV2.LoadBalancer_Type loadBalancer) "network" then
          if negb (String.eqb (Port.Protocol (Port o)) "TCP") then
            ErrorExit (errNetworkOnlyTCP lb) "Invalid load balancer and protocol"
          else Ret tt
        else Ret tt) ;;
  _ <- (if String.eqb (ELBV2.LoadBalancer_Type loadBalancer) "application" then
          if negb (String.eqb (Port.Protocol (Port o)) "HTTP"
                   || String.eqb (Port.Protocol (Port o)) "HTTPS") then
            ErrorExit (errApplicationOnlyHTTP lb) "Invalid load balancer and protocol"
          else Ret tt
        else Ret tt) ;;
  Ret (set_LoadBalancer o lb (ELBV2.Arn loadBalancer)).

(** *** SetRules *)

(** [fmt.Sprintf("Invalid rule type %s [must be path or host]", t)] *)
Definition msgInvalidRuleType (t : string) : string :=
  "Invalid rule type " +:+ t +:+ " [must be path or host]".

Section SetRules.
Context `{GoRuntime}.

(** The body of the loop over [inputRules], with the two slices it
    appends to. *)
Fixpoint SetRules_loop (inputRules : list string)
    (rules : list ELBV2.Rule) (msgs : list string)
  : Outcome (list ELBV2.Rule * list string) :=
  match inputRules with
  | [] => Ret (rules, msgs)
  | inputRule :: rest =>
      let splitInputRule := SplitN inputRule "=" 2 in
      let msgs := appendIf (negb (length splitInputRule =? 2)%nat) msgs
                    "rules must be in the form of type=value" in
      type0 <- index splitInputRule 0 ;;
      let msgs := appendIf (negb (Regexp.validRuleTypes_MatchString type0)) msgs
                    (msgInvalidRuleType type0) in
      type0' <- index splitInputRule 0 ;;
      value <- index splitInputRule 1 ;;
      SetRules_loop rest
        (rules ++ [ {| ELBV2.Type_ := strings_ToUpper type0';
                       ELBV2.Value := value |} ])
        msgs
  end.

Definition SetRules (o : ServiceCreateOperation) (inputRules : list string)
  : Outcome ServiceCreateOperation :=
  let msgs := [] in
  let msgs := appendIf ((0 <? length inputRules)%nat
                        && String.eqb (LoadBalancerArn o) "") msgs
                "lb must be configured if rules are specified" in
  looped <- SetRules_loop inputRules [] msgs ;;
  let '(rules, msgs) := looped in
  if (0 <? length msgs)%nat then
    ErrorExit (fmt_Errorf0 (Join msgs ", ")) "Invalid rule"
  else Ret (set_Rules o rules).
End SetRules.

(** *** createService *)

(** Modelled from the spec: the collaborators of [createService],
    whose code is in other packages: the image repository client, the
    network client, the role and log group acquisition, the revision source,
    the local image build ([login], [build], [push], [uriFor]) and the
    registration calls of the compute platform.  Each answer is an
    outcome, a failure being fatal inside the collaborator. *)
Record Collaborators := {
  ecr : ECR.ECR;
  ec2_GetDefaultVpcSubnetIds : Outcome (list string);
  ec2_GetDefaultVpcId : Outcome string;
  iam_CreateEcsTaskExecutionRole : Outcome string;
  cwl_CreateLogGroup : string -> string -> Outcome string;
  git_IsCwdGitRepo : Outcome bool;
  git_GetShortSha : Outcome string;
  docker_GenerateTag : Outcome string;
  repository_Login : string -> string -> string -> Outcome unit;
  repository_Build : string -> string -> Outcome unit;
  repository_Push : string -> string -> Outcome unit;
  repository_UriFor : string -> string -> string;
  ecs_CreateTaskDefinition : ECS.CreateTaskDefinitionInput.t -> Outcome string;
  ecs_CreateService : ECS.CreateServiceInput.t -> Outcome unit;
  (** package-level names of [cmd] declared in another file *)
  logGroupFormat : string;
  region : string;
  clusterName : string
}.

(** The collaborator calls of one deployment. *)
Inductive Event :=
| ECR_IsRepositoryCreated (name : string)
| ECR_GetRepositoryUri (name : string)
| ECR_CreateRepository (name : string)
| EC2_GetDefaultVpcSubnetIds
| IAM_CreateEcsTaskExecutionRole
| CWL_CreateLogGroup (format name : string)
| ECR_GetUsernameAndPassword
| Git_IsCwdGitRepo
| Git_GetShortSha
| Docker_GenerateTag
| Repository_Login (uri username password : string)
| Repository_Build (uri tag : string)
| Repository_Push (uri tag : string)
| EC2_GetDefaultVpcId
| ELBV2_CreateTargetGroup (input : ELBV2.CreateTargetGroupInput)
| ELBV2_AddRule (lbArn targetGroupArn : string) (rule : ELBV2.Rule)
| ELBV2_ModifyLoadBalancerDefaultAction (lbArn targetGroupArn : string)
| ECS_CreateTaskDefinition (input : ECS.CreateTaskDefinitionInput.t)
| ECS_CreateService (input : ECS.CreateServiceInput.t).

Local Open Scope traced_scope.

(** Lines 182 to 186: the repository of the service, looked up when it
    exists and created otherwise. *)
Definition acquireRepository (ecr : ECR.ECR) (serviceName : string)
  : Traced Event string :=
  created <- call (ECR_IsRepositoryCreated serviceName)
               (ECR.IsRepositoryCreated ecr serviceName) ;;
  if created : bool then
    call (ECR_GetRepositoryUri serviceName) (ECR.GetRepositoryUri ecr serviceName)
  else
    call (ECR_CreateRepository serviceName) (ECR.CreateRepository ecr serviceName).

(** Lines 193 to 209: the image is built and published when none was
    given; the result is the image of the operation afterwards. *)
Definition resolveImage (c : Collaborators) (operation : ServiceCreateOperation)
    (repositoryUri : string) : Traced Event string :=
  if String.eqb (Image operation) "" then
    credentials <- call ECR_GetUsernameAndPassword
                     (ECR.GetUsernameAndPassword (ecr c)) ;;
    inGitRepo <- call Git_IsCwdGitRepo (git_IsCwdGitRepo c) ;;
    tag <- (if inGitRepo : bool then call Git_GetShortSha (git_GetShortSha c)
            else call Docker_GenerateTag (docker_GenerateTag c)) ;;
    _ <- call (Repository_Login repositoryUri (fst credentials) (snd credentials))
           (repository_Login c repositoryUri (fst credentials) (snd credentials)) ;;
    _ <- call (Repository_Build repositoryUri tag)
           (repository_Build c repositoryUri tag) ;;
    _ <- call (Repository_Push repositoryUri tag)
           (repository_Push c repositoryUri tag) ;;
    tret (repository_UriFor c repositoryUri tag)
  else tret (Image operation).

(** The loop over [operation.Rules]. *)
Fixpoint addRules (operation : ServiceCreateOperation) (targetGroupArn : string)
    (rules : list ELBV2.Rule) : Traced Event unit :=
  match rules with
  | [] => tret tt
  | rule :: rest =>
      _ <- call (ELBV2_AddRule (LoadBalancerArn operation) targetGroupArn rule)
             (ELBV2.AddRule (Elbv2 operation)
                (LoadBalancerArn operation) targetGroupArn rule) ;;
      addRules operation targetGroupArn rest
  end.

(** Lines 211 to 229: the result is [targetGroupArn]. *)
Definition wireLoadBalancer (c : Collaborators) (operation : ServiceCreateOperation)
  : Traced Event string :=
  if negb (String.eqb (LoadBalancerArn operation) "") then
    vpcId <- call EC2_GetDefaultVpcId (ec2_GetDefaultVpcId c) ;;
    let input :=
      {| ELBV2.Name := LoadBalancerName operation +:+ "-" +:+ ServiceName operation;
         ELBV2.Port := Port.Port (Port operation);
         ELBV2.Protocol := Port.Protocol (Port operation);
         ELBV2.VpcId := vpcId |} in
    targetGroupArn <- call (ELBV2_CreateTargetGroup input)
                        (ELBV2.CreateTargetGroup (Elbv2 operation) input) ;;
    _ <- (if (0 <? length (Rules operation))%nat then
            addRules operation targetGroupArn (Rules operation)
          else
            call (ELBV2_ModifyLoadBalancerDefaultAction
                    (LoadBalancerArn operation) targetGroupArn)
                 (ELBV2.ModifyLoadBalancerDefaultAction (Elbv2 operation)
                    (LoadBalancerArn operation) targetGroupArn)) ;;
    tret targetGroupArn
  else tret EmptyString.

(** The result is the operation as the run leaves it, [Image] being
    assigned when an image was built.  [console.Info] only prints and
    the client constructors only wrap the session: neither is a
    collaborator call. *)
Definition createService (c : Collaborators) (operation : ServiceCreateOperation)
  : Traced Event ServiceCreateOperation :=
  repositoryUri <- acquireRepository (ecr c) (ServiceName operation) ;;
  subnetIds <- call EC2_GetDefaultVpcSubnetIds (ec2_GetDefaultVpcSubnetIds c) ;;
  ecsTaskExecutionRoleArn <-
    call IAM_CreateEcsTaskExecutionRole (iam_CreateEcsTaskExecutionRole c) ;;
  logGroupName <-
    call (CWL_CreateLogGroup (logGroupFormat c) (ServiceName operation))
         (cwl_CreateLogGroup c (logGroupFormat c) (ServiceName operation)) ;;
  image <- resolveImage c operation repositoryUri ;;
  let operation' := set_Image operation image in
  targetGroupArn <- wireLoadBalancer c operation' ;;
  let taskDefinitionInput :=
    {| ECS.CreateTaskDefinitionInput.Cpu := Cpu operation';
       ECS.CreateTaskDefinitionInput.EnvVars := EnvVars operation';
       ECS.CreateTaskDefinitionInput.ExecutionRoleArn := ecsTaskExecutionRoleArn;
       ECS.CreateTaskDefinitionInput.Image := Image operation';
       ECS.CreateTaskDefinitionInput.Memory := Memory operation';
       ECS.CreateTaskDefinitionInput.Name := ServiceName operation';
       ECS.CreateTaskDefinitionInput.Port := Port.Port (Port operation');
       ECS.CreateTaskDefinitionInput.LogGroupName := logGroupName;
       ECS.CreateTaskDefinitionInput.LogRegion := region c |} in
  taskDefinitionArn <-
    call (ECS_CreateTaskDefinition taskDefinitionInput)
         (ecs_CreateTaskDefinition c taskDefinitionInput) ;;
  let serviceInput :=
    {| ECS.CreateServiceInput.Cluster := clusterName c;
       ECS.CreateServiceInput.Name := ServiceName operation';
       ECS.CreateServiceInput.Port := Port.Port (Port operation');
       ECS.CreateServiceInput.SubnetIds := subnetIds;
       ECS.CreateServiceInput.TargetGroupArn := targetGroupArn;
       ECS.CreateServiceInput.TaskDefinitionArn := taskDefinitionArn |} in
  _ <- call (ECS_CreateService serviceInput) (ecs_CreateService c serviceInput) ;;
  tret operation'.

(** What the claims distinguish in a trace. *)
Definition isLoadBalancerWiring (ev : Event) : bool :=
  match ev with
  | EC2_GetDefaultVpcId
  | ELBV2_CreateTargetGroup _
  | ELBV2_AddRule _ _ _
  | ELBV2_ModifyLoadBalancerDefaultAction _ _ => true
  | _ => false
  end.

Definition isElbv2Call (ev : Event) : bool :=
  match ev with
  | ELBV2_CreateTargetGroup _
  | ELBV2_AddRule _ _ _
  | ELBV2_ModifyLoadBalancerDefaultAction _ _ => true
  | _ => false
  end.

Definition isImageBuild (ev : Event) : bool :=
  match ev with
  | ECR_GetUsernameAndPassword
  | Git_IsCwdGitRepo
  | Git_GetShortSha
  | Docker_GenerateTag
  | Repository_Login _ _ _
  | Repository_Build _ _
  | Repository_Push _ _ => true
  | _ => false
  end.

Definition isBuildOrPush (ev : Event) : bool :=
  match ev with
  | Repository_Build _ _ | Repository_Push _ _ => true
  | _ => false
  end.

Definition isAddRule (ev : Event) : bool :=
  match ev with
  | ELBV2_AddRule _ _ _ => true
  | _ => false
  end.

Definition isDefaultAction (ev : Event) : bool :=
  match ev with
  | ELBV2_ModifyLoadBalancerDefaultAction _ _ => true
  | _ => false
  end.

(** The target group [createService] asks for. *)
Definition targetGroupInput (operation : ServiceCreateOperation) (vpcId : string)
  : ELBV2.CreateTargetGroupInput :=
  {| ELBV2.Name := LoadBalancerName operation +:+ "-" +:+ ServiceName operation;
     ELBV2.Port := Port.Port (Port operation);
     ELBV2.Protocol := Port.Protocol (Port operation);
     ELBV2.VpcId := vpcId |}.

(** The calls to the load balancer client in a wiring that completes:
    one target group, then one rule per configured rule, or the default
    action when no rule is configured. *)
Definition wiringCalls (operation : ServiceCreateOperation)
    (vpcId targetGroupArn : string) : list Event :=
  ELBV2_CreateTargetGroup (targetGroupInput operation vpcId)
  :: match Rules operation with
     | [] => [ELBV2_ModifyLoadBalancerDefaultAction
                (LoadBalancerArn operation) targetGroupArn]
     | rules => map (ELBV2_AddRule (LoadBalancerArn operation) targetGroupArn) rules
     end.

(** *** The parts of the package declared in another file *)

(** The integer written in decimal in [s]; 0 when [s] is no numeral. *)
Definition Atoi (s : string) : Z :=
  match NilZero.int_of_string s with
  | Some d => Z.of_int d
  | None => 0%Z
  end.

(** Modelled from the spec: [inflatePort], declared in another file of
    the package.  The input has the form [PORT] or [PROTOCOL:PORT]; the
    protocol is TCP when omitted and is normalized to upper case; the
    output is the protocol and the port. *)
Definition inflatePort `{GoRuntime} (src : string) : Port.t :=
  match cutAt src ":" with
  | Some (protocol, port) =>
      {| Port.Port := Atoi port; Port.Protocol := strings_ToUpper protocol |}
  | None => {| Port.Port := Atoi src; Port.Protocol := "TCP" |}
  end.

(** Modelled from the spec: the compiled [validProtocolsPattern],
    declared in another file of the package: the protocol is one of TCP,
    HTTP and HTTPS, case-insensitively. *)
Definition validProtocols_MatchString (protocol : string) : bool :=
  String.eqb (lowerASCII protocol) "tcp"
  || String.eqb (lowerASCII protocol) "http"
  || String.eqb (lowerASCII protocol) "https".

End cmd.

(* ================================================================== *)
(** ** The image registry behind the repository client *)
(* ================================================================== *)

Module Registry.

Section Registry.
(** The reference the registry gives to a repository name, and the
    credentials it hands out. *)
Variable uriOf : string -> string.
Variable credentials : string * string.

(** Modelled from the spec: the registry is a finite map from the
    names of the repositories that exist to their canonical
    references.  [exists] tells whether the name is bound,
    [reference] gives what it is bound to, and [create] binds a name
    that is free and fails on a name that exists. *)
Definition client (registry : gmap string string) : ECR.ECR :=
  {| ECR.IsRepositoryCreated := fun name =>
       Ret (bool_decide (is_Some (registry !! name)));
     ECR.GetRepositoryUri := fun name =>
       match registry !! name with
       | Some uri => Ret uri
       | None => ErrorExit "RepositoryNotFoundException"
                   "Could not retrieve ECR repository"
       end;
     ECR.CreateRepository := fun name =>
       match registry !! name with
       | Some _ => ErrorExit "RepositoryAlreadyExistsException"
                     "Could not create ECR repository"
       | None => Ret (uriOf name)
       end;
     ECR.GetUsernameAndPassword := Ret credentials |}.

(** The registry after one collaborator call. *)
Definition after (registry : gmap string string) (ev : cmd.Event)
  : gmap string string :=
  match ev with
  | cmd.ECR_CreateRepository name =>
      match registry !! name with
      | Some _ => registry
      | None => <[name := uriOf name]> registry
      end
  | _ => registry
  end.

(** One acquisition against a registry: its outcome, and the
    registry it leaves. *)
Definition acquire (registry : gmap string string) (serviceName : string)
  : Outcome string * gmap string string :=
  let '(trace, outcome) := cmd.acquireRepository (client registry) serviceName in
  (outcome, foldl after registry trace).
End Registry.

End Registry.

(* ================================================================== *)
(** ** The vocabulary of the specification *)
(* ================================================================== *)

Module Spec.
Import GoStrings.

(** The number of bytes [c] in [s]. *)
Fixpoint countByte (c : ascii) (s : string) : nat :=
  match s with
  | EmptyString => 0
  | String d r => (if Ascii.eqb d c then 1 else 0) + countByte c r
  end.

(** A routing rule [type=value]: the text before the first separator
    and the text after it. *)
Definition ruleType (rule : string) : string :=
  match cutAt rule "=" with
  | Some (type0, _) => type0
  | None => rule
  end.

Definition ruleValue (rule : string) : string :=
  match cutAt rule "=" with
  | Some (_, value) => value
  | None => EmptyString
  end.

Definition hasSeparator (rule : string) : bool := Contains rule "=".

(** [host] or [path], in any mix of upper and lower case letters. *)
Definition isHostOrPath (type0 : string) : bool :=
  String.eqb (lowerASCII type0) "host" || String.eqb (lowerASCII type0) "path".

(** The rule a well-formed entry stands for. *)
Definition parseRule `{GoRuntime} (rule : string) : ELBV2.Rule :=
  {| ELBV2.Type_ := strings_ToUpper (ruleType rule);
     ELBV2.Value := ruleValue rule |}.

(** The violations of one entry that has a separator. *)
Definition ruleViolations (rule : string) : list string :=
  if Regexp.validRuleTypes_MatchString (ruleType rule) then []
  else [cmd.msgInvalidRuleType (ruleType rule)].

(** The violations of a rule list whose entries all have a separator. *)
Definition rulesViolations (o : cmd.ServiceCreateOperation)
    (inputRules : list string) : list string :=
  (if (0 <? length inputRules)%nat && String.eqb (cmd.LoadBalancerArn o) ""
   then ["lb must be configured if rules are specified"] else [])
  ++ flat_map ruleViolations inputRules.

(** The rejection condition in the words of the specification: rules
    without a load balancer, an entry that does not have exactly one
    separator, or a type that is not host or path. *)
Definition rejectsAsSpecified (o : cmd.ServiceCreateOperation)
    (inputRules : list string) : bool :=
  ((0 <? length inputRules)%nat && String.eqb (cmd.LoadBalancerArn o) "")
  || existsb (fun rule => negb (countByte "=" rule =? 1)%nat
                          || negb (isHostOrPath (ruleType rule))) inputRules.

(** The violations of a port. *)
Definition portViolations (validProtocol validPort : bool)
    (protocol : string) (port : Z) : list string :=
  (if validProtocol then [] else [cmd.msgInvalidProtocol protocol])
  ++ (if validPort then [] else [cmd.msgInvalidPort port]).

(** [tcp], [http] or [https], in any mix of upper and lower case. *)
Definition isProtocolName (token : string) : bool :=
  String.eqb (lowerASCII token) "tcp"
  || String.eqb (lowerASCII token) "http"
  || String.eqb (lowerASCII token) "https".

Definition inPortRange (n : Z) : bool := (1 <=? n)%Z && (n <=? 65535)%Z.

(** A message cites a word when the word occurs in it. *)
Definition cites (message word : string) : bool := Contains message word.

(** *** The task inventory *)

(** The logical name a started-by tag carries: the group of the
    pattern's match, none when the pattern does not match. *)
Definition logicalName (startedBy : string) : option string :=
  match Regexp.taskGroupStartedBy_FindStringSubmatch startedBy with
  | [_; name] => Some name
  | _ => None
  end.

Definition logicalNames (tasks : list ECS.Task) : list string :=
  omap (fun task => logicalName (ECS.StartedBy task)) tasks.

Definition matchesPattern (task : ECS.Task) : bool :=
  bool_decide (is_Some (logicalName (ECS.StartedBy task))).

(** The distinct names of a list in the order of their first
    occurrence. *)
Fixpoint firstSeen (names : list string) : list string :=
  match names with
  | [] => []
  | name :: rest =>
      name :: List.filter (fun other => negb (String.eqb other name)) (firstSeen rest)
  end.

Definition seen (name : string) (names : list string) : bool :=
  existsb (String.eqb name) names.

(** How many times a name occurs in a list. *)
Definition occurrences (name : string) (names : list string) : nat :=
  length (List.filter (String.eqb name) names).

(** One group per distinct name, with the number of its occurrences. *)
Definition tally (names : list string) : list ECS.TaskGroup :=
  map (fun name => {| ECS.TaskGroupName := name;
                      ECS.Instances := Z.of_nat (occurrences name names) |})
    (firstSeen names).

(** An attachment of the network interface kind. *)
Definition isEni (attachment : awsecs.Attachment) : bool :=
  match awsecs.Type_ attachment with
  | Some type0 => String.eqb type0 ECS.eniAttachmentType
  | None => false
  end.

(** The details of the network interface attachments of a record, in
    order. *)
Definition eniDetails (t : awsecs.Task) : list awsecs.KeyValuePair :=
  flat_map awsecs.Details (List.filter isEni (awsecs.Attachments t)).

Definition named (name : string) (detail : awsecs.KeyValuePair) : bool :=
  String.eqb (aws.StringValue (awsecs.Name detail)) name.

(** The value of the last detail of that name, [otherwise] when there
    is none. *)
Fixpoint lastValue (name : string) (details : list awsecs.KeyValuePair)
    (otherwise : string) : string :=
  match details with
  | [] => otherwise
  | detail :: rest =>
      lastValue name rest
        (if named name detail then aws.StringValue (awsecs.Value detail)
         else otherwise)
  end.

(** The identifier batches of the pages of a listing. *)
Definition pageBatches (pages : list awsecs.ListTasksOutput.t) : list (list string) :=
  map (fun resp => aws.StringValueSlice (awsecs.ListTasksOutput.TaskArns resp)) pages.

Definition nonEmpty {A : Type} (l : list A) : bool := (0 <? length l)%nat.

(** A describe call of the inventory has identifiers to describe. *)
Definition describesSomething (ev : ECS.Event) : Prop :=
  match ev with
  | ECS.Svc_DescribeTasks input => awsecs.DescribeTasksInput.Tasks input <> []
  | _ => True
  end.

End Spec.

(* ================================================================== *)
(** ** Sample configurations *)
(* ================================================================== *)

Module Examples.

(** A load balancer client whose balancers are all of one kind. *)
Definition elbv2 (kind : string) : ELBV2.ELBV2 :=
  {| ELBV2.DescribeLoadBalancer := fun name =>
       Ret {| ELBV2.LoadBalancer_Type := kind; ELBV2.Arn := "arn:lb/" +:+ name |};
     ELBV2.CreateTargetGroup := fun input => Ret ("arn:tg/" +:+ ELBV2.Name input);
     ELBV2.AddRule := fun _ _ _ => Ret tt;
     ELBV2.ModifyLoadBalancerDefaultAction := fun _ _ => Ret tt |}.

(** The operation [service create web --cpu 256 --memory 512] starts
    from, before its setters run. *)
Definition blank (kind : string) : cmd.ServiceCreateOperation :=
  {| cmd.ServiceName := "web"; cmd.Cpu := "256"; cmd.Image := "";
     cmd.Memory := "512";
     cmd.Port := {| cmd.Port.Port := 0; cmd.Port.Protocol := "" |};
     cmd.LoadBalancerArn := ""; cmd.LoadBalancerName := "";
     cmd.Rules := []; cmd.Elbv2 := elbv2 kind; cmd.EnvVars := [] |}.

(** The same with the port [http:8080]. *)
Definition onHttp (kind : string) : cmd.ServiceCreateOperation :=
  cmd.set_Port (blank kind)
    {| cmd.Port.Port := 8080; cmd.Port.Protocol := "HTTP" |}.

(** The same bound to the load balancer [my-alb]. *)
Definition behindAlb : cmd.ServiceCreateOperation :=
  cmd.set_LoadBalancer (onHttp "application") "my-alb" "arn:lb/my-alb".

End Examples.

Module Deployments.

(** Collaborators that all succeed. *)
Definition collaborators : cmd.Collaborators :=
  {| cmd.ecr := Registry.client (fun name => "registry.example/" +:+ name)
                  ("AWS", "secret") ∅;
     cmd.ec2_GetDefaultVpcSubnetIds := Ret ["subnet-1"; "subnet-2"];
     cmd.ec2_GetDefaultVpcId := Ret "vpc-1";
     cmd.iam_CreateEcsTaskExecutionRole := Ret "arn:role/ecsTaskExecutionRole";
     cmd.cwl_CreateLogGroup := fun _ name => Ret ("/fargate/service/" +:+ name);
     cmd.git_IsCwdGitRepo := Ret true;
     cmd.git_GetShortSha := Ret "abc1234";
     cmd.docker_GenerateTag := Ret "20180101000000";
     cmd.repository_Login := fun _ _ _ => Ret tt;
     cmd.repository_Build := fun _ _ => Ret tt;
     cmd.repository_Push := fun _ _ => Ret tt;
     cmd.repository_UriFor := fun uri tag => uri +:+ ":" +:+ tag;
     cmd.ecs_CreateTaskDefinition := fun input =>
       Ret ("arn:task-definition/" +:+ ECS.CreateTaskDefinitionInput.Name input);
     cmd.ecs_CreateService := fun _ => Ret tt;
     cmd.logGroupFormat := "/fargate/service/%s";
     cmd.region := "us-east-1";
     cmd.clusterName := "fargate" |}.

(** [--port http:8080 --lb my-alb --rule path=/api/*] *)
Definition withPathRule : cmd.ServiceCreateOperation :=
  cmd.set_Rules Examples.behindAlb
    [ {| ELBV2.Type_ := "PATH"; ELBV2.Value := "/api/*" |} ].

End Deployments.


Module Fleet.

Definition remoteTask (arn startedBy : string) (attachments : list awsecs.Attachment)
  : awsecs.Task :=
  {| awsecs.TaskArn := Some arn;
     awsecs.Cpu := Some "256";
     awsecs.CreatedAt := Some 1514764800000000000%Z;
     awsecs.TaskDefinitionArn := Some "arn:aws:ecs:task-definition/web:3";
     awsecs.DesiredStatus := Some "RUNNING";
     awsecs.LastStatus := Some "RUNNING";
     awsecs.Memory := Some "512";
     awsecs.StartedBy := Some startedBy;
     awsecs.Attachments := attachments |}.

Definition eni : awsecs.Attachment :=
  {| awsecs.Type_ := Some "ElasticNetworkInterface";
     awsecs.Details :=
       [ {| awsecs.Name := Some "subnetId"; awsecs.Value := Some "subnet-1" |};
         {| awsecs.Name := Some "networkInterfaceId";
            awsecs.Value := Some "eni-1" |};
         {| awsecs.Name := Some "macAddress";
            awsecs.Value := Some "0a:00:00:00:00:01" |} ] |}.

Definition remoteTasks : list awsecs.Task :=
  [ remoteTask "arn:aws:ecs:task/fargate/t1" "fargate:web" [eni];
    remoteTask "arn:aws:ecs:task/fargate/t2" "fargate:web" [];
    remoteTask "arn:aws:ecs:task/fargate/t3" "fargate:worker" [];
    remoteTask "arn:aws:ecs:task/fargate/t4" "ecs-svc/1234" [] ].

Definition arnOf (t : awsecs.Task) : string := aws.StringValue (awsecs.TaskArn t).

(** A service that lists the four tasks on three pages, the second
    one empty, and describes the tasks it is asked for. *)
Definition api : awsecs.ECSAPI :=
  {| awsecs.listTasksPages := fun _ =>
       ([ {| awsecs.ListTasksOutput.TaskArns :=
               [Some "arn:aws:ecs:task/fargate/t1";
                Some "arn:aws:ecs:task/fargate/t2"] |};
          {| awsecs.ListTasksOutput.TaskArns := [] |};
          {| awsecs.ListTasksOutput.TaskArns :=
               [Some "arn:aws:ecs:task/fargate/t3";
                Some "arn:aws:ecs:task/fargate/t4"] |} ],
        None);
     awsecs.describeTasks := fun input =>
       inl {| awsecs.DescribeTasksOutput.Tasks :=
                List.filter
                  (fun t => existsb (fun id => String.eqb (aws.StringValue id) (arnOf t))
                              (awsecs.DescribeTasksInput.Tasks input))
                  remoteTasks |} |}.

Definition definition : awsecs.DescribeTaskDefinitionOutput.t :=
  {| awsecs.DescribeTaskDefinitionOutput.TaskDefinition :=
       {| awsecs.ContainerDefinitions :=
            [ {| awsecs.Image := Some "registry.example/web:abc1234";
                 awsecs.Environment :=
                   [ {| awsecs.Name := Some "PORT"; awsecs.Value := Some "8080" |} ] |} ];
          awsecs.TaskRoleArn := None |} |}.

Definition ecs : ECS.ECS :=
  {| ECS.ClusterName := "fargate";
     ECS.svc := api;
     ECS.GetRevisionNumber := fun arn =>
       default "" (last (GoStrings.Split arn ":"));
     ECS.DescribeTaskDefinition := fun _ => Ret definition |}.

(** The inventory of that service. *)
Definition tasks : list ECS.Task :=
  Eval vm_compute in
    match snd (ECS.listTasks ecs (ECS.clusterInput ecs)) with
    | Ret tasks => tasks
    | _ => []
    end.

Definition trace : list ECS.Event :=
  Eval vm_compute in fst (ECS.listTasks ecs (ECS.clusterInput ecs)).

End Fleet.

(* ================================================================== *)
(** ** Package [ecs]: running, stopping and querying tasks *)
(* ================================================================== *)

Module Lifecycle.
Import GoStrings.
Local Open Scope traced_scope.

(** The SDK's inputs of the two control operations. *)
Module AwsVpcConfiguration.
Record t := {
  AssignPublicIp : option string;
  Subnets : list (option string);
  SecurityGroups : list (option string)
}.
End AwsVpcConfiguration.

Module SdkRunTaskInput.
Record t := {
  Cluster : option string;
  Count : option Z;
  TaskDefinition : option string;
  LaunchType : option string;
  StartedBy : option string;
  AwsvpcConfiguration : AwsVpcConfiguration.t
}.
End SdkRunTaskInput.

Module SdkStopTaskInput.
Record t := { Cluster : option string; Task : option string }.
End SdkStopTaskInput.

(** What the service answers to the control operations of the same
    client: the error, [None] for [nil]. *)
Record ControlAPI := {
  runTask : SdkRunTaskInput.t -> option string;
  stopTask : SdkStopTaskInput.t -> option string
}.

Inductive Event :=
| Svc_RunTask (input : SdkRunTaskInput.t)
| Svc_StopTask (input : SdkStopTaskInput.t).

(** [awsecs.CompatibilityFargate] and [awsecs.AssignPublicIpEnabled]. *)
Definition CompatibilityFargate : string := "FARGATE".
Definition AssignPublicIpEnabled : string := "ENABLED".

(** [fmt.Sprintf(startedByFormat, name)], the format being
    [fargate:%s]. *)
Definition startedBy (name : string) : string := "fargate:" +:+ name.

Record RunTaskInput := {
  ClusterName : string;
  Count : Z;
  SecurityGroupIds : list string;
  SubnetIds : list string;
  TaskDefinitionArn : string;
  TaskName : string
}.

Definition runTaskInput (i : RunTaskInput) : SdkRunTaskInput.t :=
  {| SdkRunTaskInput.Cluster := aws.String (ClusterName i);
     SdkRunTaskInput.Count := Some (Count i);
     SdkRunTaskInput.TaskDefinition := aws.String (TaskDefinitionArn i);
     SdkRunTaskInput.LaunchType := aws.String CompatibilityFargate;
     SdkRunTaskInput.StartedBy := aws.String (startedBy (TaskName i));
     SdkRunTaskInput.AwsvpcConfiguration :=
       {| AwsVpcConfiguration.AssignPublicIp := aws.String AssignPublicIpEnabled;
          AwsVpcConfiguration.Subnets := aws.StringSlice (SubnetIds i);
          AwsVpcConfiguration.SecurityGroups := aws.StringSlice (SecurityGroupIds i) |} |}.

Definition RunTask (control : ControlAPI) (i : RunTaskInput) : Traced Event unit :=
  call (Svc_RunTask (runTaskInput i))
    (match runTask control (runTaskInput i) with
     | Some err => ErrorExit err "Could not run ECS task"
     | None => Ret tt
     end).

Definition stopTaskInput (ecs : ECS.ECS) (taskId : string) : SdkStopTaskInput.t :=
  {| SdkStopTaskInput.Cluster := aws.String (ECS.ClusterName ecs);
     SdkStopTaskInput.Task := aws.String taskId |}.

Definition StopTask (ecs : ECS.ECS) (control : ControlAPI) (taskId : string)
  : Traced Event unit :=
  call (Svc_StopTask (stopTaskInput ecs taskId))
    (match stopTask control (stopTaskInput ecs taskId) with
     | Some err => ErrorExit err "Could not stop ECS task"
     | None => Ret tt
     end).

Fixpoint StopTasks (ecs : ECS.ECS) (control : ControlAPI) (taskIds : list string)
  : Traced Event unit :=
  match taskIds with
  | [] => tret tt
  | taskId :: rest =>
      _ <- StopTask ecs control taskId ;;
      StopTasks ecs control rest
  end.

Definition serviceInput (ecs : ECS.ECS) (serviceName : string)
  : awsecs.ListTasksInput.t :=
  {| awsecs.ListTasksInput.Cluster := aws.String (ECS.ClusterName ecs);
     awsecs.ListTasksInput.LaunchType := aws.String CompatibilityFargate;
     awsecs.ListTasksInput.ServiceName := aws.String serviceName;
     awsecs.ListTasksInput.StartedBy := None |}.

Definition DescribeTasksForService (ecs : ECS.ECS) (serviceName : string)
  : Traced ECS.Event (list ECS.Task) :=
  ECS.listTasks ecs (serviceInput ecs serviceName).

Definition taskGroupInput (ecs : ECS.ECS) (taskGroupName : string)
  : awsecs.ListTasksInput.t :=
  {| awsecs.ListTasksInput.Cluster := aws.String (ECS.ClusterName ecs);
     awsecs.ListTasksInput.LaunchType := None;
     awsecs.ListTasksInput.ServiceName := None;
     awsecs.ListTasksInput.StartedBy := aws.String (startedBy taskGroupName) |}.

Definition DescribeTasksForTaskGroup (ecs : ECS.ECS) (taskGroupName : string)
  : Traced ECS.Event (list ECS.Task) :=
  ECS.listTasks ecs (taskGroupInput ecs taskGroupName).

(** The sum of the counters of a list of groups. *)
Definition totalInstances (groups : list ECS.TaskGroup) : Z :=
  fold_right Z.add 0%Z (map ECS.Instances groups).

Definition isDescribeCall (ev : ECS.Event) : bool :=
  match ev with ECS.Svc_DescribeTasks _ => true | _ => false end.

Definition isDefinitionLookup (ev : ECS.Event) : bool :=
  match ev with ECS.Ecs_DescribeTaskDefinition _ => true | _ => false end.

(** The environment of a container as [DescribeTasks] copies it. *)
Definition envVarsOf (environment : list awsecs.KeyValuePair) : list ECS.EnvVar :=
  map (fun e => {| ECS.Key := aws.StringValue (awsecs.Name e);
                   ECS.Value := aws.StringValue (awsecs.Value e) |}) environment.

(** A control client that refuses to stop one task. *)
Definition refusing (taskId : string) : ControlAPI :=
  {| runTask := fun _ => None;
     stopTask := fun input =>
       if String.eqb (aws.StringValue (SdkStopTaskInput.Task input)) taskId
       then Some "InvalidParameterException" else None |}.

End Lifecycle.

(* ================================================================== *)
(** ** Package [cmd]: the command around [createService] *)
(* ================================================================== *)

Module Command.
Import GoStrings cmd.
Local Open Scope traced_scope.

Definition set_EnvVars (o : ServiceCreateOperation) (envVars : list ECS.EnvVar) :=
  {| ServiceName := ServiceName o; Cpu := Cpu o; Image := Image o;
     Memory := Memory o; Port := Port o;
     LoadBalancerArn := LoadBalancerArn o;
     LoadBalancerName := LoadBalancerName o; Rules := Rules o;
     Elbv2 := Elbv2 o; EnvVars := envVars |}.

(** The flags of [service create]. *)
Record Flags := {
  flagServiceCreateCpu : string;
  flagServiceCreateEnvVars : list string;
  flagServiceCreateImage : string;
  flagServiceCreateLb : string;
  flagServiceCreateMemory : string;
  flagServiceCreatePort : string;
  flagServiceCreateRules : list string
}.

Section Command.
Context `{GoRuntime}.
(** Declared in other files: the helpers of package [cmd] that the
    setters call, and the heading [console.ErrorExit] makes of a format
    and its operands. *)
Variable validateCpuAndMemory : string -> string -> option string.
Variable extractEnvVars : list string -> list ECS.EnvVar.
Variable inflatePort : string -> Port.t.
Variable validProtocols_MatchString : string -> bool.
Variable console_heading : string -> list string -> string.

Definition Validate (o : ServiceCreateOperation) : Outcome unit :=
  match validateCpuAndMemory (Cpu o) (Memory o) with
  | Some err =>
      ErrorExit err
        (console_heading "Invalid settings: %d CPU units / %d MiB" [Cpu o; Memory o])
  | None => Ret tt
  end.

Definition SetEnvVars (o : ServiceCreateOperation) (inputEnvVars : list string)
  : ServiceCreateOperation :=
  set_EnvVars o (extractEnvVars inputEnvVars).

(** The operation the command starts from. *)
Definition newOperation (elbv2 : ELBV2.ELBV2) (args0 : string) (flags : Flags)
  : ServiceCreateOperation :=
  {| ServiceName := args0;
     Cpu := flagServiceCreateCpu flags;
     Image := flagServiceCreateImage flags;
     Memory := flagServiceCreateMemory flags;
     Port := {| Port.Port := 0; Port.Protocol := "" |};
     LoadBalancerArn := "";
     LoadBalancerName := "";
     Rules := [];
     Elbv2 := elbv2;
     EnvVars := [] |}.

(** The setters of [Run], in order; an exit of one ends the command. *)
Definition configure (elbv2 : ELBV2.ELBV2) (args0 : string) (flags : Flags)
  : Outcome ServiceCreateOperation :=
  let operation := newOperation elbv2 args0 flags in
  obind (Validate operation) (fun _ =>
  obind (SetPort inflatePort validProtocols_MatchString operation
           (flagServiceCreatePort flags)) (fun operation =>
  obind (SetLoadBalancer operation (flagServiceCreateLb flags)) (fun operation =>
  obind (SetRules operation (flagServiceCreateRules flags)) (fun operation =>
  Ret (SetEnvVars operation (flagServiceCreateEnvVars flags)))))).

(** [serviceCreateCmd.Run] for the one positional argument. *)
Definition Run (c : Collaborators) (elbv2 : ELBV2.ELBV2) (args0 : string)
    (flags : Flags) : Traced Event ServiceCreateOperation :=
  operation <- lift (configure elbv2 args0 flags) ;;
  createService c operation.
End Command.

Definition isCreateService (ev : Event) : bool :=
  match ev with ECS_CreateService _ => true | _ => false end.

(** The flags [--port http:8080 --lb my-alb --rule path=/api/*]. *)
Definition sampleFlags (rules : list string) : Flags :=
  {| flagServiceCreateCpu := "256";
     flagServiceCreateEnvVars := [];
     flagServiceCreateImage := "";
     flagServiceCreateLb := "my-alb";
     flagServiceCreateMemory := "512";
     flagServiceCreatePort := "http:8080";
     flagServiceCreateRules := rules |}.

End Command.

(* ================================================================== *)
(** * The running time of a task ([ecs/task.go], [RunningFor]) *)

(** Go's [time] as [RunningFor] uses it.  A time is its count of
    nanoseconds since the zero time, as in [aws.TimeValue]; a
    [Duration] is an int64 of nanoseconds. *)
Module GoTime.
Local Open Scope Z_scope.

Definition Second : Z := 1000000000.
Definition minDuration : Z := - 2 ^ 63.
Definition maxDuration : Z := 2 ^ 63 - 1.

(** [Time.Add], exact on the counts. *)
Definition Add (t d : Z) : Z := t + d.

(** [Time.Sub] for readings of the wall clock: the difference computed
    in int64, kept when adding it back to [u] gives [t], and replaced by
    the nearest bound otherwise. *)
Definition Sub (t u : Z) : Z :=
  let d := ECS.wrap64 (t - u) in
  if Add u d =? t then d
  else if t <? u then minDuration
  else maxDuration.

(** [Duration.Truncate]; Go's [%] takes the sign of the dividend. *)
Definition Truncate (d m : Z) : Z :=
  if m <=? 0 then d else d - Z.rem d m.

End GoTime.

Module Uptime.

(** [RunningFor], given the reading [now] of [time.Now()]. *)
Definition RunningFor (now : Z) (t : ECS.Task) : Z :=
  GoTime.Truncate (GoTime.Sub now (ECS.CreatedAt t)) GoTime.Second.

(** A task created at a given time. *)
Definition createdAt (created : Z) : ECS.Task :=
  {| ECS.Cpu := "256"; ECS.CreatedAt := created; ECS.DeploymentId := "3";
     ECS.DesiredStatus := "RUNNING"; ECS.EniId := ""; ECS.EnvVars := [];
     ECS.Image := "web:1"; ECS.LastStatus := "RUNNING"; ECS.Memory := "512";
     ECS.SecurityGroupIds := []; ECS.StartedBy := ""; ECS.SubnetId := "";
     ECS.TaskId := "t1"; ECS.TaskRole := "" |}.

End Uptime.


(* ================================================================== *)
(** * The answers of the collaborators in one deployment *)

Module Plan.
Import GoStrings cmd.

(** What the collaborators answer to the calls [createService] makes
    before it registers the task definition: whether the repository
    exists and its reference, the subnets, the role, the log group, the
    credentials, whether the directory is a git repository and the tag,
    the network and the target group. *)
Record Answers := {
  created : bool;
  repositoryUri : string;
  subnetIds : list string;
  ecsTaskExecutionRoleArn : string;
  logGroupName : string;
  username : string;
  password : string;
  inGitRepo : bool;
  tag : string;
  vpcId : string;
  targetGroupArn : string
}.

(** Lines 182 to 191: the calls made in every run. *)
Definition repositoryAnswers (c : Collaborators) (operation : ServiceCreateOperation)
    (a : Answers) : Prop :=
  ECR.IsRepositoryCreated (ecr c) (ServiceName operation) = Ret (created a) /\
  (if created a then ECR.GetRepositoryUri (ecr c) (ServiceName operation)
   else ECR.CreateRepository (ecr c) (ServiceName operation))
    = Ret (repositoryUri a) /\
  ec2_GetDefaultVpcSubnetIds c = Ret (subnetIds a) /\
  iam_CreateEcsTaskExecutionRole c = Ret (ecsTaskExecutionRoleArn a) /\
  cwl_CreateLogGroup c (logGroupFormat c) (ServiceName operation)
    = Ret (logGroupName a).

(** Lines 196 to 206: the calls of the image build. *)
Definition buildAnswers (c : Collaborators) (a : Answers) : Prop :=
  ECR.GetUsernameAndPassword (ecr c) = Ret (username a, password a) /\
  git_IsCwdGitRepo c = Ret (inGitRepo a) /\
  (if inGitRepo a then git_GetShortSha c else docker_GenerateTag c) = Ret (tag a) /\
  repository_Login c (repositoryUri a) (username a) (password a) = Ret tt /\
  repository_Build c (repositoryUri a) (tag a) = Ret tt /\
  repository_Push c (repositoryUri a) (tag a) = Ret tt.

(** Lines 212 to 228: the calls of the load balancer wiring. *)
Definition wiringAnswers (c : Collaborators) (operation : ServiceCreateOperation)
    (a : Answers) : Prop :=
  ec2_GetDefaultVpcId c = Ret (vpcId a) /\
  ELBV2.CreateTargetGroup (Elbv2 operation) (targetGroupInput operation (vpcId a))
    = Ret (targetGroupArn a) /\
  Forall (fun rule =>
            ELBV2.AddRule (Elbv2 operation) (LoadBalancerArn operation)
              (targetGroupArn a) rule = Ret tt) (Rules operation) /\
  (Rules operation = [] ->
   ELBV2.ModifyLoadBalancerDefaultAction (Elbv2 operation)
     (LoadBalancerArn operation) (targetGroupArn a) = Ret tt).

(** The collaborators answer every call the run makes before the
    registration of the task definition: the image build is asked only
    without an image, the wiring only with a load balancer. *)
Definition answers (c : Collaborators) (operation : ServiceCreateOperation)
    (a : Answers) : Prop :=
  repositoryAnswers c operation a /\
  (Image operation = "" -> buildAnswers c a) /\
  (LoadBalancerArn operation <> "" -> wiringAnswers c operation a).

(** The answers of [Deployments.collaborators] to a deployment of
    [web] behind [my-alb]. *)
Definition sample : Answers :=
  {| created := false;
     repositoryUri := "registry.example/web";
     subnetIds := ["subnet-1"; "subnet-2"];
     ecsTaskExecutionRoleArn := "arn:role/ecsTaskExecutionRole";
     logGroupName := "/fargate/service/web";
     username := "AWS";
     password := "secret";
     inGitRepo := true;
     tag := "abc1234";
     vpcId := "vpc-1";
     targetGroupArn := "arn:tg/my-alb-web" |}.

End Plan.


(* ================================================================== *)
(** * Properties *)
(* ================================================================== *)

(** ** Strings *)

Section StringFacts.
Import GoStrings.

Lemma HasPrefix_empty s : HasPrefix s "" = true.
Proof. by destruct s. Qed.

Lemma append_nil_l (s : string) : "" +:+ s = s.
Proof. reflexivity. Qed.

Lemma append_cons c (a s : string) : String c a +:+ s = String c (a +:+ s).
Proof. reflexivity. Qed.

Lemma HasPrefix_app p s : HasPrefix (p +:+ s) p = true.
Proof.
  induction p as [|c p IH]; [apply HasPrefix_empty|].
  rewrite append_cons. cbn [HasPrefix]. by rewrite Ascii.eqb_refl.
Qed.

Lemma Contains_HasPrefix s w : HasPrefix s w = true -> Contains s w = true.
Proof. intros Hw. destruct s; cbn [Contains]; by rewrite Hw. Qed.

Lemma Contains_app a w b : Contains (a +:+ w +:+ b) w = true.
Proof.
  induction a as [|c a IH].
  - rewrite append_nil_l. apply Contains_HasPrefix, HasPrefix_app.
  - rewrite append_cons. cbn [Contains]. rewrite IH. apply orb_true_r.
Qed.

Lemma append_assoc (a b c : string) : (a +:+ b) +:+ c = a +:+ b +:+ c.
Proof. induction a; rewrite ?append_nil_l, ?append_cons; congruence. Qed.

Lemma append_empty_r (a : string) : a +:+ "" = a.
Proof. induction a; rewrite ?append_nil_l, ?append_cons; congruence. Qed.

(** Cutting at a one-byte separator. *)
Lemma cutAt_byte_cons c d r :
  cutAt (String d r) (String c "") =
    if Ascii.eqb c d then Some (EmptyString, r)
    else match cutAt r (String c "") with
         | Some (a, b) => Some (String d a, b)
         | None => None
         end.
Proof.
  simpl. destruct (Ascii.eqb c d); [by rewrite HasPrefix_empty|done].
Qed.

Lemma Contains_byte_cons c d r :
  Contains (String d r) (String c "") = Ascii.eqb c d || Contains r (String c "").
Proof.
  simpl. destruct (Ascii.eqb c d); [by rewrite HasPrefix_empty|done].
Qed.

Lemma cutAt_byte_None c s :
  cutAt s (String c "") = None <-> Contains s (String c "") = false.
Proof.
  induction s as [|d r IH].
  - done.
  - rewrite cutAt_byte_cons, Contains_byte_cons.
    destruct (Ascii.eqb c d); simpl; [split; discriminate|].
    rewrite <- IH. destruct (cutAt r (String c "")) as [[a b]|]; split; congruence.
Qed.

Lemma cutAt_byte_Some c s a b :
  cutAt s (String c "") = Some (a, b) ->
  s = a +:+ String c b /\ Contains a (String c "") = false.
Proof.
  revert a b. induction s as [|d r IH]; intros a b; [discriminate|].
  rewrite cutAt_byte_cons.
  destruct (Ascii.eqb c d) eqn:E.
  - intros [= <- <-]. apply Ascii.eqb_eq in E as ->. done.
  - destruct (cutAt r (String c "")) as [[a' b']|]; [|discriminate].
    intros [= <- <-]. destruct (IH a' b' eq_refl) as [-> Ha].
    split; [done|]. by rewrite Contains_byte_cons, E, Ha.
Qed.

Lemma cutAt_byte_app c a b :
  Contains a (String c "") = false ->
  cutAt (a +:+ String c b) (String c "") = Some (a, b).
Proof.
  induction a as [|d r IH]; intros Ha.
  - by rewrite append_nil_l, cutAt_byte_cons, Ascii.eqb_refl.
  - rewrite Contains_byte_cons in Ha. apply orb_false_iff in Ha as [E Hr].
    by rewrite append_cons, cutAt_byte_cons, E, IH.
Qed.

Lemma SplitN_2 s sep :
  SplitN s sep 2 =
    match cutAt s sep with
    | None => [s]
    | Some (a, b) => [a; b]
    end.
Proof.
  unfold SplitN. simpl. by destruct (cutAt s sep) as [[a b]|].
Qed.

Lemma lowerASCII_upperASCII s :
  lowerASCII (upperASCII s) = lowerASCII s.
Proof.
  induction s as [|c r IH]; simpl; [done|]. f_equal; [|done].
  clear. destruct c as [[] [] [] [] [] [] [] []]; reflexivity.
Qed.

End StringFacts.

(** ** SetRules *)

Section RuleFacts.
Import GoStrings cmd Spec.
Context `{R : GoRuntime}.

Lemma SetRules_step_separated rule rest rules msgs :
  hasSeparator rule = true ->
  SetRules_loop (rule :: rest) rules msgs =
    SetRules_loop rest (rules ++ [parseRule rule]) (msgs ++ ruleViolations rule).
Proof.
  unfold hasSeparator, parseRule, ruleViolations, ruleType, ruleValue.
  intros Hsep. cbn [SetRules_loop]. rewrite SplitN_2.
  destruct (cutAt rule "=") as [[type0 value]|] eqn:Hcut.
  - cbn. destruct (Regexp.validRuleTypes_MatchString type0); cbn;
      by rewrite ?app_nil_r.
  - apply cutAt_byte_None in Hcut. congruence.
Qed.

Lemma SetRules_step_unseparated rule rest rules msgs :
  hasSeparator rule = false ->
  SetRules_loop (rule :: rest) rules msgs = Panic "index out of range".
Proof.
  unfold hasSeparator. intros Hsep. apply cutAt_byte_None in Hsep.
  cbn [SetRules_loop]. rewrite SplitN_2, Hsep. reflexivity.
Qed.

Lemma SetRules_loop_separated inputRules rules msgs :
  Forall (fun rule => hasSeparator rule = true) inputRules ->
  SetRules_loop inputRules rules msgs =
    Ret (rules ++ map parseRule inputRules,
         msgs ++ flat_map ruleViolations inputRules).
Proof.
  intros Hall. revert rules msgs.
  induction Hall as [|rule rest Hsep _ IH]; intros rules msgs.
  - cbn. by rewrite !app_nil_r.
  - rewrite SetRules_step_separated, IH by done. cbn.
    by rewrite <- !app_assoc.
Qed.

Lemma SetRules_loop_unseparated inputRules rules msgs :
  Exists (fun rule => hasSeparator rule = false) inputRules ->
  SetRules_loop inputRules rules msgs = Panic "index out of range".
Proof.
  intros Hex. revert rules msgs.
  induction inputRules as [|rule rest IH]; intros rules msgs.
  - inversion Hex.
  - destruct (hasSeparator rule) eqn:Hsep.
    + rewrite SetRules_step_separated by done. apply IH.
      inversion Hex; subst; [congruence|done].
    + by apply SetRules_step_unseparated.
Qed.

(** With a separator in every entry, the violations of all entries
    are gathered and reported in one error. *)
Lemma SetRules_separated o inputRules :
  Forall (fun rule => hasSeparator rule = true) inputRules ->
  SetRules o inputRules =
    if (0 <? length (rulesViolations o inputRules))%nat then
      ErrorExit (fmt_Errorf0 (Join (rulesViolations o inputRules) ", "))
        "Invalid rule"
    else Ret (set_Rules o (map parseRule inputRules)).
Proof.
  intros Hall. unfold SetRules, rulesViolations, appendIf.
  rewrite SetRules_loop_separated by done. cbn [obind].
  by destruct ((0 <? length inputRules)%nat && String.eqb (LoadBalancerArn o) "").
Qed.

Lemma SetRules_unseparated o inputRules :
  Exists (fun rule => hasSeparator rule = false) inputRules ->
  SetRules o inputRules = Panic "index out of range".
Proof.
  intros Hex. unfold SetRules.
  by rewrite SetRules_loop_unseparated.
Qed.

Lemma lowerByte_inv (l c : ascii) :
  isLowerByte l = true -> lowerByte c = l -> c = l \/ c = upperByte l.
Proof.
  intros Hl <-. clear Hl.
  destruct c as [[] [] [] [] [] [] [] []]; vm_compute; auto.
Qed.

Lemma lowerASCII_4 (t : string) (a b c d : ascii) :
  lowerASCII t = String a (String b (String c (String d ""))) ->
  exists a' b' c' d',
    t = String a' (String b' (String c' (String d' ""))) /\
    lowerByte a' = a /\ lowerByte b' = b /\ lowerByte c' = c /\ lowerByte d' = d.
Proof.
  destruct t as [|a' [|b' [|c' [|d' [|e' t]]]]]; cbn; try discriminate.
  intros [= <- <- <- <-]. by exists a', b', c', d'.
Qed.

(** A type that is host or path in some letter case is ASCII text, is
    matched by the pattern, and is HOST or PATH in upper case. *)
Lemma isHostOrPath_facts t :
  isHostOrPath t = true ->
  isASCII t = true /\ Regexp.validRuleTypes_MatchString t = true /\
  (upperASCII t = "HOST" \/ upperASCII t = "PATH").
Proof.
  unfold isHostOrPath. intros Ht. apply orb_true_iff in Ht.
  destruct Ht as [Ht|Ht]; apply String.eqb_eq, lowerASCII_4 in Ht;
    destruct Ht as (a & b & c & d & -> & Ha & Hb & Hc & Hd);
    apply lowerByte_inv in Ha as [-> | ->]; try reflexivity;
    apply lowerByte_inv in Hb as [-> | ->]; try reflexivity;
    apply lowerByte_inv in Hc as [-> | ->]; try reflexivity;
    apply lowerByte_inv in Hd as [-> | ->]; try reflexivity;
    vm_compute; auto.
Qed.

End RuleFacts.

Section RuleClaims.
Import GoStrings cmd Spec.

(** C3, as amended.  [SetRules] sets the rules when the list is empty
    or a load balancer is configured and every entry has a separator
    and a type, the text before its first separator, that is host or
    path in some letter case: the value is all that follows the first
    separator and the type is stored in upper case, HOST or PATH.
    [SetRules] does not set the rules when a non-empty list comes
    without a load balancer, when an entry has no separator, or when
    the rule-type pattern does not match an entry's type.  The entry
    [host=api.example.com] yields the rule HOST with the value
    [api.example.com]. *)
Theorem SetRules_accepts_and_rejects (R : GoRuntime)
    (o : ServiceCreateOperation) (inputRules : list string) :
  ((inputRules = [] \/ LoadBalancerArn o <> "") ->
   Forall (fun rule => hasSeparator rule = true /\
                       isHostOrPath (ruleType rule) = true) inputRules ->
   SetRules o inputRules =
     Ret (set_Rules o
            (map (fun rule => {| ELBV2.Type_ := upperASCII (ruleType rule);
                                 ELBV2.Value := ruleValue rule |}) inputRules))
   /\ Forall (fun rule => upperASCII (ruleType rule) = "HOST" \/
                          upperASCII (ruleType rule) = "PATH") inputRules)
  /\ ((inputRules <> [] /\ LoadBalancerArn o = "") \/
      Exists (fun rule => hasSeparator rule = false \/
                Regexp.validRuleTypes_MatchString (ruleType rule) = false)
             inputRules ->
      returns (SetRules o inputRules) = false)
  /\ (LoadBalancerArn o <> "" ->
      SetRules o ["host=api.example.com"] =
        Ret (set_Rules o [ {| ELBV2.Type_ := "HOST";
                              ELBV2.Value := "api.example.com" |} ])).
Proof.
  assert (Hacc : forall rules,
    (rules = [] \/ LoadBalancerArn o <> "") ->
    Forall (fun rule => hasSeparator rule = true /\
                        isHostOrPath (ruleType rule) = true) rules ->
    SetRules o rules =
      Ret (set_Rules o
             (map (fun rule => {| ELBV2.Type_ := upperASCII (ruleType rule);
                                  ELBV2.Value := ruleValue rule |}) rules))).
  { intros rules Hlb Hall.
    rewrite SetRules_separated by (eapply Forall_impl; [exact Hall|]; by intros ? []).
    assert (Hnone : rulesViolations o rules = []).
    { unfold rulesViolations.
      assert (Hlbmsg : (0 <? length rules)%nat && String.eqb (LoadBalancerArn o) ""
                       = false).
      { destruct Hlb as [-> | Hlb]; [done|].
        apply andb_false_iff. right. by apply String.eqb_neq. }
      rewrite Hlbmsg. cbn [app]. clear Hlb Hlbmsg.
      induction Hall as [|rule rest [_ Hty] _ IH]; [done|].
      cbn [flat_map]. rewrite IH. unfold ruleViolations.
      by destruct (isHostOrPath_facts _ Hty) as (_ & -> & _). }
    rewrite Hnone. cbn. do 2 f_equal.
    apply map_ext_in. intros rule Hin. unfold parseRule. f_equal.
    rewrite Forall_forall in Hall. apply list_elem_of_In in Hin.
    destruct (Hall rule Hin) as [_ Hty].
    apply strings_ToUpper_ascii. by destruct (isHostOrPath_facts _ Hty) as (-> & _). }
  split; [|split].
  - intros Hlb Hall. split; [by apply Hacc|].
    eapply Forall_impl; [exact Hall|]. intros rule [_ Hty].
    by destruct (isHostOrPath_facts _ Hty) as (_ & _ & ?).
  - intros Hrej.
    destruct (decide (Exists (fun rule => hasSeparator rule = false) inputRules))
      as [Hun|Hsep].
    { by rewrite SetRules_unseparated. }
    assert (Hall : Forall (fun rule => hasSeparator rule = true) inputRules).
    { apply Forall_forall. intros rule Hin.
      destruct (hasSeparator rule) eqn:E; [done|].
      exfalso. apply Hsep, Exists_exists. eauto. }
    rewrite SetRules_separated by done.
    assert (Hsome : (0 < length (rulesViolations o inputRules))%nat).
    { unfold rulesViolations. rewrite length_app.
      destruct Hrej as [[Hne ->] | Hex].
      - destruct inputRules; [done|]. cbn. lia.
      - apply Exists_exists in Hex as (rule & Hin & Hbad).
        rewrite Forall_forall in Hall. specialize (Hall rule Hin).
        destruct Hbad as [Hbad|Hbad]; [congruence|].
        apply list_elem_of_split in Hin as (l1 & l2 & ->).
        rewrite flat_map_app. cbn [flat_map].
        unfold ruleViolations at 2. rewrite Hbad.
        rewrite !length_app. cbn [length app]. lia. }
    apply Nat.ltb_lt in Hsome. by rewrite Hsome.
  - intros Hlb. rewrite (Hacc ["host=api.example.com"]); [done|by right|].
    repeat constructor.
Qed.

(** The amended statement at the entries [host=api.example.com] and
    [PATH=/api/*] behind a load balancer, and at one entry without a
    load balancer. *)
Lemma SetRules_accepts_and_rejects_witness :
  SetRules Examples.behindAlb ["host=api.example.com"; "PATH=/api/*"] =
    Ret (set_Rules Examples.behindAlb
           [ {| ELBV2.Type_ := "HOST"; ELBV2.Value := "api.example.com" |};
             {| ELBV2.Type_ := "PATH"; ELBV2.Value := "/api/*" |} ])
  /\ returns (SetRules (Examples.onHttp "application") ["host=api.example.com"])
     = false.
Proof.
  split.
  - apply (proj1 (SetRules_accepts_and_rejects asciiRuntime Examples.behindAlb
                    ["host=api.example.com"; "PATH=/api/*"])).
    + right. discriminate.
    + repeat constructor.
  - apply (proj1 (proj2 (SetRules_accepts_and_rejects asciiRuntime
                           (Examples.onHttp "application")
                           ["host=api.example.com"]))).
    left. split; [discriminate | reflexivity].
Defined.

(** C3 as stated fails: the entry [host=a=b] has two separators, so the
    specification's condition rejects it, and [SetRules] accepts it with
    the value [a=b]. *)
Lemma SetRules_accepts_second_separator :
  rejectsAsSpecified Examples.behindAlb ["host=a=b"] = true /\
  SetRules Examples.behindAlb ["host=a=b"] =
    Ret (set_Rules Examples.behindAlb
           [ {| ELBV2.Type_ := "HOST"; ELBV2.Value := "a=b" |} ]).
Proof. split; reflexivity. Qed.

(** C4 fails on the code: for the entry [host], which has no
    separator, the violation is appended and then [splitInputRule[1]]
    is out of range, so the call panics and reports nothing. *)
Theorem SetRules_entry_without_separator_panics (R : GoRuntime)
    (o : ServiceCreateOperation) :
  SetRules o ["host"] = Panic "index out of range".
Proof. reflexivity. Qed.

End RuleClaims.

(** ** SetLoadBalancer *)

Section LoadBalancerClaims.
Import GoStrings cmd Spec.

Lemma SetLoadBalancer_unfold (o : ServiceCreateOperation) lb loadBalancer :
  ELBV2.DescribeLoadBalancer (Elbv2 o) lb = Ret loadBalancer ->
  SetLoadBalancer o lb =
    if String.eqb (ELBV2.LoadBalancer_Type loadBalancer) "network"
       && negb (String.eqb (Port.Protocol (Port o)) "TCP")
    then ErrorExit (errNetworkOnlyTCP lb) "Invalid load balancer and protocol"
    else if String.eqb (ELBV2.LoadBalancer_Type loadBalancer) "application"
            && negb (String.eqb (Port.Protocol (Port o)) "HTTP"
                     || String.eqb (Port.Protocol (Port o)) "HTTPS")
    then ErrorExit (errApplicationOnlyHTTP lb) "Invalid load balancer and protocol"
    else Ret (set_LoadBalancer o lb (ELBV2.Arn loadBalancer)).
Proof.
  intros Hdescribe. unfold SetLoadBalancer. rewrite Hdescribe. cbn [obind].
  destruct (String.eqb (ELBV2.LoadBalancer_Type loadBalancer) "network");
    destruct (String.eqb (Port.Protocol (Port o)) "TCP");
    destruct (String.eqb (ELBV2.LoadBalancer_Type loadBalancer) "application");
    destruct (String.eqb (Port.Protocol (Port o)) "HTTP");
    destruct (String.eqb (Port.Protocol (Port o)) "HTTPS"); reflexivity.
Qed.

Lemma errNetworkOnlyTCP_cites lb :
  cites (errNetworkOnlyTCP lb) lb = true /\
  cites (errNetworkOnlyTCP lb) "TCP" = true.
Proof.
  unfold cites, errNetworkOnlyTCP. split; [apply Contains_app|].
  change (" only supports TCP") with (" only supports " +:+ "TCP" +:+ "").
  rewrite <- (append_assoc lb), <- (append_assoc "network load balancer ").
  apply Contains_app.
Qed.

Lemma errApplicationOnlyHTTP_cites lb :
  cites (errApplicationOnlyHTTP lb) lb = true /\
  cites (errApplicationOnlyHTTP lb) "HTTP or HTTPS" = true.
Proof.
  unfold cites, errApplicationOnlyHTTP. split; [apply Contains_app|].
  change (" only supports HTTP or HTTPS")
    with (" only supports " +:+ "HTTP or HTTPS" +:+ "").
  rewrite <- (append_assoc lb), <- (append_assoc "application load balancer ").
  apply Contains_app.
Qed.

(** C6, as amended.  For the load balancer the describe call returns,
    [SetLoadBalancer] fails exactly when the balancer's kind is network
    and the configured protocol is not TCP, or its kind is application
    and the configured protocol is neither HTTP nor HTTPS; the failure
    message names the load balancer and the protocols its kind
    supports.  Otherwise the balancer's name and identity are recorded
    on the operation. *)
Theorem SetLoadBalancer_protocol_check (o : ServiceCreateOperation)
    (lb : string) (loadBalancer : ELBV2.LoadBalancer) :
  ELBV2.DescribeLoadBalancer (Elbv2 o) lb = Ret loadBalancer ->
  let kind := ELBV2.LoadBalancer_Type loadBalancer in
  let protocol := Port.Protocol (Port o) in
  (returns (SetLoadBalancer o lb) = false <->
     (kind = "network" /\ protocol <> "TCP") \/
     (kind = "application" /\ protocol <> "HTTP" /\ protocol <> "HTTPS"))
  /\ (kind = "network" -> protocol <> "TCP" ->
      SetLoadBalancer o lb =
        ErrorExit (errNetworkOnlyTCP lb) "Invalid load balancer and protocol")
  /\ (kind = "application" -> protocol <> "HTTP" -> protocol <> "HTTPS" ->
      SetLoadBalancer o lb =
        ErrorExit (errApplicationOnlyHTTP lb) "Invalid load balancer and protocol")
  /\ (returns (SetLoadBalancer o lb) = true ->
      SetLoadBalancer o lb = Ret (set_LoadBalancer o lb (ELBV2.Arn loadBalancer)))
  /\ (cites (errNetworkOnlyTCP lb) lb = true
      /\ cites (errNetworkOnlyTCP lb) "TCP" = true)
  /\ (cites (errApplicationOnlyHTTP lb) lb = true
      /\ cites (errApplicationOnlyHTTP lb) "HTTP or HTTPS" = true).
Proof.
  intros Hdescribe kind protocol.
  rewrite (SetLoadBalancer_unfold o lb loadBalancer Hdescribe).
  fold kind protocol.
  assert (Hkinds : kind = "network" -> kind = "application" -> False)
    by (intros -> [=]).
  assert (Hprotocols : protocol = "TCP" ->
                       protocol = "HTTP" \/ protocol = "HTTPS" -> False)
    by (intros -> [[=] | [=]]).
  generalize (String.eqb_spec kind "network"), (String.eqb_spec protocol "TCP"),
    (String.eqb_spec kind "application"), (String.eqb_spec protocol "HTTP"),
    (String.eqb_spec protocol "HTTPS").
  clearbody kind protocol. revert Hkinds Hprotocols.
  generalize kind, protocol. clear. intros kind protocol Hkinds Hprotocols.
  generalize (errNetworkOnlyTCP_cites lb), (errApplicationOnlyHTTP_cites lb).
  generalize (errNetworkOnlyTCP lb), (errApplicationOnlyHTTP lb).
  intros e1 e2 He1 He2.
  intros [] [] [] [] []; cbn; split_and!; try done; try tauto;
    try (intros; exfalso; tauto);
    try (split; [discriminate | intros; exfalso; tauto]).
Qed.

(** The amended statement at a network balancer with HTTP, which is
    refused, and at an application balancer with HTTP, which is
    recorded. *)
Lemma SetLoadBalancer_protocol_check_witness :
  SetLoadBalancer (Examples.onHttp "network") "my-nlb" =
    ErrorExit "network load balancer my-nlb only supports TCP"
      "Invalid load balancer and protocol"
  /\ SetLoadBalancer (Examples.onHttp "application") "my-alb" =
     Ret Examples.behindAlb.
Proof.
  split.
  - apply (SetLoadBalancer_protocol_check (Examples.onHttp "network") "my-nlb"
             {| ELBV2.LoadBalancer_Type := "network";
                ELBV2.Arn := "arn:lb/my-nlb" |} eq_refl);
      [reflexivity | discriminate].
  - apply (SetLoadBalancer_protocol_check (Examples.onHttp "application") "my-alb"
             {| ELBV2.LoadBalancer_Type := "application";
                ELBV2.Arn := "arn:lb/my-alb" |} eq_refl).
    reflexivity.
Defined.

(** C6 as stated fails: a network balancer with the protocol HTTP is
    refused, and neither the error nor its heading mentions HTTP, the
    configured protocol. *)
Lemma SetLoadBalancer_message_omits_protocol :
  Port.Protocol (Port (Examples.onHttp "network")) = "HTTP" /\
  SetLoadBalancer (Examples.onHttp "network") "my-nlb" =
    ErrorExit "network load balancer my-nlb only supports TCP"
      "Invalid load balancer and protocol" /\
  cites "network load balancer my-nlb only supports TCP" "HTTP" = false /\
  cites "Invalid load balancer and protocol" "HTTP" = false.
Proof. repeat split; reflexivity. Qed.

End LoadBalancerClaims.

(** ** SetPort *)

Section PortClaims.
Import GoStrings cmd Spec.
Context `{R : GoRuntime}.

(** Whatever [inflatePort] and the pattern are: the port is accepted
    when the pattern matches its protocol and its number is in range,
    and otherwise every violation is in the one error. *)
Lemma SetPort_aggregates (inflate : string -> Port.t) (valid : string -> bool)
    (o : ServiceCreateOperation) (inputPort : string) :
  let port := inflate inputPort in
  SetPort inflate valid o inputPort =
    if valid (Port.Protocol port) && inPortRange (Port.Port port) then
      Ret (set_Port o port)
    else
      ErrorExit
        (fmt_Errorf0
           (Join (portViolations (valid (Port.Protocol port))
                    (inPortRange (Port.Port port))
                    (Port.Protocol port) (Port.Port port)) ", "))
        "Invalid command line flags".
Proof.
  intros port. unfold SetPort, SetPort_msgs, appendIf, portViolations, inPortRange.
  fold port.
  assert (Hrange : (Port.Port port <? 1)%Z || (Port.Port port >? 65535)%Z
                   = negb ((1 <=? Port.Port port)%Z && (Port.Port port <=? 65535)%Z))
    by lia.
  rewrite Hrange.
  destruct (valid (Port.Protocol port));
    destruct ((1 <=? Port.Port port)%Z && (Port.Port port <=? 65535)%Z);
    reflexivity.
Qed.

Lemma Atoi_Itoa (n : Z) : Atoi (Itoa n) = n.
Proof.
  unfold Atoi, Itoa.
  destruct n as [|p|p]; cbn [Z.to_int].
  - reflexivity.
  - rewrite NilZero.isi.
    + apply (DecimalZ.of_to (Z.pos p)).
    + intros [= Hp]. by apply DecimalPos.Unsigned.to_uint_nonnil in Hp.
    + discriminate.
  - rewrite NilZero.isi.
    + apply (DecimalZ.of_to (Z.neg p)).
    + discriminate.
    + intros [= Hp]. by apply DecimalPos.Unsigned.to_uint_nonnil in Hp.
Qed.

Lemma inflatePort_protocol_port (protocol : string) (port : Z) :
  Contains protocol ":" = false ->
  inflatePort (protocol +:+ ":" +:+ Itoa port) =
    {| Port.Port := port; Port.Protocol := strings_ToUpper protocol |}.
Proof.
  intros Hcolon. unfold inflatePort.
  change (protocol +:+ ":" +:+ Itoa port)
    with (protocol +:+ String ":" (Itoa port)).
  rewrite cutAt_byte_app by done. by rewrite Atoi_Itoa.
Qed.

Lemma validProtocols_upperASCII (protocol : string) :
  validProtocols_MatchString (upperASCII protocol) = isProtocolName protocol.
Proof.
  unfold validProtocols_MatchString, isProtocolName.
  by rewrite lowerASCII_upperASCII.
Qed.

End PortClaims.

Section PortClaim.
Import GoStrings cmd Spec.

(** C5.  For the input [PROTOCOL:PORT], [SetPort] sets the port exactly
    when the protocol is tcp, http or https in some letter case and the
    port is between 1 and 65535.  Otherwise it leaves with one error
    that lists every violated rule: both when the protocol is invalid
    and the port is out of range. *)
Theorem SetPort_accepts_exactly (R : GoRuntime) (o : ServiceCreateOperation)
    (protocol : string) (port : Z) :
  isASCII protocol = true ->
  Contains protocol ":" = false ->
  let run := SetPort inflatePort validProtocols_MatchString o
               (protocol +:+ ":" +:+ Itoa port) in
  (returns run = true <->
     isProtocolName protocol = true /\ (1 <= port <= 65535)%Z)
  /\ (returns run = true ->
      run = Ret (set_Port o {| Port.Port := port;
                               Port.Protocol := upperASCII protocol |}))
  /\ (returns run = false ->
      run = ErrorExit
              (fmt_Errorf0
                 (Join (portViolations (isProtocolName protocol) (inPortRange port)
                          (upperASCII protocol) port) ", "))
              "Invalid command line flags")
  /\ (isProtocolName protocol = false -> ~ (1 <= port <= 65535)%Z ->
      run = ErrorExit
              (fmt_Errorf0
                 (msgInvalidProtocol (upperASCII protocol) +:+ ", " +:+
                  msgInvalidPort port))
              "Invalid command line flags").
Proof.
  intros Hascii Hcolon run. subst run.
  rewrite SetPort_aggregates, inflatePort_protocol_port by done.
  cbn [Port.Port Port.Protocol].
  rewrite (strings_ToUpper_ascii _ Hascii), validProtocols_upperASCII.
  assert (Hrange : inPortRange port = true <-> (1 <= port <= 65535)%Z)
    by (unfold inPortRange; lia).
  destruct (isProtocolName protocol); destruct (inPortRange port); cbn;
    split_and!; try done; try (intros; exfalso; intuition congruence);
    intuition congruence.
Qed.

(** C5 at [http:8080], which is accepted, and at [ftp:70000], whose
    error lists both violations. *)
Lemma SetPort_accepts_exactly_witness :
  SetPort inflatePort validProtocols_MatchString (Examples.blank "application")
    "http:8080" = Ret (Examples.onHttp "application")
  /\ SetPort inflatePort validProtocols_MatchString (Examples.blank "application")
       "ftp:70000" =
     ErrorExit
       "Invalid protocol FTP [specify TCP, HTTP, or HTTPS], Invalid port 70000 [specify within 1 - 65535]"
       "Invalid command line flags".
Proof.
  split.
  - apply (SetPort_accepts_exactly asciiRuntime (Examples.blank "application")
             "http" 8080 eq_refl eq_refl).
    reflexivity.
  - apply (SetPort_accepts_exactly asciiRuntime (Examples.blank "application")
             "ftp" 70000 eq_refl eq_refl); [reflexivity | lia].
Defined.

End PortClaim.

(** ** Traces *)

Section TraceFacts.
Context {E : Type}.

Lemma tbind_Ret_inv {A B} (m : Traced E A) (f : A -> Traced E B) tr b :
  tbind m f = (tr, Ret b) ->
  exists tr1 a tr2, m = (tr1, Ret a) /\ f a = (tr2, Ret b) /\ tr = tr1 ++ tr2.
Proof.
  destruct m as [tr1 [a|e msg|r]]; cbn; [|discriminate..].
  destruct (f a) as [tr2 o] eqn:Hf. intros [= <- ->]. by exists tr1, a, tr2.
Qed.

Lemma call_Ret_inv {A} (ev : E) (answer : Outcome A) tr a :
  call ev answer = (tr, Ret a) -> answer = Ret a /\ tr = [ev].
Proof. unfold call. by intros [= <- ->]. Qed.

Lemma tret_inv {A} (a b : A) (tr : list E) :
  tret a = (tr, Ret b) -> a = b /\ tr = [].
Proof. unfold tret. by intros [= <- <-]. Qed.

(** A property of every event of a sequence holds of the sequence. *)
Lemma Forall_tbind {A B} (P : E -> Prop) (m : Traced E A) (f : A -> Traced E B) :
  Forall P (fst m) -> (forall a, Forall P (fst (f a))) ->
  Forall P (fst (tbind m f)).
Proof.
  intros Hm Hf. destruct m as [tr1 [a|e msg|r]]; cbn in *; [|done..].
  specialize (Hf a). destruct (f a) as [tr2 o]. cbn in *.
  by apply Forall_app.
Qed.

Lemma Forall_call {A} (P : E -> Prop) (ev : E) (answer : Outcome A) :
  P ev -> Forall P (fst (call ev answer)).
Proof. intros Hev. cbn. by constructor. Qed.

Lemma Forall_tret {A} (P : E -> Prop) (a : A) : Forall P (fst (tret (E:=E) a)).
Proof. constructor. Qed.

End TraceFacts.

(** ** createService *)

Section DeploymentFacts.
Import GoStrings cmd.

Lemma addRules_all (P : Event -> Prop) operation targetGroupArn rules :
  (forall rule, P (ELBV2_AddRule (LoadBalancerArn operation) targetGroupArn rule)) ->
  Forall P (fst (addRules operation targetGroupArn rules)).
Proof.
  intros HP. induction rules as [|rule rest IH]; cbn [addRules].
  - apply Forall_tret.
  - apply Forall_tbind; [by apply Forall_call|done].
Qed.

Lemma addRules_Ret operation targetGroupArn rules tr u :
  addRules operation targetGroupArn rules = (tr, Ret u) ->
  tr = map (ELBV2_AddRule (LoadBalancerArn operation) targetGroupArn) rules.
Proof.
  revert tr. induction rules as [|rule rest IH]; intros tr Hrun; cbn [addRules] in Hrun.
  - by apply tret_inv in Hrun as [_ ->].
  - apply tbind_Ret_inv in Hrun as (tr1 & a & tr2 & H1 & H2 & ->).
    apply call_Ret_inv in H1 as [_ ->]. by rewrite (IH _ H2).
Qed.

(** Without a load balancer nothing is wired. *)
Lemma wireLoadBalancer_unconfigured c operation :
  LoadBalancerArn operation = "" -> wireLoadBalancer c operation = tret "".
Proof. unfold wireLoadBalancer. by intros ->. Qed.

Lemma wireLoadBalancer_all (P : Event -> Prop) c operation :
  P EC2_GetDefaultVpcId ->
  (forall input, P (ELBV2_CreateTargetGroup input)) ->
  (Rules operation <> [] -> forall arn tg rule, P (ELBV2_AddRule arn tg rule)) ->
  (Rules operation = [] ->
   forall arn tg, P (ELBV2_ModifyLoadBalancerDefaultAction arn tg)) ->
  Forall P (fst (wireLoadBalancer c operation)).
Proof.
  intros Hvpc Hgroup Hrule Hdefault. unfold wireLoadBalancer.
  destruct (negb _); [|apply Forall_tret].
  apply Forall_tbind; [by apply Forall_call|intros vpcId].
  apply Forall_tbind; [by apply Forall_call|intros tg].
  apply Forall_tbind; [|intros; apply Forall_tret].
  destruct (Rules operation) as [|rule rest] eqn:Hrules.
  - cbn. constructor; [by apply Hdefault|constructor].
  - cbn [length Nat.ltb Nat.leb]. apply addRules_all. intros. by apply Hrule.
Qed.

(** A wiring that completes made exactly the calls of [wiringCalls]. *)
Lemma wireLoadBalancer_Ret c operation tr targetGroupArn :
  LoadBalancerArn operation <> "" ->
  wireLoadBalancer c operation = (tr, Ret targetGroupArn) ->
  exists vpcId,
    ec2_GetDefaultVpcId c = Ret vpcId /\
    ELBV2.CreateTargetGroup (Elbv2 operation) (targetGroupInput operation vpcId)
      = Ret targetGroupArn /\
    tr = EC2_GetDefaultVpcId :: wiringCalls operation vpcId targetGroupArn.
Proof.
  intros Harn Hrun. unfold wireLoadBalancer in Hrun.
  apply String.eqb_neq in Harn. rewrite Harn in Hrun. cbn [negb] in Hrun.
  apply tbind_Ret_inv in Hrun as (tr1 & vpcId & tr2 & H1 & Hrun & ->).
  apply call_Ret_inv in H1 as [Hvpc ->].
  apply tbind_Ret_inv in Hrun as (tr1 & tg & tr3 & H1 & Hrun & ->).
  apply call_Ret_inv in H1 as [Hgroup ->].
  apply tbind_Ret_inv in Hrun as (tr1 & u & tr4 & H1 & Hrun & ->).
  apply tret_inv in Hrun as [-> ->].
  exists vpcId. split; [done|]. split; [done|].
  unfold wiringCalls. cbn [app]. f_equal. f_equal. rewrite app_nil_r.
  destruct (Rules operation) as [|rule rest] eqn:Hrules.
  - cbn in H1. by apply call_Ret_inv in H1 as [_ ->].
  - cbn [length Nat.ltb Nat.leb] in H1. by apply addRules_Ret in H1.
Qed.

(** With an image given nothing is built. *)
Lemma resolveImage_given c operation repositoryUri :
  Image operation <> "" ->
  resolveImage c operation repositoryUri = tret (Image operation).
Proof.
  intros Himage. unfold resolveImage. apply String.eqb_neq in Himage.
  by rewrite Himage.
Qed.

Lemma resolveImage_all (P : Event -> Prop) c operation repositoryUri :
  (forall ev, isImageBuild ev = true -> P ev) ->
  Forall P (fst (resolveImage c operation repositoryUri)).
Proof.
  intros HP. unfold resolveImage.
  destruct (String.eqb _ _); [|apply Forall_tret].
  repeat first
    [ apply Forall_tret
    | apply Forall_call; apply HP; reflexivity
    | apply Forall_tbind; [|intros]
    | match goal with
      | |- Forall _ (fst (if ?b then _ else _)) => destruct b
      end ].
Qed.

(** A build that completes built and pushed one tag of the repository,
    and the image is that tag's reference. *)
Lemma resolveImage_Ret c operation repositoryUri tr image :
  Image operation = "" ->
  resolveImage c operation repositoryUri = (tr, Ret image) ->
  exists tag,
    List.filter isBuildOrPush tr =
      [Repository_Build repositoryUri tag; Repository_Push repositoryUri tag] /\
    image = repository_UriFor c repositoryUri tag.
Proof.
  intros Himage Hrun. unfold resolveImage in Hrun. rewrite Himage in Hrun.
  cbn [String.eqb] in Hrun.
  apply tbind_Ret_inv in Hrun as (tr1 & credentials & tr2 & H1 & Hrun & ->).
  apply call_Ret_inv in H1 as [_ ->].
  apply tbind_Ret_inv in Hrun as (tr1 & inGitRepo & tr3 & H1 & Hrun & ->).
  apply call_Ret_inv in H1 as [_ ->].
  apply tbind_Ret_inv in Hrun as (tr1 & tag & tr4 & H1 & Hrun & ->).
  assert (Htag : List.filter isBuildOrPush tr1 = []).
  { destruct inGitRepo; by apply call_Ret_inv in H1 as [_ ->]. }
  apply tbind_Ret_inv in Hrun as (tr5 & u1 & tr6 & H2 & Hrun & ->).
  apply call_Ret_inv in H2 as [_ ->].
  apply tbind_Ret_inv in Hrun as (tr5 & u2 & tr7 & H2 & Hrun & ->).
  apply call_Ret_inv in H2 as [_ ->].
  apply tbind_Ret_inv in Hrun as (tr5 & u3 & tr8 & H2 & Hrun & ->).
  apply call_Ret_inv in H2 as [_ ->].
  apply tret_inv in Hrun as [<- ->].
  exists tag. split; [|done].
  cbn. rewrite List.filter_app, Htag. reflexivity.
Qed.

Lemma acquireRepository_all (P : Event -> Prop) ecr serviceName :
  P (ECR_IsRepositoryCreated serviceName) ->
  P (ECR_GetRepositoryUri serviceName) ->
  P (ECR_CreateRepository serviceName) ->
  Forall P (fst (acquireRepository ecr serviceName)).
Proof.
  intros H1 H2 H3. unfold acquireRepository.
  apply Forall_tbind; [by apply Forall_call|intros []]; by apply Forall_call.
Qed.

Lemma acquireRepository_Ret ecr serviceName tr uri :
  acquireRepository ecr serviceName = (tr, Ret uri) ->
  List.filter isBuildOrPush tr = [] /\ List.filter isElbv2Call tr = [].
Proof.
  unfold acquireRepository. intros Hrun.
  apply tbind_Ret_inv in Hrun as (tr1 & created & tr2 & H1 & Hrun & ->).
  apply call_Ret_inv in H1 as [_ ->].
  destruct created; by apply call_Ret_inv in Hrun as [_ ->].
Qed.

Lemma filter_none {A} (p : A -> bool) (l : list A) :
  Forall (fun x => p x = false) l -> List.filter p l = [].
Proof. induction 1 as [|x l Hx _ IH]; cbn; [done|]. by rewrite Hx. Qed.

Lemma filter_all {A} (p : A -> bool) (l : list A) :
  Forall (fun x => p x = true) l -> List.filter p l = l.
Proof. induction 1 as [|x l Hx _ IH]; cbn; [done|]. by rewrite Hx, IH. Qed.

Lemma wiringCalls_elbv2 operation vpcId targetGroupArn :
  Forall (fun ev => isElbv2Call ev = true) (wiringCalls operation vpcId targetGroupArn)
  /\ Forall (fun ev => isBuildOrPush ev = false)
       (wiringCalls operation vpcId targetGroupArn).
Proof.
  unfold wiringCalls. split; (constructor; [done|]);
    (destruct (Rules operation) as [|rule rest]; [by repeat constructor|]);
    apply Forall_forall; intros ev Hin; apply list_elem_of_In, in_map_iff in Hin;
    by destruct Hin as (? & <- & _).
Qed.

(** Every event of a deployment has a property that the events of its
    two conditional parts have and the remaining calls have. *)
Lemma createService_all (P : Event -> Prop) c operation :
  (forall ev, isImageBuild ev = false -> isLoadBalancerWiring ev = false -> P ev) ->
  (forall uri, Forall P (fst (resolveImage c operation uri))) ->
  (forall image, Forall P (fst (wireLoadBalancer c (set_Image operation image)))) ->
  Forall P (fst (createService c operation)).
Proof.
  intros Hother Himage Hwire. unfold createService.
  apply Forall_tbind; [apply acquireRepository_all; by apply Hother|intros uri].
  apply Forall_tbind; [by apply Forall_call, Hother|intros subnetIds].
  apply Forall_tbind; [by apply Forall_call, Hother|intros role].
  apply Forall_tbind; [by apply Forall_call, Hother|intros logGroupName].
  apply Forall_tbind; [apply Himage|intros image].
  apply Forall_tbind; [apply Hwire|intros targetGroupArn].
  apply Forall_tbind; [by apply Forall_call, Hother|intros taskDefinitionArn].
  apply Forall_tbind; [by apply Forall_call, Hother|intros u].
  apply Forall_tret.
Qed.

(** The parts of a deployment that completes. *)
Lemma createService_Ret c operation trace operation' :
  createService c operation = (trace, Ret operation') ->
  exists uri image targetGroupArn tr0 tr2 tr3 taskDefinitionInput serviceInput,
    acquireRepository (ecr c) (ServiceName operation) = (tr0, Ret uri) /\
    resolveImage c operation uri = (tr2, Ret image) /\
    wireLoadBalancer c (set_Image operation image) = (tr3, Ret targetGroupArn) /\
    operation' = set_Image operation image /\
    trace = tr0
            ++ [EC2_GetDefaultVpcSubnetIds; IAM_CreateEcsTaskExecutionRole;
                CWL_CreateLogGroup (logGroupFormat c) (ServiceName operation)]
            ++ tr2 ++ tr3
            ++ [ECS_CreateTaskDefinition taskDefinitionInput;
                ECS_CreateService serviceInput].
Proof.
  unfold createService. intros Hrun.
  apply tbind_Ret_inv in Hrun as (tr0 & uri & ? & Hacq & Hrun & ->).
  apply tbind_Ret_inv in Hrun as (? & subnetIds & ? & H1 & Hrun & ->).
  apply call_Ret_inv in H1 as [_ ->].
  apply tbind_Ret_inv in Hrun as (? & role & ? & H1 & Hrun & ->).
  apply call_Ret_inv in H1 as [_ ->].
  apply tbind_Ret_inv in Hrun as (? & logGroupName & ? & H1 & Hrun & ->).
  apply call_Ret_inv in H1 as [_ ->].
  apply tbind_Ret_inv in Hrun as (tr2 & image & ? & Himage & Hrun & ->).
  apply tbind_Ret_inv in Hrun as (tr3 & targetGroupArn & ? & Hwire & Hrun & ->).
  apply tbind_Ret_inv in Hrun as (? & taskDefinitionArn & ? & H1 & Hrun & ->).
  apply call_Ret_inv in H1 as [_ ->].
  apply tbind_Ret_inv in Hrun as (? & u & ? & H1 & Hrun & ->).
  apply call_Ret_inv in H1 as [_ ->].
  apply tret_inv in Hrun as [Hop ->].
  exists uri, image, targetGroupArn, tr0, tr2, tr3.
  do 2 eexists.
  split; [exact Hacq|]. split; [exact Himage|]. split; [exact Hwire|].
  split; [by symmetry|].
  reflexivity.
Qed.

End DeploymentFacts.

Section PlanFacts.
Import GoStrings cmd.

Lemma tbind_Ret {E A B} (tr : list E) (a : A) (f : A -> Traced E B) :
  tbind (tr, Ret a) f = (tr ++ fst (f a), snd (f a)).
Proof. cbn. by destruct (f a). Qed.

Lemma call_answer {E A} (ev : E) (answer : Outcome A) (a : A) :
  answer = Ret a -> call ev answer = ([ev], Ret a).
Proof. by intros ->. Qed.

Lemma acquireRepository_answers c operation a :
  Plan.repositoryAnswers c operation a ->
  exists tr0,
    acquireRepository (ecr c) (ServiceName operation) = (tr0, Ret (Plan.repositoryUri a)).
Proof.
  intros (Hcreated & Huri & _). unfold acquireRepository.
  rewrite (call_answer _ _ _ Hcreated), tbind_Ret.
  destruct (Plan.created a); rewrite (call_answer _ _ _ Huri); by eexists.
Qed.

Lemma resolveImage_answers c operation a :
  Image operation = "" ->
  Plan.buildAnswers c a ->
  resolveImage c operation (Plan.repositoryUri a) =
    ([ECR_GetUsernameAndPassword; Git_IsCwdGitRepo;
      if Plan.inGitRepo a then Git_GetShortSha else Docker_GenerateTag;
      Repository_Login (Plan.repositoryUri a) (Plan.username a) (Plan.password a);
      Repository_Build (Plan.repositoryUri a) (Plan.tag a);
      Repository_Push (Plan.repositoryUri a) (Plan.tag a)],
     Ret (repository_UriFor c (Plan.repositoryUri a) (Plan.tag a))).
Proof.
  intros Himage (Hcredentials & Hgit & Htag & Hlogin & Hbuild & Hpush).
  unfold resolveImage. rewrite Himage. cbn [String.eqb].
  rewrite (call_answer _ _ _ Hcredentials), tbind_Ret.
  rewrite (call_answer _ _ _ Hgit), tbind_Ret.
  destruct (Plan.inGitRepo a); rewrite (call_answer _ _ _ Htag), tbind_Ret;
    cbn [fst snd]; rewrite (call_answer _ _ _ Hlogin), tbind_Ret;
    rewrite (call_answer _ _ _ Hbuild), tbind_Ret;
    rewrite (call_answer _ _ _ Hpush), tbind_Ret; reflexivity.
Qed.

Lemma addRules_answers operation targetGroupArn rules :
  Forall (fun rule =>
            ELBV2.AddRule (Elbv2 operation) (LoadBalancerArn operation)
              targetGroupArn rule = Ret tt) rules ->
  addRules operation targetGroupArn rules =
    (map (ELBV2_AddRule (LoadBalancerArn operation) targetGroupArn) rules, Ret tt).
Proof.
  induction 1 as [|rule rest Hrule _ IH]; cbn [addRules map]; [done|].
  by rewrite (call_answer _ _ _ Hrule), tbind_Ret, IH.
Qed.

Lemma wireLoadBalancer_answers c operation a image :
  LoadBalancerArn operation <> "" ->
  Plan.wiringAnswers c operation a ->
  wireLoadBalancer c (set_Image operation image) =
    (EC2_GetDefaultVpcId
     :: wiringCalls operation (Plan.vpcId a) (Plan.targetGroupArn a),
     Ret (Plan.targetGroupArn a)).
Proof.
  intros Harn (Hvpc & Hgroup & Hrules & Hdefault). unfold wireLoadBalancer.
  apply String.eqb_neq in Harn.
  change (LoadBalancerArn (set_Image operation image)) with (LoadBalancerArn operation).
  rewrite Harn. cbn [negb].
  rewrite (call_answer _ _ _ Hvpc), tbind_Ret.
  change (Elbv2 (set_Image operation image)) with (Elbv2 operation).
  change (Rules (set_Image operation image)) with (Rules operation).
  change {| ELBV2.Name := LoadBalancerName (set_Image operation image) +:+ "-"
                          +:+ ServiceName (set_Image operation image);
            ELBV2.Port := Port.Port (Port (set_Image operation image));
            ELBV2.Protocol := Port.Protocol (Port (set_Image operation image));
            ELBV2.VpcId := Plan.vpcId a |}
    with (targetGroupInput operation (Plan.vpcId a)).
  rewrite (call_answer _ _ _ Hgroup), tbind_Ret. unfold wiringCalls.
  destruct (Rules operation) as [|rule rest] eqn:Hlist.
  - cbn [length Nat.ltb Nat.leb]. rewrite (call_answer _ _ _ (Hdefault eq_refl)).
    by rewrite tbind_Ret.
  - cbn [length Nat.ltb Nat.leb]. rewrite (addRules_answers (set_Image operation image) _ _ Hrules).
    rewrite tbind_Ret. cbn [fst snd tret app]. by rewrite app_nil_r.
Qed.

(** The last two calls of a deployment. *)
Lemma registration_tail c (taskDefinitionInput : ECS.CreateTaskDefinitionInput.t)
    (serviceInput : string -> ECS.CreateServiceInput.t)
    (operation' : ServiceCreateOperation) :
  let tail :=
    (taskDefinitionArn <-
       call (ECS_CreateTaskDefinition taskDefinitionInput)
            (ecs_CreateTaskDefinition c taskDefinitionInput) ;;
     _ <- call (ECS_CreateService (serviceInput taskDefinitionArn))
            (ecs_CreateService c (serviceInput taskDefinitionArn)) ;;
     tret operation')%traced in
  Forall (fun ev => isElbv2Call ev = false /\ isBuildOrPush ev = false) (fst tail) /\
  ((forall input, returns (ecs_CreateTaskDefinition c input) = true) ->
   (forall input, returns (ecs_CreateService c input) = true) ->
   snd tail = Ret operation').
Proof.
  cbn zeta.
  pose proof (eq_refl (returns (ecs_CreateTaskDefinition c taskDefinitionInput)))
    as Hregister. revert Hregister.
  destruct (ecs_CreateTaskDefinition c taskDefinitionInput)
    as [taskDefinitionArn|err msg|reason] at 2 3 4; intros Hregister;
    cbn [call tbind fst snd].
  - pose proof (eq_refl (returns (ecs_CreateService c (serviceInput taskDefinitionArn))))
      as Hcreate. revert Hcreate.
    destruct (ecs_CreateService c (serviceInput taskDefinitionArn))
      as [u|err msg|reason] at 2 3 4; intros Hcreate;
      cbn [call tbind tret fst snd app]; (split; [by repeat constructor|]).
    + done.
    + intros _ Hall. by rewrite Hall in Hcreate.
    + intros _ Hall. by rewrite Hall in Hcreate.
  - split; [by repeat constructor|]. intros Hall _. by rewrite Hall in Hregister.
  - split; [by repeat constructor|]. intros Hall _. by rewrite Hall in Hregister.
Qed.

(** With the calls before the registration answered, the deployment
    reaches the registration: its trace is the calls of the three parts
    and then the registration and, when that returns, the creation of the
    service; it completes when these two return. *)
Lemma createService_answers c operation a tr0 tr2 image tr3 targetGroupArn :
  Plan.repositoryAnswers c operation a ->
  acquireRepository (ecr c) (ServiceName operation) = (tr0, Ret (Plan.repositoryUri a)) ->
  resolveImage c operation (Plan.repositoryUri a) = (tr2, Ret image) ->
  wireLoadBalancer c (set_Image operation image) = (tr3, Ret targetGroupArn) ->
  exists rest,
    fst (createService c operation) =
      tr0 ++ [EC2_GetDefaultVpcSubnetIds; IAM_CreateEcsTaskExecutionRole;
              CWL_CreateLogGroup (logGroupFormat c) (ServiceName operation)]
          ++ tr2 ++ tr3 ++ rest /\
    Forall (fun ev => isElbv2Call ev = false /\ isBuildOrPush ev = false) rest /\
    ((forall input, returns (ecs_CreateTaskDefinition c input) = true) ->
     (forall input, returns (ecs_CreateService c input) = true) ->
     snd (createService c operation) = Ret (set_Image operation image)).
Proof.
  intros (_ & _ & Hsubnets & Hrole & Hlog) Hacq Himage Hwire. unfold createService.
  rewrite Hacq, tbind_Ret.
  rewrite (call_answer _ _ _ Hsubnets), tbind_Ret.
  rewrite (call_answer _ _ _ Hrole), tbind_Ret.
  rewrite (call_answer _ _ _ Hlog), tbind_Ret.
  rewrite Himage, tbind_Ret. rewrite Hwire, tbind_Ret. cbn [fst snd].
  eexists. split; [reflexivity|].
  match goal with
  | |- context [call (ECS_CreateTaskDefinition ?input) _] =>
      exact (registration_tail c input
               (fun taskDefinitionArn =>
                  {| ECS.CreateServiceInput.Cluster := clusterName c;
                     ECS.CreateServiceInput.Name := ServiceName (set_Image operation image);
                     ECS.CreateServiceInput.Port :=
                       Port.Port (Port (set_Image operation image));
                     ECS.CreateServiceInput.SubnetIds := Plan.subnetIds a;
                     ECS.CreateServiceInput.TargetGroupArn := targetGroupArn;
                     ECS.CreateServiceInput.TaskDefinitionArn := taskDefinitionArn |})
               (set_Image operation image))
  end.
Qed.

End PlanFacts.

Section DeploymentClaims.
Import GoStrings cmd.

(** C1.  In any run of [createService], complete or not, no call of
    the load balancer wiring is made when no load balancer is
    configured, the default action is not replaced when a rule is
    configured, no rule is attached when none is configured, and nothing
    of the image build is run when an image was given.  In a run that
    completes, with a load balancer configured the calls to the load
    balancer client are: one target group named after the balancer and
    the service, on the configured port and protocol, then one rule per
    configured rule in order, or, without rules, the replacement of the
    default action by the new target group; and the image is built and
    pushed exactly when none was given.  And the run does so whenever
    the collaborators answer: when every call before the registration
    of the task definition is answered, the calls to the load balancer
    client are that target group and then those rules or that default
    action, the image is built and pushed under the tag answered when
    none was given, and the run completes when the registration and the
    creation of the service return. *)
Theorem createService_plan (c : Collaborators) (operation : ServiceCreateOperation) :
  let run := createService c operation in
  (LoadBalancerArn operation = "" ->
   Forall (fun ev => isLoadBalancerWiring ev = false) (fst run))
  /\ (Rules operation <> [] -> Forall (fun ev => isDefaultAction ev = false) (fst run))
  /\ (Rules operation = [] -> Forall (fun ev => isAddRule ev = false) (fst run))
  /\ (Image operation <> "" -> Forall (fun ev => isImageBuild ev = false) (fst run))
  /\ (forall operation', snd run = Ret operation' ->
      (LoadBalancerArn operation <> "" ->
       exists vpcId targetGroupArn,
         ELBV2.Name (targetGroupInput operation vpcId) =
           LoadBalancerName operation +:+ "-" +:+ ServiceName operation /\
         ELBV2.Port (targetGroupInput operation vpcId) = Port.Port (Port operation) /\
         ELBV2.Protocol (targetGroupInput operation vpcId) =
           Port.Protocol (Port operation) /\
         ELBV2.CreateTargetGroup (Elbv2 operation) (targetGroupInput operation vpcId)
           = Ret targetGroupArn /\
         List.filter isElbv2Call (fst run) =
           ELBV2_CreateTargetGroup (targetGroupInput operation vpcId)
           :: match Rules operation with
              | [] => [ELBV2_ModifyLoadBalancerDefaultAction
                         (LoadBalancerArn operation) targetGroupArn]
              | rules => map (ELBV2_AddRule (LoadBalancerArn operation)
                                targetGroupArn) rules
              end)
      /\ (Image operation = "" ->
          exists uri tag,
            List.filter isBuildOrPush (fst run) =
              [Repository_Build uri tag; Repository_Push uri tag] /\
            Image operation' = repository_UriFor c uri tag)
      /\ (List.filter isBuildOrPush (fst run) <> [] <-> Image operation = ""))
  /\ (forall a : Plan.Answers, Plan.answers c operation a ->
      (LoadBalancerArn operation <> "" ->
       List.filter isElbv2Call (fst run) =
         ELBV2_CreateTargetGroup (targetGroupInput operation (Plan.vpcId a))
         :: match Rules operation with
            | [] => [ELBV2_ModifyLoadBalancerDefaultAction
                       (LoadBalancerArn operation) (Plan.targetGroupArn a)]
            | rules => map (ELBV2_AddRule (LoadBalancerArn operation)
                              (Plan.targetGroupArn a)) rules
            end)
      /\ (Image operation = "" ->
          List.filter isBuildOrPush (fst run) =
            [Repository_Build (Plan.repositoryUri a) (Plan.tag a);
             Repository_Push (Plan.repositoryUri a) (Plan.tag a)])
      /\ ((forall input, returns (ecs_CreateTaskDefinition c input) = true) ->
          (forall input, returns (ecs_CreateService c input) = true) ->
          exists operation', snd run = Ret operation')).
Proof.
  intros run. subst run. split_and!.
  - intros Harn. apply createService_all.
    + done.
    + intros uri. apply resolveImage_all. by intros [].
    + intros image. rewrite wireLoadBalancer_unconfigured by done. constructor.
  - intros Hrules. apply createService_all.
    + by intros [].
    + intros uri. apply resolveImage_all. by intros [].
    + intros image. apply wireLoadBalancer_all; done.
  - intros Hrules. apply createService_all.
    + by intros [].
    + intros uri. apply resolveImage_all. by intros [].
    + intros image. apply wireLoadBalancer_all; done.
  - intros Himage. apply createService_all.
    + done.
    + intros uri. rewrite resolveImage_given by done. constructor.
    + intros image. apply wireLoadBalancer_all; done.
  - intros operation' Hret.
    destruct (createService c operation) as [trace out] eqn:Hrun.
    cbn [fst snd] in *. subst out.
    apply createService_Ret in Hrun
      as (uri & image & tg & tr0 & tr2 & tr3 & taskDefinitionInput & serviceInput
          & Hacq & Himage & Hwire & -> & ->).
    apply acquireRepository_Ret in Hacq as [Hacq1 Hacq2].
    assert (He2 : List.filter isElbv2Call tr2 = []).
    { apply filter_none.
      pose proof (resolveImage_all (fun ev => isElbv2Call ev = false) c operation uri)
        as Hall.
      rewrite Himage in Hall. apply Hall. by intros []. }
    assert (Hb3 : List.filter isBuildOrPush tr3 = []).
    { apply filter_none.
      pose proof (wireLoadBalancer_all (fun ev => isBuildOrPush ev = false) c
                    (set_Image operation image)) as Hall.
      rewrite Hwire in Hall. by apply Hall. }
    rewrite !List.filter_app, Hacq1, Hacq2, He2, Hb3.
    cbn [List.filter isElbv2Call isBuildOrPush app]. rewrite !app_nil_r.
    split_and!.
    + intros Harn.
      apply wireLoadBalancer_Ret in Hwire as (vpcId & _ & Hgroup & ->); [|done].
      exists vpcId, tg. split_and!; [done..|].
      cbn [List.filter isElbv2Call].
      apply filter_all, wiringCalls_elbv2.
    + intros Hnone.
      apply resolveImage_Ret in Himage as (tag & Hbuild & ->); [|done].
      by exists uri, tag.
    + split.
      * intros Hbuilt. destruct (decide (Image operation = "")) as [|Hgiven]; [done|].
        rewrite resolveImage_given in Himage by done.
        apply tret_inv in Himage as [_ ->]. done.
      * intros Hnone.
        apply resolveImage_Ret in Himage as (tag & -> & _); done.
  - intros a (Hrepository & Hbuild & Hwiring).
    destruct (acquireRepository_answers c operation a Hrepository) as [tr0 Hacq].
    destruct (acquireRepository_Ret _ _ _ _ Hacq) as [Hb0 He0].
    assert (exists tr2 image,
               resolveImage c operation (Plan.repositoryUri a) = (tr2, Ret image) /\
               List.filter isElbv2Call tr2 = [] /\
               (Image operation = "" ->
                List.filter isBuildOrPush tr2 =
                  [Repository_Build (Plan.repositoryUri a) (Plan.tag a);
                   Repository_Push (Plan.repositoryUri a) (Plan.tag a)]))
      as (tr2 & image & Himage & He2 & Hb2).
    { destruct (decide (Image operation = "")) as [Hnone|Hgiven].
      - rewrite (resolveImage_answers c operation a Hnone (Hbuild Hnone)).
        do 2 eexists. split; [reflexivity|]. split; [by destruct (Plan.inGitRepo a)|].
        intros _. by destruct (Plan.inGitRepo a).
      - rewrite resolveImage_given by done. do 2 eexists. by split. }
    assert (exists tr3 targetGroupArn,
               wireLoadBalancer c (set_Image operation image)
                 = (tr3, Ret targetGroupArn) /\
               List.filter isBuildOrPush tr3 = [] /\
               (LoadBalancerArn operation <> "" ->
                List.filter isElbv2Call tr3 =
                  wiringCalls operation (Plan.vpcId a) (Plan.targetGroupArn a)))
      as (tr3 & targetGroupArn & Hwire & Hb3 & He3).
    { destruct (decide (LoadBalancerArn operation = "")) as [Hnone|Hgiven].
      - rewrite wireLoadBalancer_unconfigured by done. do 2 eexists. by split.
      - rewrite (wireLoadBalancer_answers c operation a image Hgiven (Hwiring Hgiven)).
        do 2 eexists. split; [reflexivity|].
        destruct (wiringCalls_elbv2 operation (Plan.vpcId a) (Plan.targetGroupArn a))
          as [Hall Hnobuild].
        cbn [List.filter isBuildOrPush isElbv2Call]. split.
        + by apply filter_none.
        + intros _. by apply filter_all. }
    destruct (createService_answers c operation a tr0 tr2 image tr3 targetGroupArn
                Hrepository Hacq Himage Hwire) as (rest & -> & Hrest & Hcompletes).
    assert (List.filter isElbv2Call rest = [] /\ List.filter isBuildOrPush rest = [])
      as [He4 Hb4].
    { split; apply filter_none; eapply Forall_impl; eauto; by intros ev []. }
    rewrite !List.filter_app, He0, Hb0, He2, Hb3, He4, Hb4.
    cbn [List.filter isElbv2Call isBuildOrPush app]. rewrite !app_nil_r.
    split_and!.
    + intros Harn. by rewrite (He3 Harn).
    + exact Hb2.
    + intros Hregister Hcreate. eexists. by apply Hcompletes.
Qed.

(** C1 at the two deployments of the specification, whose collaborators
    all answer: without a load balancer and without an image nothing is
    wired and the image is built and pushed; behind [my-alb] with one
    path rule the target group is created, the rule is attached to it,
    the default action is left alone, and the run completes. *)
Lemma createService_plan_witness :
  Forall (fun ev => isLoadBalancerWiring ev = false)
    (fst (createService Deployments.collaborators (Examples.onHttp "application")))
  /\ List.filter isBuildOrPush
       (fst (createService Deployments.collaborators
               (Examples.onHttp "application"))) =
       [Repository_Build "registry.example/web" "abc1234";
        Repository_Push "registry.example/web" "abc1234"]
  /\ Forall (fun ev => isDefaultAction ev = false)
       (fst (createService Deployments.collaborators Deployments.withPathRule))
  /\ List.filter isElbv2Call
       (fst (createService Deployments.collaborators Deployments.withPathRule)) =
       [ELBV2_CreateTargetGroup
          {| ELBV2.Name := "my-alb-web"; ELBV2.Port := 8080;
             ELBV2.Protocol := "HTTP"; ELBV2.VpcId := "vpc-1" |};
        ELBV2_AddRule "arn:lb/my-alb" "arn:tg/my-alb-web"
          {| ELBV2.Type_ := "PATH"; ELBV2.Value := "/api/*" |}]
  /\ exists operation',
       snd (createService Deployments.collaborators Deployments.withPathRule)
         = Ret operation'.
Proof.
  assert (Plan.answers Deployments.collaborators (Examples.onHttp "application")
            Plan.sample) as Hplain.
  { split; [repeat split; reflexivity|].
    split; [intros _; repeat split; reflexivity|]. intros Harn. by destruct Harn. }
  assert (Plan.answers Deployments.collaborators Deployments.withPathRule Plan.sample)
    as Hbalanced.
  { repeat split; try reflexivity; try discriminate. repeat constructor. }
  split_and!.
  - apply (proj1 (createService_plan Deployments.collaborators
                    (Examples.onHttp "application"))).
    reflexivity.
  - apply (proj2 (proj2 (proj2 (proj2 (proj2
             (createService_plan Deployments.collaborators
                (Examples.onHttp "application")))))) Plan.sample Hplain).
    reflexivity.
  - apply (proj1 (proj2 (createService_plan Deployments.collaborators
                    Deployments.withPathRule))).
    discriminate.
  - apply (proj2 (proj2 (proj2 (proj2 (proj2
             (createService_plan Deployments.collaborators
                Deployments.withPathRule))))) Plan.sample Hbalanced).
    discriminate.
  - apply (proj2 (proj2 (proj2 (proj2 (proj2
             (createService_plan Deployments.collaborators
                Deployments.withPathRule))))) Plan.sample Hbalanced);
      intros input; reflexivity.
Defined.

(** The two deployments of the specification, call by call. *)
Example deployment_without_balancer :
  let trace := fst (createService Deployments.collaborators
                      (Examples.onHttp "application")) in
  List.filter isLoadBalancerWiring trace = [] /\
  List.filter isBuildOrPush trace =
    [Repository_Build "registry.example/web" "abc1234";
     Repository_Push "registry.example/web" "abc1234"].
Proof. split; reflexivity. Qed.

Example deployment_with_path_rule :
  List.filter isElbv2Call
    (fst (createService Deployments.collaborators Deployments.withPathRule)) =
    [ELBV2_CreateTargetGroup
       {| ELBV2.Name := "my-alb-web"; ELBV2.Port := 8080;
          ELBV2.Protocol := "HTTP"; ELBV2.VpcId := "vpc-1" |};
     ELBV2_AddRule "arn:lb/my-alb" "arn:tg/my-alb-web"
       {| ELBV2.Type_ := "PATH"; ELBV2.Value := "/api/*" |}].
Proof. reflexivity. Qed.

End DeploymentClaims.

(** ** The image repository *)

Section RegistryClaims.
Import cmd.

(** C7.  Acquiring the repository of a service a second time, against
    the registry the first acquisition left, gives the reference the
    first gave, creates nothing and does not fail. *)
Theorem acquireRepository_idempotent (uriOf : string -> string)
    (credentials : string * string) (registry : gmap string string)
    (serviceName : string) :
  let first := Registry.acquire uriOf credentials registry serviceName in
  let second := Registry.acquire uriOf credentials (snd first) serviceName in
  exists reference,
    fst first = Ret reference /\
    fst second = Ret reference /\
    snd second = snd first /\
    fst (acquireRepository (Registry.client uriOf credentials (snd first))
           serviceName)
      = [ECR_IsRepositoryCreated serviceName; ECR_GetRepositoryUri serviceName].
Proof.
  intros first second.
  assert (Hfirst : first =
    match registry !! serviceName with
    | Some uri => (Ret uri, registry)
    | None => (Ret (uriOf serviceName), <[serviceName := uriOf serviceName]> registry)
    end).
  { subst first. unfold Registry.acquire, acquireRepository. cbn.
    destruct (registry !! serviceName) as [uri|] eqn:Hlookup; cbn;
      by rewrite ?Hlookup. }
  assert (Hexists : exists reference,
    fst first = Ret reference /\ snd first !! serviceName = Some reference).
  { rewrite Hfirst. destruct (registry !! serviceName) as [uri|] eqn:Hlookup.
    - by exists uri.
    - exists (uriOf serviceName). cbn. by rewrite lookup_insert_eq. }
  destruct Hexists as (reference & Hret & Hbound).
  exists reference. subst second. clearbody first.
  unfold Registry.acquire, acquireRepository. cbn.
  rewrite Hbound. cbn. by rewrite ?Hbound.
Qed.

(** A second creation without the check would fail: the check is what
    makes the acquisition repeatable. *)
Example CreateRepository_twice_fails :
  let registry := Registry.after (fun name => "registry.example/" +:+ name) ∅
                    (ECR_CreateRepository "web") in
  ECR.CreateRepository
    (Registry.client (fun name => "registry.example/" +:+ name) ("AWS", "secret")
       registry) "web"
  = ErrorExit "RepositoryAlreadyExistsException" "Could not create ECR repository".
Proof. reflexivity. Qed.

End RegistryClaims.

(** ** ListTaskGroups *)

Section GroupFacts.
Import GoStrings ECS Spec.

Lemma wrap64_small (z : Z) : (- 2 ^ 63 <= z < 2 ^ 63)%Z -> wrap64 z = z.
Proof. intros Hz. unfold wrap64. rewrite Z.mod_small; lia. Qed.

Lemma logicalNames_cons task rest :
  logicalNames (task :: rest) =
    match logicalName (StartedBy task) with
    | Some name => name :: logicalNames rest
    | None => logicalNames rest
    end.
Proof. reflexivity. Qed.

Lemma groupLoop_names tasks groups :
  groupLoop tasks groups = fold_left (fun acc name => countTask name acc)
                             (logicalNames tasks) groups.
Proof.
  revert groups. induction tasks as [|task rest IH]; intros groups; [done|].
  rewrite logicalNames_cons. cbn [groupLoop]. unfold logicalName.
  destruct (Regexp.taskGroupStartedBy_FindStringSubmatch (StartedBy task))
    as [|whole [|name [|extra more]]]; cbn [fold_left]; apply IH.
Qed.

Lemma groupLoop_matching tasks groups :
  groupLoop tasks groups = groupLoop (List.filter matchesPattern tasks) groups.
Proof.
  rewrite !groupLoop_names. f_equal.
  induction tasks as [|task rest IH]; [done|].
  rewrite logicalNames_cons. cbn [List.filter].
  destruct (matchesPattern task) eqn:Hmatch; unfold matchesPattern in Hmatch;
    rewrite ?logicalNames_cons;
    destruct (logicalName (StartedBy task)) as [name|]; try done.
  by rewrite IH.
Qed.

Lemma occurrences_snoc name names other :
  occurrences name (names ++ [other]) =
    (occurrences name names + if String.eqb name other then 1 else 0)%nat.
Proof.
  unfold occurrences. rewrite List.filter_app, length_app. cbn.
  by destruct (String.eqb name other).
Qed.

Lemma occurrences_le name names : (occurrences name names <= length names)%nat.
Proof. unfold occurrences. apply List.filter_length_le. Qed.

Lemma seen_In name names : seen name names = true <-> In name names.
Proof.
  unfold seen. rewrite existsb_exists. split.
  - intros (other & Hin & Heq). by apply String.eqb_eq in Heq as ->.
  - intros Hin. exists name. by rewrite String.eqb_refl.
Qed.

Lemma firstSeen_In name names : In name (firstSeen names) <-> In name names.
Proof.
  induction names as [|head rest IH]; [done|]. cbn [firstSeen In].
  rewrite filter_In, IH.
  destruct (String.eqb_spec name head) as [->|Hne]; cbn; [tauto|].
  split; [tauto|]. intros [->|?]; [done|]. tauto.
Qed.

Lemma firstSeen_NoDup names : List.NoDup (firstSeen names).
Proof.
  induction names as [|head rest IH]; cbn [firstSeen]; constructor.
  - rewrite filter_In, String.eqb_refl. cbn. intros [_ [=]].
  - by apply List.NoDup_filter.
Qed.

Lemma filter_app_singleton {A} (p : A -> bool) l x :
  List.filter p (l ++ [x]) = List.filter p l ++ (if p x then [x] else []).
Proof. rewrite List.filter_app. cbn. by destruct (p x). Qed.

Lemma firstSeen_snoc names name :
  firstSeen (names ++ [name]) =
    if seen name names then firstSeen names else firstSeen names ++ [name].
Proof.
  induction names as [|head rest IH]; [done|].
  cbn [app firstSeen seen existsb]. fold (seen name rest). rewrite IH.
  destruct (String.eqb_spec name head) as [->|Hne]; cbn [orb].
  - destruct (seen head rest); [done|].
    by rewrite filter_app_singleton, String.eqb_refl, app_nil_r.
  - destruct (seen name rest); [done|].
    rewrite filter_app_singleton.
    destruct (String.eqb_spec name head); [done|]. done.
Qed.

(** Incrementing in a list of groups with distinct names. *)
Lemma incrementGroup_map (f : string -> TaskGroup) name names :
  (forall other, TaskGroupName (f other) = other) ->
  List.NoDup names ->
  incrementGroup name (map f names) =
    if seen name names then
      Some (map (fun other =>
                   if String.eqb other name then
                     {| TaskGroupName := other;
                        Instances := wrap64 (Instances (f other) + 1) |}
                   else f other) names)
    else None.
Proof.
  intros Hname Hdistinct.
  induction Hdistinct as [|head rest Hfresh Hdistinct IH]; [done|].
  cbn [map incrementGroup seen existsb]. fold (seen name rest).
  rewrite Hname, IH.
  rewrite (String.eqb_sym name head).
  destruct (String.eqb_spec head name) as [->|Hne]; cbn [orb].
  - f_equal. f_equal. apply map_ext_in. intros other Hin.
    destruct (String.eqb_spec other name) as [->|]; [done|done].
  - by destruct (seen name rest).
Qed.

Lemma countTask_tally names name :
  (Z.of_nat (length names) < 2 ^ 63 - 1)%Z ->
  countTask name (tally names) = tally (names ++ [name]).
Proof.
  intros Hbound. unfold countTask, tally.
  rewrite incrementGroup_map by (done || apply firstSeen_NoDup).
  rewrite firstSeen_snoc.
  assert (Hseen : seen name (firstSeen names) = seen name names).
  { apply eq_true_iff_eq. by rewrite !seen_In, firstSeen_In. }
  rewrite Hseen. destruct (seen name names) eqn:Hs.
  - apply map_ext_in. intros other _. cbn [Instances].
    rewrite occurrences_snoc.
    destruct (String.eqb_spec other name) as [->|Hne].
    + f_equal. rewrite wrap64_small by (pose proof (occurrences_le name names); lia).
      lia.
    + f_equal. lia.
  - rewrite map_app. cbn [map]. f_equal.
    + apply map_ext_in. intros other Hin. f_equal.
      rewrite occurrences_snoc.
      destruct (String.eqb_spec other name) as [->|Hne]; [|lia].
      apply (proj1 (firstSeen_In _ _)), (proj2 (seen_In _ _)) in Hin. congruence.
    + f_equal. f_equal. rewrite occurrences_snoc, String.eqb_refl.
      assert (occurrences name names = 0)%nat; [|lia].
      unfold occurrences. rewrite filter_none; [done|].
      apply List.Forall_forall. intros other Hin. destruct (String.eqb_spec name other) as [->|]; [|done].
      apply (proj2 (seen_In _ _)) in Hin. congruence.
Qed.

Lemma fold_countTask_tally names :
  (Z.of_nat (length names) < 2 ^ 63)%Z ->
  fold_left (fun acc name => countTask name acc) names [] = tally names.
Proof.
  induction names as [|name names IH] using rev_ind; intros Hbound; [done|].
  rewrite length_app in Hbound. cbn in Hbound.
  rewrite fold_left_app. cbn [fold_left].
  rewrite IH by lia. apply countTask_tally. lia.
Qed.

Lemma logicalNames_length tasks : (length (logicalNames tasks) <= length tasks)%nat.
Proof.
  induction tasks as [|task rest IH]; [done|].
  rewrite logicalNames_cons.
  destruct (logicalName (StartedBy task)); cbn [length]; lia.
Qed.

(** The loop computes the tally of the logical names. *)
Lemma groupLoop_tally tasks :
  (Z.of_nat (length tasks) < 2 ^ 63)%Z ->
  groupLoop tasks [] = tally (logicalNames tasks).
Proof.
  intros Hbound. rewrite groupLoop_names. apply fold_countTask_tally.
  pose proof (logicalNames_length tasks). lia.
Qed.

End GroupFacts.

Section GroupClaims.
Import GoStrings ECS Spec.

(** C2.  For the tasks the cluster-wide listing returns,
    [ListTaskGroups] returns one group per distinct logical name among
    the started-by tags the pattern matches, in the order in which the
    names are first seen, each with the number of listed tasks of that
    name; the tasks whose tag the pattern does not match change
    nothing. *)
Theorem ListTaskGroups_tally (ecs : ECS) (trace : list Event) (tasks : list Task) :
  listTasks ecs (clusterInput ecs) = (trace, Ret tasks) ->
  (Z.of_nat (length tasks) < 2 ^ 63)%Z ->
  exists groups,
    ListTaskGroups ecs = (trace, Ret groups) /\
    map TaskGroupName groups = firstSeen (logicalNames tasks) /\
    List.NoDup (map TaskGroupName groups) /\
    (forall name, In name (map TaskGroupName groups) <->
                  In name (logicalNames tasks)) /\
    (forall group, In group groups ->
       Instances group =
         Z.of_nat (occurrences (TaskGroupName group) (logicalNames tasks))) /\
    groups = groupLoop (List.filter matchesPattern tasks) [].
Proof.
  intros Hlist Hbound. exists (groupLoop tasks []).
  assert (Hnames : map TaskGroupName (tally (logicalNames tasks)) =
                   firstSeen (logicalNames tasks)).
  { unfold tally. rewrite List.map_map. cbn. apply List.map_id. }
  split_and!.
  - unfold ListTaskGroups. rewrite Hlist. cbn. by rewrite app_nil_r.
  - by rewrite groupLoop_tally.
  - rewrite groupLoop_tally, Hnames by done. apply firstSeen_NoDup.
  - intros name. rewrite groupLoop_tally, Hnames by done. apply firstSeen_In.
  - intros group. rewrite groupLoop_tally by done. unfold tally.
    rewrite in_map_iff. by intros (name & <- & _).
  - apply groupLoop_matching.
Qed.

(** C2 at the tags [fargate:web], [fargate:web], [fargate:worker] and
    one tag the pattern does not match: two groups, web and worker. *)
Lemma ListTaskGroups_tally_witness :
  map StartedBy Fleet.tasks = ["fargate:web"; "fargate:web"; "fargate:worker";
                               "ecs-svc/1234"] /\
  exists groups,
    ListTaskGroups Fleet.ecs = (Fleet.trace, Ret groups) /\
    map TaskGroupName groups = ["web"; "worker"].
Proof.
  split; [reflexivity|].
  destruct (ListTaskGroups_tally Fleet.ecs Fleet.trace Fleet.tasks)
    as (groups & Hrun & Hnames & _).
  - reflexivity.
  - cbn. lia.
  - exists groups. split; [exact Hrun|]. rewrite Hnames. reflexivity.
Defined.

(** The same inventory, evaluated: web with two instances and worker
    with one. *)
Example ListTaskGroups_web_worker :
  snd (ListTaskGroups Fleet.ecs) =
    Ret [ {| TaskGroupName := "web"; Instances := 2 |};
          {| TaskGroupName := "worker"; Instances := 1 |} ].
Proof. reflexivity. Qed.

(** The pattern is not anchored: a tag that carries [fargate:] after a
    prefix is matched too, and the name ends at a newline. *)
Example logicalName_unanchored :
  logicalName "xfargate:web" = Some "web" /\
  logicalName "ecs-svc/1234" = None /\
  logicalName "fargate:" = Some "".
Proof. repeat split. Qed.

End GroupClaims.

(** ** listTasks and DescribeTasks *)

Section ListingFacts.
Import GoStrings ECS Spec.

Lemma appendEach_app described tasks : appendEach described tasks = tasks ++ described.
Proof.
  revert tasks. induction described as [|task rest IH]; intros tasks; cbn.
  - by rewrite app_nil_r.
  - by rewrite IH, <- app_assoc.
Qed.

(** The callback never stops the iteration: every page is delivered,
    and the batches are the non-empty ones among the pages', in page
    order. *)
Lemma eachPage_collectPage pages batches :
  awsecs.eachPage collectPage pages batches =
    (batches ++ List.filter nonEmpty (pageBatches pages), true).
Proof.
  revert batches. induction pages as [|resp rest IH]; intros batches; cbn.
  - by rewrite app_nil_r.
  - rewrite IH. unfold pageBatches, aws.StringValueSlice. rewrite length_map.
    destruct (length (awsecs.ListTasksOutput.TaskArns resp)); [done|].
    by rewrite <- app_assoc.
Qed.

Lemma listTasks_batches_pages ecs input pages err :
  awsecs.listTasksPages (svc ecs) input = (pages, err) ->
  listTasks_batches ecs input = (List.filter nonEmpty (pageBatches pages), err).
Proof.
  intros Hpages. unfold listTasks_batches, awsecs.ListTasksPages.
  by rewrite Hpages, eachPage_collectPage.
Qed.

Lemma DescribeTasks_nil ecs : DescribeTasks ecs [] = ([], Ret []).
Proof. reflexivity. Qed.

(** The loop over the batches, stated over the batches of all pages:
    an empty batch is skipped and describes to nothing. *)
Lemma batchesLoop_Ret ecs batches described tasks :
  Forall2 (fun batch found => snd (DescribeTasks ecs batch) = Ret found)
    batches described ->
  snd (batchesLoop ecs (List.filter nonEmpty batches) tasks)
    = Ret (tasks ++ concat described).
Proof.
  intros Hall. revert tasks.
  induction Hall as [|batch found batches described Hfound _ IH]; intros tasks.
  - cbn. by rewrite app_nil_r.
  - cbn [List.filter concat].
    destruct batch as [|id batch].
    + cbn in Hfound. injection Hfound as <-. cbn [nonEmpty length Nat.ltb Nat.leb app].
      apply IH.
    + cbn [nonEmpty length Nat.ltb Nat.leb batchesLoop].
      destruct (DescribeTasks ecs (id :: batch)) as [tr out]. cbn in Hfound. subst out.
      cbn [tbind]. specialize (IH (appendEach found tasks)).
      destruct (batchesLoop ecs (List.filter nonEmpty batches) (appendEach found tasks))
        as [tr' out']. cbn in *. by rewrite IH, appendEach_app, <- app_assoc.
Qed.

Lemma batchesLoop_Ret_inv ecs batches tasks result :
  snd (batchesLoop ecs (List.filter nonEmpty batches) tasks) = Ret result ->
  exists described,
    Forall2 (fun batch found => snd (DescribeTasks ecs batch) = Ret found)
      batches described /\
    result = tasks ++ concat described.
Proof.
  revert tasks. induction batches as [|batch batches IH]; intros tasks Hrun.
  - cbn in Hrun. injection Hrun as <-. exists []. split; [constructor|].
    by rewrite app_nil_r.
  - cbn [List.filter] in Hrun. destruct batch as [|id batch].
    + cbn [nonEmpty length Nat.ltb Nat.leb] in Hrun.
      destruct (IH _ Hrun) as (described & Hall & ->).
      exists ([] :: described). split; [by constructor|done].
    + cbn [nonEmpty length Nat.ltb Nat.leb batchesLoop] in Hrun.
      destruct (DescribeTasks ecs (id :: batch)) as [tr [found|e msg|r]] eqn:Hbatch;
        cbn [tbind] in Hrun; [|discriminate..].
      destruct (batchesLoop ecs (List.filter nonEmpty batches) (appendEach found tasks))
        as [tr' out'] eqn:Hrest. cbn in Hrun. subst out'.
      destruct (IH (appendEach found tasks)) as (described & Hall & ->).
      { by rewrite Hrest. }
      exists (found :: described). split.
      * constructor; [by rewrite Hbatch|done].
      * cbn. by rewrite appendEach_app, <- app_assoc.
Qed.

Lemma listTasks_unfold ecs input pages err :
  awsecs.listTasksPages (svc ecs) input = (pages, err) ->
  listTasks ecs input =
    tbind (call (Svc_ListTasksPages input)
             (match err with
              | Some e => ErrorExit e "Could not list ECS tasks"
              | None => Ret tt
              end))
      (fun _ => batchesLoop ecs (List.filter nonEmpty (pageBatches pages)) []).
Proof.
  intros Hpages. unfold listTasks.
  rewrite (listTasks_batches_pages _ _ _ _ Hpages).
  by destruct (List.filter nonEmpty (pageBatches pages)).
Qed.

Lemma snd_tbind_call {E A B} (ev : E) (a : A) (f : A -> Traced E B) :
  snd (tbind (call ev (Ret a)) f) = snd (f a).
Proof. cbn. by destruct (f a). Qed.

End ListingFacts.

Section ListingClaims.
Import GoStrings ECS Spec.

(** C8.  Whatever pages the list operation delivers, [listTasks] goes
    through all of them: its batches are the pages' identifier batches
    in page order, the empty ones left out.  When the iteration ends in
    an error the call is fatal.  Otherwise the call returns exactly when
    every page's batch is described, and the result is then the
    described tasks of the batches concatenated in page order: never a
    part of them. *)
Theorem listTasks_all_pages (ecs : ECS) (input : awsecs.ListTasksInput.t)
    (pages : list awsecs.ListTasksOutput.t) (err : option string) :
  awsecs.listTasksPages (svc ecs) input = (pages, err) ->
  listTasks_batches ecs input = (List.filter nonEmpty (pageBatches pages), err)
  /\ (forall e, err = Some e ->
        listTasks ecs input =
          ([Svc_ListTasksPages input], ErrorExit e "Could not list ECS tasks"))
  /\ (err = None ->
      (forall described,
         Forall2 (fun batch found => snd (DescribeTasks ecs batch) = Ret found)
           (pageBatches pages) described ->
         snd (listTasks ecs input) = Ret (concat described))
      /\ (forall tasks,
            snd (listTasks ecs input) = Ret tasks ->
            exists described,
              Forall2 (fun batch found => snd (DescribeTasks ecs batch) = Ret found)
                (pageBatches pages) described /\
              tasks = concat described)).
Proof.
  intros Hpages. split_and!.
  - by apply listTasks_batches_pages.
  - intros e ->. by rewrite (listTasks_unfold _ _ _ _ Hpages).
  - intros ->. rewrite (listTasks_unfold _ _ _ _ Hpages), snd_tbind_call. split.
    + intros described Hall. by rewrite (batchesLoop_Ret _ _ _ _ Hall).
    + intros tasks Hrun. by apply batchesLoop_Ret_inv in Hrun.
Qed.

(** C8 at a listing of three pages, the second one empty. *)
Lemma listTasks_all_pages_witness :
  listTasks_batches Fleet.ecs (clusterInput Fleet.ecs) =
    ([ ["arn:aws:ecs:task/fargate/t1"; "arn:aws:ecs:task/fargate/t2"];
       ["arn:aws:ecs:task/fargate/t3"; "arn:aws:ecs:task/fargate/t4"] ], None).
Proof.
  apply (listTasks_all_pages Fleet.ecs (clusterInput Fleet.ecs)
           (fst (awsecs.listTasksPages Fleet.api (clusterInput Fleet.ecs))) None).
  reflexivity.
Defined.

(** A callback that answers [false] stops the paginator: that every
    page is delivered is a property of [collectPage]. *)
Example eachPage_stops_on_false :
  awsecs.eachPage (fun (seen : nat) _ _ => (S seen, false))
    (fst (awsecs.listTasksPages Fleet.api (clusterInput Fleet.ecs))) 0%nat
  = (1%nat, false).
Proof. reflexivity. Qed.

End ListingClaims.

Section DescribeFacts.
Import GoStrings ECS Spec.

Lemma describeOne_events ecs t : Forall describesSomething (fst (describeOne ecs t)).
Proof.
  unfold describeOne.
  apply Forall_tbind; [constructor|intros taskID].
  apply Forall_tbind; [by apply Forall_call|intros taskDefinition].
  apply Forall_tbind; [constructor|intros container0].
  apply Forall_tbind; [constructor|intros [[found eniId] subnetId]].
  apply Forall_tret.
Qed.

Lemma describeLoop_events ecs remote tasks :
  Forall describesSomething (fst (describeLoop ecs remote tasks)).
Proof.
  revert tasks. induction remote as [|t rest IH]; intros tasks; cbn [describeLoop].
  - apply Forall_tret.
  - apply Forall_tbind; [apply describeOne_events|intros task; apply IH].
Qed.

(** The remote describe call is issued with identifiers only. *)
Lemma DescribeTasks_events ecs taskIds :
  Forall describesSomething (fst (DescribeTasks ecs taskIds)).
Proof.
  unfold DescribeTasks. destruct taskIds as [|id rest]; [constructor|].
  cbn [length Nat.eqb].
  apply Forall_tbind; [by apply Forall_call|intros resp].
  apply describeLoop_events.
Qed.

Lemma batchesLoop_events ecs batches tasks :
  Forall describesSomething (fst (batchesLoop ecs batches tasks)).
Proof.
  revert tasks. induction batches as [|batch rest IH]; intros tasks; cbn [batchesLoop].
  - apply Forall_tret.
  - apply Forall_tbind; [apply DescribeTasks_events|intros described; apply IH].
Qed.

Lemma filter_nonEmpty {A} (l : list (list A)) :
  Forall (fun batch => batch <> []) (List.filter nonEmpty l).
Proof.
  apply List.Forall_forall. intros batch Hin. apply filter_In in Hin as [_ Hne].
  by destruct batch.
Qed.

End DescribeFacts.

Section DescribeClaims.
Import GoStrings ECS Spec.

(** C10.  [DescribeTasks] with no identifier returns no task and
    issues no call; the batches [listTasks] accumulates are non-empty;
    and no describe call of a listing carries an empty identifier
    list. *)
Theorem DescribeTasks_skips_empty (ecs : ECS) (input : awsecs.ListTasksInput.t) :
  DescribeTasks ecs [] = ([], Ret [])
  /\ Forall (fun batch => batch <> []) (fst (listTasks_batches ecs input))
  /\ Forall describesSomething (fst (listTasks ecs input)).
Proof.
  destruct (awsecs.listTasksPages (svc ecs) input) as [pages err] eqn:Hpages.
  split_and!.
  - reflexivity.
  - rewrite (listTasks_batches_pages _ _ _ _ Hpages). apply filter_nonEmpty.
  - rewrite (listTasks_unfold _ _ _ _ Hpages).
    apply Forall_tbind; [by apply Forall_call|intros _].
    apply batchesLoop_events.
Qed.

(** The listing of three pages, the second one empty, describes two
    batches. *)
Example listTasks_describes_two_batches :
  List.filter (fun ev => match ev with Svc_DescribeTasks _ => true | _ => false end)
    Fleet.trace
  = [ Svc_DescribeTasks
        {| awsecs.DescribeTasksInput.Cluster := Some "fargate";
           awsecs.DescribeTasksInput.Tasks :=
             [Some "arn:aws:ecs:task/fargate/t1";
              Some "arn:aws:ecs:task/fargate/t2"] |};
      Svc_DescribeTasks
        {| awsecs.DescribeTasksInput.Cluster := Some "fargate";
           awsecs.DescribeTasksInput.Tasks :=
             [Some "arn:aws:ecs:task/fargate/t3";
              Some "arn:aws:ecs:task/fargate/t4"] |} ].
Proof. reflexivity. Qed.

End DescribeClaims.

(** ** Task enrichment *)

Section EnrichmentFacts.
Import GoStrings ECS Spec.

Lemma length_append (a b : string) :
  String.length (a +:+ b) = (String.length a + String.length b)%nat.
Proof.
  induction a as [|c a IH]; [done|]. rewrite append_cons. cbn. by rewrite IH.
Qed.

(** The last piece of a split at [/] has no [/] and ends the text,
    after a [/] unless the text has none. *)
Lemma genSplit_last cuts s :
  (String.length s <= cuts)%nat ->
  exists init final,
    genSplit cuts s "/" = init ++ [final] /\
    Contains final "/" = false /\
    (s = final \/ exists before, s = before +:+ "/" +:+ final).
Proof.
  revert s. induction cuts as [|cuts IH]; intros s Hlen.
  - destruct s; [|cbn in Hlen; lia]. exists [], "". split; [done|]. split; [done|]. by left.
  - cbn [genSplit]. destruct (cutAt s "/") as [[a b]|] eqn:Hcut.
    + apply cutAt_byte_Some in Hcut as [-> _].
      destruct (IH b) as (init & final & -> & Hfinal & Hshape).
      { rewrite length_append in Hlen. cbn in Hlen. lia. }
      exists (a :: init), final. split; [done|]. split; [done|]. right.
      destruct Hshape as [->|[before ->]].
      * by exists a.
      * exists (a +:+ "/" +:+ before).
        change (String "/" (before +:+ "/" +:+ final))
          with ("/" +:+ before +:+ "/" +:+ final).
        by rewrite !append_assoc.
    + apply cutAt_byte_None in Hcut. exists [], s. split; [done|]. split; [done|]. by left.
Qed.

Lemma index_last {A} (init : list A) (final : A) :
  index (init ++ [final]) (length (init ++ [final]) - 1) = Ret final.
Proof.
  unfold index. rewrite length_app. cbn [length].
  replace (length init + 1 - 1)%nat with (length init) by lia.
  by rewrite list_lookup_middle.
Qed.

Lemma lastValue_app name l1 l2 otherwise :
  lastValue name (l1 ++ l2) otherwise = lastValue name l2 (lastValue name l1 otherwise).
Proof.
  revert otherwise. induction l1 as [|detail rest IH]; intros otherwise; [done|].
  cbn [app lastValue]. apply IH.
Qed.

Lemma detailsLoop_lastValue details eniId subnetId :
  detailsLoop details eniId subnetId =
    (lastValue detailNetworkInterfaceId details eniId,
     lastValue detailSubnetId details subnetId).
Proof.
  revert eniId subnetId.
  induction details as [|detail rest IH]; intros eniId subnetId; [done|].
  cbn [detailsLoop lastValue]. unfold named.
  destruct (String.eqb_spec (aws.StringValue (awsecs.Name detail))
              detailNetworkInterfaceId) as [Hn|Hn];
    destruct (String.eqb_spec (aws.StringValue (awsecs.Name detail))
                detailSubnetId) as [Hs|Hs];
    rewrite IH; try done.
  rewrite Hn in Hs. discriminate.
Qed.

Lemma attachmentsLoop_typed attachments foundEni eniId subnetId :
  Forall (fun attachment => is_Some (awsecs.Type_ attachment)) attachments ->
  attachmentsLoop attachments foundEni eniId subnetId =
    Ret (foundEni || existsb isEni attachments,
         lastValue detailNetworkInterfaceId
           (flat_map awsecs.Details (List.filter isEni attachments)) eniId,
         lastValue detailSubnetId
           (flat_map awsecs.Details (List.filter isEni attachments)) subnetId).
Proof.
  intros Htyped. revert foundEni eniId subnetId.
  induction Htyped as [|attachment rest [type0 Htype] _ IH];
    intros foundEni eniId subnetId.
  - cbn. by rewrite orb_false_r.
  - assert (Heni : isEni attachment = String.eqb type0 eniAttachmentType)
      by (unfold isEni; by rewrite Htype).
    cbn [attachmentsLoop existsb List.filter]. rewrite Htype, Heni.
    destruct (String.eqb type0 eniAttachmentType); cbn [negb orb].
    + rewrite detailsLoop_lastValue, IH. cbn [flat_map].
      rewrite !lastValue_app. by rewrite orb_true_r.
    + by rewrite IH.
Qed.

Lemma determineENIDetails_typed t :
  Forall (fun attachment => is_Some (awsecs.Type_ attachment)) (awsecs.Attachments t) ->
  determineENIDetails t =
    Ret (existsb isEni (awsecs.Attachments t),
         lastValue detailNetworkInterfaceId (eniDetails t) "",
         lastValue detailSubnetId (eniDetails t) "").
Proof.
  intros Htyped. unfold determineENIDetails, eniDetails.
  destruct (awsecs.Attachments t) as [|attachment rest] eqn:Hatt; [done|].
  cbn [length Nat.ltb Nat.leb]. by rewrite attachmentsLoop_typed.
Qed.

Lemma tbind_lift_Ret {E A B} (a : A) (f : A -> Traced E B) :
  tbind (lift (Ret a)) f = f a.
Proof. unfold lift. cbn. by destruct (f a). Qed.

Lemma existsb_isEni_false attachments :
  Forall (fun attachment => awsecs.Type_ attachment <> Some eniAttachmentType)
    attachments ->
  existsb isEni attachments = false.
Proof.
  induction 1 as [|attachment rest Hne _ IH]; [done|].
  cbn [existsb]. rewrite IH, orb_false_r. unfold isEni.
  destruct (awsecs.Type_ attachment) as [type0|]; [|done].
  apply String.eqb_neq. congruence.
Qed.

Lemma existsb_isEni_true attachments :
  Exists (fun attachment => awsecs.Type_ attachment = Some eniAttachmentType)
    attachments ->
  existsb isEni attachments = true.
Proof.
  induction 1 as [attachment rest Heni|attachment rest _ IH]; cbn [existsb].
  - unfold isEni. by rewrite Heni.
  - by rewrite IH, orb_true_r.
Qed.

(** An attachment without a type stops the loop: the dereference of
    its type panics. *)
Lemma attachmentsLoop_untyped attachments foundEni eniId subnetId :
  Exists (fun attachment => awsecs.Type_ attachment = None) attachments ->
  attachmentsLoop attachments foundEni eniId subnetId =
    Panic "invalid memory address or nil pointer dereference".
Proof.
  intros Hex. revert foundEni eniId subnetId.
  induction attachments as [|attachment rest IH]; intros foundEni eniId subnetId.
  - inversion Hex.
  - cbn [attachmentsLoop].
    destruct (awsecs.Type_ attachment) as [type0|] eqn:Htype; [|done].
    assert (Hrest : Exists (fun a => awsecs.Type_ a = None) rest)
      by (inversion Hex; subst; [congruence|done]).
    destruct (negb (String.eqb type0 eniAttachmentType)); [by apply IH|].
    destruct (detailsLoop _ _ _). by apply IH.
Qed.

End EnrichmentFacts.

Section EnrichmentClaims.
Import GoStrings ECS Spec.

(** The enrichment of a record whose attachments all carry their
    type.  For such a remote task record, with its task definition
    retrieved with a first container, enrichment returns a task.  Its identifier is the final path
    segment of the record's resource reference.  With no attachment of
    the network interface kind its interface and subnet fields are
    empty.  With such an attachment they are the values of the
    [networkInterfaceId] and [subnetId] details of the network
    interface attachments, the last one of each name. *)
Theorem describeOne_network_details (ecs : ECS) (t : awsecs.Task)
    (taskDefinition : awsecs.DescribeTaskDefinitionOutput.t)
    (container0 : awsecs.ContainerDefinition) :
  Forall (fun attachment => is_Some (awsecs.Type_ attachment)) (awsecs.Attachments t) ->
  DescribeTaskDefinition ecs (aws.StringValue (awsecs.TaskDefinitionArn t))
    = Ret taskDefinition ->
  awsecs.ContainerDefinitions
    (awsecs.DescribeTaskDefinitionOutput.TaskDefinition taskDefinition) !! 0%nat
    = Some container0 ->
  exists task,
    snd (describeOne ecs t) = Ret task /\
    Contains (TaskId task) "/" = false /\
    (aws.StringValue (awsecs.TaskArn t) = TaskId task \/
     exists before,
       aws.StringValue (awsecs.TaskArn t) = before +:+ "/" +:+ TaskId task) /\
    (Forall (fun attachment => awsecs.Type_ attachment <> Some eniAttachmentType)
       (awsecs.Attachments t) ->
     EniId task = "" /\ SubnetId task = "") /\
    (Exists (fun attachment => awsecs.Type_ attachment = Some eniAttachmentType)
       (awsecs.Attachments t) ->
     EniId task = lastValue detailNetworkInterfaceId (eniDetails t) "" /\
     SubnetId task = lastValue detailSubnetId (eniDetails t) "").
Proof.
  intros Htyped Hdefinition Hcontainer. unfold describeOne.
  destruct (genSplit_last (String.length (aws.StringValue (awsecs.TaskArn t)))
              (aws.StringValue (awsecs.TaskArn t)) (le_n _))
    as (init & final & Hsplit & Hfinal & Hshape).
  unfold Split, SplitN. cbn [Z.eqb Z.ltb Z.compare].
  rewrite Hsplit, index_last, tbind_lift_Ret, Hdefinition, snd_tbind_call.
  unfold index. rewrite Hcontainer, tbind_lift_Ret.
  rewrite (determineENIDetails_typed t Htyped), tbind_lift_Ret.
  eexists. split; [reflexivity|]. cbn [TaskId EniId SubnetId].
  split; [done|]. split; [done|]. split.
  - intros Hnone. by rewrite (existsb_isEni_false _ Hnone).
  - intros Hsome. by rewrite (existsb_isEni_true _ Hsome).
Qed.

(** The same at a record with a network interface attachment and at
    one without attachments. *)
Lemma describeOne_network_details_witness :
  (exists task,
     snd (describeOne Fleet.ecs
            (Fleet.remoteTask "arn:aws:ecs:task/fargate/t1" "fargate:web" [Fleet.eni]))
       = Ret task /\ EniId task = "eni-1" /\ SubnetId task = "subnet-1")
  /\ (exists task,
        snd (describeOne Fleet.ecs
               (Fleet.remoteTask "arn:aws:ecs:task/fargate/t2" "fargate:web" []))
          = Ret task /\ EniId task = "" /\ SubnetId task = "").
Proof.
  split.
  - destruct (describeOne_network_details Fleet.ecs
                (Fleet.remoteTask "arn:aws:ecs:task/fargate/t1" "fargate:web"
                   [Fleet.eni])
                Fleet.definition
                {| awsecs.Image := Some "registry.example/web:abc1234";
                   awsecs.Environment :=
                     [ {| awsecs.Name := Some "PORT";
                          awsecs.Value := Some "8080" |} ] |})
      as (task & Hrun & _ & _ & _ & Heni).
    + repeat constructor. by eexists.
    + reflexivity.
    + reflexivity.
    + exists task. split; [exact Hrun|]. apply Heni. by left.
  - destruct (describeOne_network_details Fleet.ecs
                (Fleet.remoteTask "arn:aws:ecs:task/fargate/t2" "fargate:web" [])
                Fleet.definition
                {| awsecs.Image := Some "registry.example/web:abc1234";
                   awsecs.Environment :=
                     [ {| awsecs.Name := Some "PORT";
                          awsecs.Value := Some "8080" |} ] |})
      as (task & Hrun & _ & _ & Hnone & _).
    + constructor.
    + reflexivity.
    + reflexivity.
    + exists task. split; [exact Hrun|]. apply Hnone. constructor.
Defined.

(** C9.  The claim fails on the code for a record with an attachment
    that carries no type.  Whatever the kinds of its other attachments,
    also when none of them is a network interface, and with its task
    definition retrieved, the dereference of the missing type panics and
    the enrichment yields no task. *)
Theorem describeOne_untyped_attachment_panics (ecs : ECS) (t : awsecs.Task)
    (taskDefinition : awsecs.DescribeTaskDefinitionOutput.t)
    (container0 : awsecs.ContainerDefinition) :
  DescribeTaskDefinition ecs (aws.StringValue (awsecs.TaskDefinitionArn t))
    = Ret taskDefinition ->
  awsecs.ContainerDefinitions
    (awsecs.DescribeTaskDefinitionOutput.TaskDefinition taskDefinition) !! 0%nat
    = Some container0 ->
  Exists (fun attachment => awsecs.Type_ attachment = None) (awsecs.Attachments t) ->
  describeOne ecs t =
    ([Ecs_DescribeTaskDefinition (aws.StringValue (awsecs.TaskDefinitionArn t))],
     Panic "invalid memory address or nil pointer dereference").
Proof.
  intros Hdefinition Hcontainer Huntyped. unfold describeOne.
  destruct (genSplit_last (String.length (aws.StringValue (awsecs.TaskArn t)))
              (aws.StringValue (awsecs.TaskArn t)) (le_n _))
    as (init & final & Hsplit & _).
  unfold Split, SplitN. cbn [Z.eqb Z.ltb Z.compare].
  rewrite Hsplit, index_last, tbind_lift_Ret, Hdefinition.
  unfold call. rewrite tbind_Ret. unfold index. rewrite Hcontainer, tbind_lift_Ret.
  unfold determineENIDetails.
  destruct (awsecs.Attachments t) as [|attachment rest] eqn:Hattachments;
    [inversion Huntyped|].
  cbn [length Nat.ltb Nat.leb].
  by rewrite (attachmentsLoop_untyped _ false "" "" Huntyped).
Qed.

(** C9 at a record whose only attachment has no type: none of its
    attachments is a network interface, and its enrichment panics. *)
Lemma describeOne_untyped_attachment_panics_witness :
  let t := Fleet.remoteTask "arn:aws:ecs:task/fargate/t5" "fargate:web"
             [ {| awsecs.Type_ := None; awsecs.Details := [] |} ] in
  Forall (fun attachment => awsecs.Type_ attachment <> Some eniAttachmentType)
    (awsecs.Attachments t)
  /\ describeOne Fleet.ecs t =
       ([Ecs_DescribeTaskDefinition "arn:aws:ecs:task-definition/web:3"],
        Panic "invalid memory address or nil pointer dereference").
Proof.
  split; [by repeat constructor|].
  apply (describeOne_untyped_attachment_panics Fleet.ecs
           (Fleet.remoteTask "arn:aws:ecs:task/fargate/t5" "fargate:web"
              [ {| awsecs.Type_ := None; awsecs.Details := [] |} ])
           Fleet.definition
           {| awsecs.Image := Some "registry.example/web:abc1234";
              awsecs.Environment :=
                [ {| awsecs.Name := Some "PORT"; awsecs.Value := Some "8080" |} ] |}).
  - reflexivity.
  - reflexivity.
  - by left.
Defined.

(** The enrichment of the four tasks of the sample inventory. *)
Example Fleet_enriched :
  map TaskId Fleet.tasks = ["t1"; "t2"; "t3"; "t4"] /\
  map EniId Fleet.tasks = ["eni-1"; ""; ""; ""] /\
  map SubnetId Fleet.tasks = ["subnet-1"; ""; ""; ""].
Proof. repeat split. Qed.

(** An attachment without a type stops the enrichment: the
    dereference of its type panics. *)
Example determineENIDetails_untyped :
  determineENIDetails
    (Fleet.remoteTask "arn:aws:ecs:task/fargate/t5" "fargate:web"
       [ {| awsecs.Type_ := None; awsecs.Details := [] |} ])
  = Panic "invalid memory address or nil pointer dereference".
Proof. reflexivity. Qed.

End EnrichmentClaims.

(** ** Running and stopping tasks *)

Section LifecycleFacts.
Import GoStrings ECS Spec Lifecycle.

Lemma StopTasks_all_stopped ecs control taskIds :
  Forall (fun taskId => stopTask control (stopTaskInput ecs taskId) = None) taskIds ->
  StopTasks ecs control taskIds =
    (map (fun taskId => Svc_StopTask (stopTaskInput ecs taskId)) taskIds, Ret tt).
Proof.
  induction 1 as [|taskId rest Hok _ IH]; [done|].
  cbn [StopTasks]. unfold StopTask. rewrite Hok, IH. reflexivity.
Qed.

Lemma StopTasks_app ecs control before after :
  Forall (fun taskId => stopTask control (stopTaskInput ecs taskId) = None) before ->
  StopTasks ecs control (before ++ after) =
    (map (fun taskId => Svc_StopTask (stopTaskInput ecs taskId)) before
       ++ fst (StopTasks ecs control after),
     snd (StopTasks ecs control after)).
Proof.
  induction 1 as [|taskId rest Hok _ IH]; cbn [app map].
  - by destruct (StopTasks ecs control after).
  - cbn [StopTasks]. unfold StopTask. rewrite Hok, IH. reflexivity.
Qed.

Lemma dotStar_no_newline s : Contains (Regexp.dotStar s) (String "010" "") = false.
Proof.
  induction s as [|c r IH]; [done|]. cbn [Regexp.dotStar].
  destruct (Ascii.eqb c "010") eqn:E; [done|].
  rewrite Contains_byte_cons, IH. by rewrite Ascii.eqb_sym, E.
Qed.

Lemma dotStar_id s : Contains s (String "010" "") = false -> Regexp.dotStar s = s.
Proof.
  induction s as [|c r IH]; [done|]. rewrite Contains_byte_cons.
  intros Hs. apply orb_false_iff in Hs as [E Hr]. cbn [Regexp.dotStar].
  rewrite Ascii.eqb_sym, E. by rewrite IH.
Qed.

Lemma logicalName_startedBy name :
  logicalName (startedBy name) = Some (Regexp.dotStar name).
Proof.
  unfold logicalName, startedBy. rewrite !append_cons, append_nil_l.
  cbn. by rewrite HasPrefix_empty.
Qed.

End LifecycleFacts.

Section LifecycleClaims.
Import GoStrings ECS Spec Lifecycle.

(** X1.  [StopTasks] stops the tasks one call at a time in the order
    given.  When every call succeeds it has made one call per
    identifier.  When a call fails it exits with that error and the
    tasks after it are not stopped. *)
Theorem StopTasks_stops_in_order (ecs : ECS.ECS) (control : ControlAPI)
    (before after : list string) (taskId err : string) :
  Forall (fun id => stopTask control (stopTaskInput ecs id) = None) before ->
  StopTasks ecs control before =
    (map (fun id => Svc_StopTask (stopTaskInput ecs id)) before, Ret tt)
  /\ (stopTask control (stopTaskInput ecs taskId) = Some err ->
      StopTasks ecs control (before ++ taskId :: after) =
        (map (fun id => Svc_StopTask (stopTaskInput ecs id)) (before ++ [taskId]),
         ErrorExit err "Could not stop ECS task")).
Proof.
  intros Hbefore. split; [by apply StopTasks_all_stopped|].
  intros Hfail. rewrite StopTasks_app by done.
  cbn [StopTasks]. unfold StopTask. rewrite Hfail. cbn. by rewrite map_app.
Qed.

(** X1 at three tasks, the second of which the service refuses to
    stop. *)
Lemma StopTasks_stops_in_order_witness :
  StopTasks Fleet.ecs (refusing "t2") ["t1"; "t2"; "t3"] =
    ([Svc_StopTask (stopTaskInput Fleet.ecs "t1");
      Svc_StopTask (stopTaskInput Fleet.ecs "t2")],
     ErrorExit "InvalidParameterException" "Could not stop ECS task").
Proof.
  apply (StopTasks_stops_in_order Fleet.ecs (refusing "t2") ["t1"] ["t3"] "t2"
           "InvalidParameterException").
  - repeat constructor.
  - reflexivity.
Defined.

(** X2.  The tag [RunTask] gives to the tasks it starts under a name is
    the tag [DescribeTasksForTaskGroup] filters on for that name, and the
    grouping pattern of [ListTaskGroups] reads the name back from it: all
    of it when the name has no newline, and no more than its first line
    otherwise. *)
Theorem RunTask_tag_round_trip (ecs : ECS.ECS) (control : ControlAPI)
    (i : RunTaskInput) :
  (exists input,
     fst (RunTask control i) = [Svc_RunTask input] /\
     SdkRunTaskInput.StartedBy input = Some (startedBy (TaskName i)))
  /\ (exists rest,
        fst (DescribeTasksForTaskGroup ecs (TaskName i)) =
          ECS.Svc_ListTasksPages (taskGroupInput ecs (TaskName i)) :: rest /\
        awsecs.ListTasksInput.StartedBy (taskGroupInput ecs (TaskName i)) =
          Some (startedBy (TaskName i)))
  /\ logicalName (startedBy (TaskName i)) = Some (Regexp.dotStar (TaskName i))
  /\ (Contains (TaskName i) (String "010" "") = false ->
      logicalName (startedBy (TaskName i)) = Some (TaskName i))
  /\ Contains (Regexp.dotStar (TaskName i)) (String "010" "") = false.
Proof.
  split_and!.
  - by eexists.
  - unfold DescribeTasksForTaskGroup, listTasks.
    destruct (listTasks_batches ecs (taskGroupInput ecs (TaskName i)))
      as [batches [e|]]; cbn [tbind call].
    + exists []. by split.
    + destruct (if (0 <? length batches)%nat then batchesLoop ecs batches []
                else tret []) as [tr out]. exists tr. by split.
  - apply logicalName_startedBy.
  - intros Hline. by rewrite logicalName_startedBy, dotStar_id.
  - apply dotStar_no_newline.
Qed.

(** X2 at the name [web]. *)
Lemma RunTask_tag_round_trip_witness :
  logicalName (startedBy "web") = Some "web".
Proof.
  apply (RunTask_tag_round_trip Fleet.ecs (refusing "")
           {| ClusterName := "fargate"; Count := 1; SecurityGroupIds := [];
              SubnetIds := []; TaskDefinitionArn := "arn:aws:ecs:task-definition/web:3";
              TaskName := "web" |}).
  reflexivity.
Defined.

End LifecycleClaims.

(** ** More on the inventory *)

Section InventoryFacts.
Import GoStrings ECS Spec Lifecycle.

Lemma sum_indicator (name : string) (names : list string) :
  List.NoDup names -> In name names ->
  fold_right Nat.add 0%nat
    (map (fun other => if String.eqb other name then 1 else 0)%nat names) = 1%nat.
Proof.
  induction 1 as [|head rest Hfresh Hdistinct IH]; [done|].
  cbn [map fold_right]. intros [->|Hin].
  - rewrite String.eqb_refl. f_equal.
    clear IH Hdistinct. induction rest as [|other rest IH]; [done|].
    cbn [map fold_right]. destruct (String.eqb_spec other name) as [->|_].
    + exfalso. apply Hfresh. by left.
    + apply IH. intros Hin. apply Hfresh. by right.
  - destruct (String.eqb_spec head name) as [->|_]; [done|]. by apply IH.
Qed.

Lemma sum_occurrences (distinct names : list string) :
  List.NoDup distinct -> (forall name, In name names -> In name distinct) ->
  fold_right Nat.add 0%nat (map (fun name => occurrences name names) distinct)
    = length names.
Proof.
  intros Hdistinct. induction names as [|head rest IH]; intros Hcover.
  - clear. induction distinct as [|x l IHl]; [done|]. cbn. exact IHl.
  - assert (Hsplit : forall l,
      fold_right Nat.add 0%nat (map (fun name => occurrences name (head :: rest)) l) =
      (fold_right Nat.add 0%nat
         (map (fun other => if String.eqb other head then 1 else 0)%nat l) +
       fold_right Nat.add 0%nat (map (fun name => occurrences name rest) l))%nat).
    { induction l as [|x l IHl]; [done|]. cbn [map fold_right]. rewrite IHl.
      unfold occurrences at 1. cbn [List.filter].
      destruct (String.eqb x head); cbn [length]; unfold occurrences; lia. }
    rewrite Hsplit, sum_indicator, IH; [done| |done|].
    + intros name Hin. apply Hcover. by right.
    + apply Hcover. by left.
Qed.

Lemma totalInstances_tally names :
  totalInstances (tally names) = Z.of_nat (length names).
Proof.
  rewrite <- (sum_occurrences (firstSeen names) names)
    by (apply firstSeen_NoDup || (intros; by apply firstSeen_In)).
  unfold totalInstances, tally. rewrite List.map_map. cbn [Instances].
  induction (firstSeen names) as [|name rest IH]; [done|].
  cbn [map fold_right]. rewrite IH. lia.
Qed.

Lemma logicalNames_matching tasks :
  length (logicalNames tasks) = length (List.filter matchesPattern tasks).
Proof.
  induction tasks as [|task rest IH]; [done|].
  rewrite logicalNames_cons. cbn [List.filter]. unfold matchesPattern at 1.
  destruct (logicalName (StartedBy task)); cbn; by rewrite ?IH.
Qed.

Lemma HasPrefix_split s p :
  HasPrefix s p = true -> s = p +:+ dropBytes (String.length p) s.
Proof.
  revert s. induction p as [|c p IH]; intros s Hs; [done|].
  destruct s as [|d s]; [done|]. cbn [HasPrefix] in Hs.
  destruct (Ascii.eqb_spec c d) as [->|]; [|done].
  rewrite append_cons. cbn [String.length dropBytes]. f_equal. by apply IH.
Qed.

Lemma dotStar_prefix s : exists rest, s = Regexp.dotStar s +:+ rest.
Proof.
  induction s as [|c r [rest IH]]; [by exists ""|]. cbn [Regexp.dotStar].
  destruct (Ascii.eqb c "010").
  - by exists (String c r).
  - exists rest. rewrite append_cons. by f_equal.
Qed.

Lemma FindStringSubmatch_shape s :
  Regexp.taskGroupStartedBy_FindStringSubmatch s = [] /\ Contains s "fargate:" = false
  \/ exists name,
       Regexp.taskGroupStartedBy_FindStringSubmatch s = ["fargate:" +:+ name; name] /\
       Contains s "fargate:" = true /\
       Contains s ("fargate:" +:+ name) = true /\
       Contains name (String "010" "") = false.
Proof.
  assert (Hhere : forall t, HasPrefix t "fargate:" = true ->
    exists name,
      ["fargate:" +:+ Regexp.dotStar (dropBytes 8 t); Regexp.dotStar (dropBytes 8 t)]
        = ["fargate:" +:+ name; name] /\
      Contains t "fargate:" = true /\
      Contains t ("fargate:" +:+ name) = true /\
      Contains name (String "010" "") = false).
  { intros t Ht. exists (Regexp.dotStar (dropBytes 8 t)).
    split; [done|]. split; [by apply Contains_HasPrefix|].
    split; [|apply dotStar_no_newline].
    destruct (dotStar_prefix (dropBytes 8 t)) as [rest Hrest].
    rewrite (HasPrefix_split _ _ Ht) at 1. cbn [String.length].
    rewrite Hrest at 1. rewrite <- append_assoc.
    apply (Contains_app "" _ rest). }
  induction s as [|c r IH].
  - left. by split.
  - cbn [Regexp.taskGroupStartedBy_FindStringSubmatch].
    destruct (HasPrefix (String c r) "fargate:") eqn:Hprefix.
    + right. by apply Hhere.
    + destruct IH as [[Hnone Hnot]|(name & Hsome & Hin & Hname & Hline)].
      * left. split; [done|]. cbn [Contains]. by rewrite Hprefix, Hnot.
      * right. exists name. split; [done|]. cbn [Contains].
        rewrite Hin, Hname, !orb_true_r. by split_and!.
Qed.

Lemma matchesPattern_Contains task :
  matchesPattern task = Contains (StartedBy task) "fargate:".
Proof.
  unfold matchesPattern, logicalName.
  destruct (FindStringSubmatch_shape (StartedBy task))
    as [[-> ->]|(name & -> & -> & _)]; reflexivity.
Qed.

Lemma lift_Ret_inv {E A} (o : Outcome A) (tr : list E) a :
  lift o = (tr, Ret a) -> o = Ret a /\ tr = [].
Proof. unfold lift. by intros [= <- ->]. Qed.

Lemma envLoop_app environment envVars :
  envLoop environment envVars = envVars ++ envVarsOf environment.
Proof.
  revert envVars. induction environment as [|e rest IH]; intros envVars; cbn.
  - by rewrite app_nil_r.
  - by rewrite IH, <- app_assoc.
Qed.

Lemma describeOne_Ret ecs t tr task :
  describeOne ecs t = (tr, Ret task) ->
  tr = [Ecs_DescribeTaskDefinition (aws.StringValue (awsecs.TaskDefinitionArn t))] /\
  StartedBy task = aws.StringValue (awsecs.StartedBy t) /\
  exists taskDefinition container0,
    DescribeTaskDefinition ecs (aws.StringValue (awsecs.TaskDefinitionArn t))
      = Ret taskDefinition /\
    awsecs.ContainerDefinitions
      (awsecs.DescribeTaskDefinitionOutput.TaskDefinition taskDefinition) !! 0%nat
      = Some container0 /\
    Image task = aws.StringValue (awsecs.Image container0) /\
    EnvVars task = envVarsOf (awsecs.Environment container0).
Proof.
  unfold describeOne. intros Hrun.
  apply tbind_Ret_inv in Hrun as (? & taskID & ? & H1 & Hrun & ->).
  apply lift_Ret_inv in H1 as [_ ->].
  apply tbind_Ret_inv in Hrun as (? & taskDefinition & ? & H1 & Hrun & ->).
  apply call_Ret_inv in H1 as [Hdefinition ->].
  apply tbind_Ret_inv in Hrun as (? & container0 & ? & H1 & Hrun & ->).
  apply lift_Ret_inv in H1 as [Hcontainer ->].
  apply tbind_Ret_inv in Hrun as (? & [[found eniId] subnetId] & ? & H1 & Hrun & ->).
  apply lift_Ret_inv in H1 as [_ ->].
  apply tret_inv in Hrun as [<- ->].
  split; [done|]. split; [done|].
  exists taskDefinition, container0. split; [done|]. split.
  - unfold index in Hcontainer.
    by destruct (_ !! 0%nat) as [x|]; [injection Hcontainer as ->|].
  - split; [done|]. cbn [EnvVars]. by rewrite envLoop_app.
Qed.

Lemma describeLoop_Ret ecs remote tasks tr result :
  describeLoop ecs remote tasks = (tr, Ret result) ->
  exists described,
    result = tasks ++ described /\
    Forall2 (fun t task => snd (describeOne ecs t) = Ret task) remote described /\
    tr = map (fun t => Ecs_DescribeTaskDefinition
                         (aws.StringValue (awsecs.TaskDefinitionArn t))) remote.
Proof.
  revert tasks tr. induction remote as [|t rest IH]; intros tasks tr Hrun;
    cbn [describeLoop] in Hrun.
  - apply tret_inv in Hrun as [<- ->]. exists []. by rewrite app_nil_r.
  - apply tbind_Ret_inv in Hrun as (tr1 & task & tr2 & H1 & Hrun & ->).
    destruct (IH _ _ Hrun) as (described & -> & Hall & ->).
    pose proof (describeOne_Ret _ _ _ _ H1) as [-> _].
    exists (task :: described). rewrite <- app_assoc. split; [done|].
    split; [|done]. constructor; [by rewrite H1|done].
Qed.

End InventoryFacts.

Section InventoryClaims.
Import GoStrings ECS Spec.

(** X3.  The counters of the groups [ListTaskGroups] returns add up to
    the number of listed tasks whose started-by tag contains [fargate:]:
    every such task is counted once, in one group, and no other task is
    counted. *)
Theorem ListTaskGroups_counts_each_tagged_task (ecs : ECS.ECS)
    (trace : list ECS.Event) (tasks : list Task) :
  listTasks ecs (clusterInput ecs) = (trace, Ret tasks) ->
  (Z.of_nat (length tasks) < 2 ^ 63)%Z ->
  exists groups,
    snd (ListTaskGroups ecs) = Ret groups /\
    Lifecycle.totalInstances groups =
      Z.of_nat (length (List.filter
                          (fun task => Contains (StartedBy task) "fargate:") tasks)).
Proof.
  intros Hlist Hbound. exists (groupLoop tasks []). split.
  - unfold ListTaskGroups. by rewrite Hlist.
  - rewrite groupLoop_tally, totalInstances_tally, logicalNames_matching by done.
    do 2 f_equal. apply List.filter_ext. intros task. apply matchesPattern_Contains.
Qed.

(** X3 at the sample inventory: three of its four tasks are tagged. *)
Lemma ListTaskGroups_counts_each_tagged_task_witness :
  exists groups,
    snd (ListTaskGroups Fleet.ecs) = Ret groups /\ Lifecycle.totalInstances groups = 3%Z.
Proof.
  destruct (ListTaskGroups_counts_each_tagged_task Fleet.ecs Fleet.trace Fleet.tasks)
    as (groups & Hrun & Htotal).
  - reflexivity.
  - cbn. lia.
  - exists groups. split; [exact Hrun|]. rewrite Htotal. reflexivity.
Defined.

(** X4.  The grouping loop passes over a task whose tag does not
    contain [fargate:].  A task whose tag contains it, at the start or
    after any prefix, is counted under a name that follows an occurrence
    of [fargate:] in the tag and has no newline. *)
Theorem groupLoop_counts_tag_anywhere (task : Task) (rest : list Task)
    (groups : list TaskGroup) :
  (Contains (StartedBy task) "fargate:" = false ->
   groupLoop (task :: rest) groups = groupLoop rest groups)
  /\ (Contains (StartedBy task) "fargate:" = true ->
      exists name,
        groupLoop (task :: rest) groups = groupLoop rest (countTask name groups) /\
        Contains (StartedBy task) ("fargate:" +:+ name) = true /\
        Contains name (String "010" "") = false).
Proof.
  cbn [groupLoop].
  destruct (FindStringSubmatch_shape (StartedBy task))
    as [[-> ->]|(name & -> & -> & Hname & Hline)].
  - by split.
  - split; [done|]. intros _. by exists name.
Qed.

(** X4 at a tag that carries [fargate:] after a prefix. *)
Lemma groupLoop_counts_tag_anywhere_witness :
  exists name,
    groupLoop [ {| Cpu := "256"; CreatedAt := 0; DeploymentId := "3";
                   DesiredStatus := "RUNNING"; EniId := ""; EnvVars := [];
                   Image := ""; LastStatus := "RUNNING"; Memory := "512";
                   SecurityGroupIds := []; StartedBy := "ecs-svc/fargate:web";
                   SubnetId := ""; TaskId := "t9"; TaskRole := "" |} ] []
      = groupLoop [] (countTask name []) /\
    Contains "ecs-svc/fargate:web" ("fargate:" +:+ name) = true /\
    Contains name (String "010" "") = false.
Proof.
  apply (groupLoop_counts_tag_anywhere
           {| Cpu := "256"; CreatedAt := 0; DeploymentId := "3";
              DesiredStatus := "RUNNING"; EniId := ""; EnvVars := [];
              Image := ""; LastStatus := "RUNNING"; Memory := "512";
              SecurityGroupIds := []; StartedBy := "ecs-svc/fargate:web";
              SubnetId := ""; TaskId := "t9"; TaskRole := "" |} [] []).
  reflexivity.
Defined.

(** X5.  When the listing delivers no identifier, whether it has no
    page or only empty pages, [listTasks] returns no task and its only
    remote call is the listing. *)
Theorem listTasks_without_identifiers (ecs : ECS.ECS)
    (input : awsecs.ListTasksInput.t) (pages : list awsecs.ListTasksOutput.t) :
  awsecs.listTasksPages (svc ecs) input = (pages, None) ->
  Forall (fun resp => awsecs.ListTasksOutput.TaskArns resp = []) pages ->
  listTasks ecs input = ([Svc_ListTasksPages input], Ret []).
Proof.
  intros Hpages Hempty. rewrite (listTasks_unfold _ _ _ _ Hpages).
  assert (Hnone : List.filter nonEmpty (pageBatches pages) = []).
  { clear Hpages. induction Hempty as [|resp rest Hresp _ IH]; [done|].
    change (pageBatches (resp :: rest))
      with (aws.StringValueSlice (awsecs.ListTasksOutput.TaskArns resp)
            :: pageBatches rest).
    rewrite Hresp. exact IH. }
  by rewrite Hnone.
Qed.

(** X5 at a listing of two empty pages. *)
Lemma listTasks_without_identifiers_witness :
  listTasks
    {| ClusterName := "fargate";
       svc := {| awsecs.listTasksPages := fun _ =>
                   ([ {| awsecs.ListTasksOutput.TaskArns := [] |};
                      {| awsecs.ListTasksOutput.TaskArns := [] |} ], None);
                 awsecs.describeTasks := fun _ => inr "unreachable" |};
       GetRevisionNumber := fun arn => arn;
       DescribeTaskDefinition := fun _ => ErrorExit "unreachable" "" |}
    (clusterInput Fleet.ecs)
  = ([Svc_ListTasksPages (clusterInput Fleet.ecs)], Ret []).
Proof.
  apply (listTasks_without_identifiers _ _
           [ {| awsecs.ListTasksOutput.TaskArns := [] |};
             {| awsecs.ListTasksOutput.TaskArns := [] |} ]).
  - reflexivity.
  - repeat constructor.
Defined.

(** X6.  A call of [DescribeTasks] with identifiers that returns has
    made one describe call and then one task definition lookup per
    record of the response, in order; it returns one task per record, in
    the order of the response, each with the started-by tag of its
    record and with the image and the environment, in order, of the
    first container of its task definition. *)
Theorem DescribeTasks_one_task_per_record (ecs : ECS.ECS) (taskIds : list string)
    (trace : list ECS.Event) (tasks : list Task) :
  taskIds <> [] ->
  DescribeTasks ecs taskIds = (trace, Ret tasks) ->
  exists input resp,
    awsecs.describeTasks (svc ecs) input = inl resp /\
    awsecs.DescribeTasksInput.Tasks input = map Some taskIds /\
    trace = Svc_DescribeTasks input
            :: map (fun t => Ecs_DescribeTaskDefinition
                               (aws.StringValue (awsecs.TaskDefinitionArn t)))
                 (awsecs.DescribeTasksOutput.Tasks resp) /\
    Forall2 (fun t task =>
               StartedBy task = aws.StringValue (awsecs.StartedBy t) /\
               exists taskDefinition container0,
                 DescribeTaskDefinition ecs
                   (aws.StringValue (awsecs.TaskDefinitionArn t)) = Ret taskDefinition /\
                 awsecs.ContainerDefinitions
                   (awsecs.DescribeTaskDefinitionOutput.TaskDefinition taskDefinition)
                   !! 0%nat = Some container0 /\
                 Image task = aws.StringValue (awsecs.Image container0) /\
                 EnvVars task = Lifecycle.envVarsOf (awsecs.Environment container0))
      (awsecs.DescribeTasksOutput.Tasks resp) tasks.
Proof.
  intros Hids Hrun. unfold DescribeTasks in Hrun.
  destruct taskIds as [|id rest]; [done|]. cbn [length Nat.eqb] in Hrun.
  apply tbind_Ret_inv in Hrun as (tr1 & resp & tr2 & H1 & Hrun & ->).
  apply call_Ret_inv in H1 as [Hresp ->].
  destruct (awsecs.describeTasks _ _) as [resp'|err] eqn:Hdescribe; [|done].
  injection Hresp as ->.
  apply describeLoop_Ret in Hrun as (described & -> & Hall & ->).
  eexists _, resp. split; [exact Hdescribe|]. split; [done|]. split; [done|].
  cbn [app]. eapply Forall2_impl; [exact Hall|].
  intros t task Hone. cbv beta in Hone.
  destruct (describeOne ecs t) as [tr out] eqn:Ht.
  change (out = Ret task) in Hone. rewrite Hone in Ht.
  by apply describeOne_Ret in Ht as (_ & ? & ?).
Qed.

(** X6 at the first page of the sample inventory. *)
Lemma DescribeTasks_one_task_per_record_witness :
  exists input resp,
    awsecs.describeTasks Fleet.api input = inl resp /\
    length (awsecs.DescribeTasksOutput.Tasks resp) = 2%nat /\
    fst (DescribeTasks Fleet.ecs
           ["arn:aws:ecs:task/fargate/t1"; "arn:aws:ecs:task/fargate/t2"])
      = Svc_DescribeTasks input
        :: map (fun t => Ecs_DescribeTaskDefinition
                           (aws.StringValue (awsecs.TaskDefinitionArn t)))
             (awsecs.DescribeTasksOutput.Tasks resp).
Proof.
  destruct (DescribeTasks_one_task_per_record Fleet.ecs
              ["arn:aws:ecs:task/fargate/t1"; "arn:aws:ecs:task/fargate/t2"]
              (fst (DescribeTasks Fleet.ecs
                      ["arn:aws:ecs:task/fargate/t1"; "arn:aws:ecs:task/fargate/t2"]))
              (firstn 2 Fleet.tasks))
    as (input & resp & Hdescribe & Hids & Htrace & Hall).
  - discriminate.
  - reflexivity.
  - exists input, resp. split; [exact Hdescribe|]. split; [|exact Htrace].
    apply Forall2_length in Hall. exact Hall.
Defined.

(** X7.  [determineENIDetails] returns exactly when every attachment
    of the record carries a type: for an attachment without one the
    dereference of its type panics, also when an earlier attachment is a
    network interface. *)
Theorem determineENIDetails_returns_iff_typed (t : awsecs.Task) :
  returns (determineENIDetails t) = true <->
  Forall (fun attachment => is_Some (awsecs.Type_ attachment)) (awsecs.Attachments t).
Proof.
  split.
  - intros Hret. apply Forall_forall. intros attachment Hin.
    destruct (awsecs.Type_ attachment) as [type0|] eqn:Htype; [by eexists|].
    exfalso. unfold determineENIDetails in Hret.
    destruct (awsecs.Attachments t) as [|a rest] eqn:Hatt; [by inversion Hin|].
    cbn [length Nat.ltb Nat.leb] in Hret.
    rewrite attachmentsLoop_untyped in Hret; [done|].
    apply Exists_exists. eauto.
  - intros Htyped. by rewrite determineENIDetails_typed.
Qed.

(** X8.  When the task definition of the first record of a response has
    no container definition, [DescribeTasks] panics on the index of the
    first container, after the describe call and one lookup. *)
Theorem DescribeTasks_without_container (ecs : ECS.ECS) (taskIds : list string)
    (resp : awsecs.DescribeTasksOutput.t) (t : awsecs.Task) (rest : list awsecs.Task)
    (taskDefinition : awsecs.DescribeTaskDefinitionOutput.t) :
  taskIds <> [] ->
  awsecs.describeTasks (svc ecs)
    {| awsecs.DescribeTasksInput.Cluster := Some (ClusterName ecs);
       awsecs.DescribeTasksInput.Tasks := map Some taskIds |} = inl resp ->
  awsecs.DescribeTasksOutput.Tasks resp = t :: rest ->
  DescribeTaskDefinition ecs (aws.StringValue (awsecs.TaskDefinitionArn t))
    = Ret taskDefinition ->
  awsecs.ContainerDefinitions
    (awsecs.DescribeTaskDefinitionOutput.TaskDefinition taskDefinition) = [] ->
  DescribeTasks ecs taskIds =
    ([Svc_DescribeTasks
        {| awsecs.DescribeTasksInput.Cluster := Some (ClusterName ecs);
           awsecs.DescribeTasksInput.Tasks := map Some taskIds |};
      Ecs_DescribeTaskDefinition (aws.StringValue (awsecs.TaskDefinitionArn t))],
     Panic "index out of range").
Proof.
  intros Hids Hdescribe Htasks Hdefinition Hnone. unfold DescribeTasks.
  destruct taskIds as [|id ids]; [done|]. cbn [length Nat.eqb].
  unfold aws.String, aws.StringSlice. rewrite Hdescribe. cbn [tbind call].
  rewrite Htasks. cbn [describeLoop]. unfold describeOne.
  destruct (genSplit_last (String.length (aws.StringValue (awsecs.TaskArn t)))
              (aws.StringValue (awsecs.TaskArn t)) (le_n _))
    as (init & final & Hsplit & _).
  unfold Split, SplitN. cbn [Z.eqb Z.ltb Z.compare].
  rewrite Hsplit, index_last, tbind_lift_Ret, Hdefinition. cbn [tbind call].
  rewrite Hnone. reflexivity.
Qed.

(** X8 at the sample service with a task definition that has lost its
    containers. *)
Lemma DescribeTasks_without_container_witness :
  snd (DescribeTasks
         {| ClusterName := "fargate"; svc := Fleet.api;
            GetRevisionNumber := fun arn => arn;
            DescribeTaskDefinition := fun _ =>
              Ret {| awsecs.DescribeTaskDefinitionOutput.TaskDefinition :=
                       {| awsecs.ContainerDefinitions := [];
                          awsecs.TaskRoleArn := None |} |} |}
         ["arn:aws:ecs:task/fargate/t3"])
  = Panic "index out of range".
Proof.
  rewrite (DescribeTasks_without_container
             {| ClusterName := "fargate"; svc := Fleet.api;
                GetRevisionNumber := fun arn => arn;
                DescribeTaskDefinition := fun _ =>
                  Ret {| awsecs.DescribeTaskDefinitionOutput.TaskDefinition :=
                           {| awsecs.ContainerDefinitions := [];
                              awsecs.TaskRoleArn := None |} |} |}
             ["arn:aws:ecs:task/fargate/t3"]
             {| awsecs.DescribeTasksOutput.Tasks :=
                  [Fleet.remoteTask "arn:aws:ecs:task/fargate/t3" "fargate:worker" []] |}
             (Fleet.remoteTask "arn:aws:ecs:task/fargate/t3" "fargate:worker" []) []
             {| awsecs.DescribeTaskDefinitionOutput.TaskDefinition :=
                  {| awsecs.ContainerDefinitions := [];
                     awsecs.TaskRoleArn := None |} |});
    [reflexivity | discriminate | reflexivity..].
Defined.

End InventoryClaims.

(** ** More on the setters *)

Section SetterFacts.
Import GoStrings cmd Spec.
Context `{R : GoRuntime}.

Lemma isASCII_app a b : isASCII (a +:+ b) = isASCII a && isASCII b.
Proof.
  induction a as [|c a IH]; [done|]. rewrite append_cons. cbn [isASCII].
  by rewrite IH, andb_assoc.
Qed.

Lemma upperASCII_app a b : upperASCII (a +:+ b) = upperASCII a +:+ upperASCII b.
Proof.
  induction a as [|c a IH]; [done|]. rewrite !append_cons. cbn [upperASCII].
  by rewrite append_cons, IH.
Qed.

Lemma Contains_byte_app c a b :
  Contains (a +:+ b) (String c "") = Contains a (String c "") || Contains b (String c "").
Proof.
  induction a as [|d a IH]; [done|]. rewrite append_cons, !Contains_byte_cons, IH.
  by rewrite orb_assoc.
Qed.

Lemma matchesToEnd_somewhere lit a :
  Regexp.matchesToEnd lit lit = true ->
  Regexp.somewhere (Regexp.matchesToEnd lit) (a +:+ lit) = true.
Proof.
  intros Hlit. induction a as [|c a IH].
  - rewrite append_nil_l. destruct lit; cbn [Regexp.somewhere]; by rewrite Hlit.
  - rewrite append_cons. cbn [Regexp.somewhere]. by rewrite IH, orb_true_r.
Qed.

Lemma stripFirst_head c (vs : list string) r :
  Regexp.stripFirst (String c "" :: vs) (String c r) = Some r.
Proof.
  cbn [Regexp.stripFirst HasPrefix]. by rewrite Ascii.eqb_refl, HasPrefix_empty.
Qed.

Lemma validRuleTypes_host_prefix extra :
  Regexp.validRuleTypes_MatchString ("host" +:+ extra) = true.
Proof.
  unfold Regexp.validRuleTypes_MatchString.
  rewrite !append_cons, append_nil_l.
  assert (Hmatch : Regexp.matchFold "host"
                     (String "h" (String "o" (String "s" (String "t" extra))))
                   = Some extra).
  { cbn [Regexp.matchFold].
    change (Regexp.foldVariants "h") with ["h"; "H"].
    change (Regexp.foldVariants "o") with ["o"; "O"].
    change (Regexp.foldVariants "s") with ["s"; "S"; Regexp.longS].
    change (Regexp.foldVariants "t") with ["t"; "T"].
    by rewrite !stripFirst_head. }
  rewrite Hmatch. by rewrite bool_decide_eq_true_2 by eauto.
Qed.

Lemma validRuleTypes_path_suffix extra :
  Regexp.validRuleTypes_MatchString (extra +:+ "path") = true.
Proof.
  unfold Regexp.validRuleTypes_MatchString.
  rewrite matchesToEnd_somewhere by reflexivity. apply orb_true_r.
Qed.

(** One well-formed entry behind a load balancer. *)
Lemma SetRules_single o type0 value :
  LoadBalancerArn o <> "" ->
  Contains type0 "=" = false ->
  isASCII type0 = true ->
  Regexp.validRuleTypes_MatchString type0 = true ->
  SetRules o [type0 +:+ "=" +:+ value] =
    Ret (set_Rules o [ {| ELBV2.Type_ := upperASCII type0; ELBV2.Value := value |} ]).
Proof.
  intros Harn Hsep Hascii Hmatch.
  assert (Hcut : cutAt (type0 +:+ "=" +:+ value) "=" = Some (type0, value))
    by (by apply cutAt_byte_app).
  rewrite SetRules_separated.
  - unfold rulesViolations. cbn [flat_map map].
    unfold ruleViolations, parseRule, ruleType, ruleValue. rewrite Hcut, Hmatch.
    apply String.eqb_neq in Harn. rewrite Harn, andb_false_r. cbn [app length Nat.ltb Nat.leb].
    by rewrite strings_ToUpper_ascii.
  - constructor; [|constructor]. unfold hasSeparator. apply Contains_app.
Qed.

(** What a call of [SetRules] that returns has accepted. *)
Lemma SetRules_Ret o inputRules o' :
  SetRules o inputRules = Ret o' ->
  o' = set_Rules o (map parseRule inputRules) /\
  (inputRules = [] \/ LoadBalancerArn o <> "") /\
  Forall (fun rule => hasSeparator rule = true /\
                      Regexp.validRuleTypes_MatchString (ruleType rule) = true)
    inputRules.
Proof.
  intros Hrun.
  destruct (decide (Exists (fun rule => hasSeparator rule = false) inputRules))
    as [Hun|Hsep].
  { by rewrite SetRules_unseparated in Hrun. }
  assert (Hall : Forall (fun rule => hasSeparator rule = true) inputRules).
  { apply Forall_forall. intros rule Hin.
    destruct (hasSeparator rule) eqn:E; [done|].
    exfalso. apply Hsep, Exists_exists. eauto. }
  rewrite SetRules_separated in Hrun by done.
  destruct (rulesViolations o inputRules) as [|v vs] eqn:Hviolations; [|done].
  cbn in Hrun. injection Hrun as <-. split; [done|].
  unfold rulesViolations in Hviolations.
  apply app_eq_nil in Hviolations as [Hlb Hrules]. split.
  - destruct inputRules as [|rule rest]; [by left|right].
    cbn [length Nat.ltb Nat.leb andb] in Hlb.
    destruct (String.eqb_spec (LoadBalancerArn o) ""); [done|done].
  - clear Hlb Hsep. induction Hall as [|rule rest Hone _ IH]; [constructor|].
    cbn [flat_map] in Hrules. apply app_eq_nil in Hrules as [Hrule Hrest].
    constructor; [|by apply IH]. split; [done|].
    unfold ruleViolations in Hrule.
    by destruct (Regexp.validRuleTypes_MatchString (ruleType rule)).
Qed.

End SetterFacts.

Section SetterClaims.
Import GoStrings cmd Spec.

(** X9.  For a rule list whose entries all have a separator, [SetRules]
    sets the rules when there is no violation and otherwise exits with
    one error whose text joins every violation with a comma: first the
    missing load balancer, when the list is non-empty and none is
    configured, then one message for each entry whose type the pattern
    does not match, in the order of the entries. *)
Theorem SetRules_reports_every_violation (R : GoRuntime)
    (o : ServiceCreateOperation) (inputRules : list string) :
  Forall (fun rule => hasSeparator rule = true) inputRules ->
  let missingBalancer :=
    if (0 <? length inputRules)%nat && String.eqb (LoadBalancerArn o) ""
    then ["lb must be configured if rules are specified"] else [] in
  let badTypes :=
    map (fun rule => msgInvalidRuleType (ruleType rule))
      (List.filter (fun rule => negb (Regexp.validRuleTypes_MatchString (ruleType rule)))
         inputRules) in
  (missingBalancer ++ badTypes = [] ->
   SetRules o inputRules = Ret (set_Rules o (map parseRule inputRules)))
  /\ (missingBalancer ++ badTypes <> [] ->
      SetRules o inputRules =
        ErrorExit (fmt_Errorf0 (Join (missingBalancer ++ badTypes) ", "))
          "Invalid rule").
Proof.
  intros Hall missingBalancer badTypes. rewrite SetRules_separated by done.
  assert (Hsame : rulesViolations o inputRules = missingBalancer ++ badTypes).
  { unfold rulesViolations. f_equal. subst badTypes. clear.
    induction inputRules as [|rule rest IH]; [done|].
    cbn [flat_map List.filter]. unfold ruleViolations at 1.
    destruct (Regexp.validRuleTypes_MatchString (ruleType rule)); cbn; by rewrite IH. }
  rewrite Hsame. split.
  - by intros ->.
  - intros Hsome. by destruct (missingBalancer ++ badTypes).
Qed.

(** X9 at two entries with unknown types and no load balancer: three
    violations in one error. *)
Lemma SetRules_reports_every_violation_witness :
  SetRules (Examples.onHttp "application") ["foo=1"; "host=a"; "bar=2"] =
    ErrorExit
      "lb must be configured if rules are specified, Invalid rule type foo [must be path or host], Invalid rule type bar [must be path or host]"
      "Invalid rule".
Proof.
  apply (SetRules_reports_every_violation asciiRuntime (Examples.onHttp "application")
           ["foo=1"; "host=a"; "bar=2"]).
  - repeat constructor.
  - discriminate.
Defined.

(** X10.  The rule-type pattern is [host] at the start or [path] at the
    end of the type, not the whole type: behind a load balancer
    [SetRules] accepts a type that continues after [host] and a type that
    ends in [path], and stores it in upper case. *)
Theorem SetRules_accepts_longer_types (R : GoRuntime) (o : ServiceCreateOperation)
    (extra value : string) :
  LoadBalancerArn o <> "" ->
  isASCII extra = true ->
  Contains extra "=" = false ->
  SetRules o [("host" +:+ extra) +:+ "=" +:+ value] =
    Ret (set_Rules o [ {| ELBV2.Type_ := "HOST" +:+ upperASCII extra;
                          ELBV2.Value := value |} ])
  /\ SetRules o [(extra +:+ "path") +:+ "=" +:+ value] =
       Ret (set_Rules o [ {| ELBV2.Type_ := upperASCII extra +:+ "PATH";
                             ELBV2.Value := value |} ]).
Proof.
  intros Harn Hascii Hsep. split.
  - rewrite SetRules_single;
      [ by rewrite upperASCII_app | done | by rewrite Contains_byte_app, Hsep
      | by rewrite isASCII_app, Hascii | apply validRuleTypes_host_prefix ].
  - rewrite SetRules_single;
      [ by rewrite upperASCII_app | done | by rewrite Contains_byte_app, Hsep
      | by rewrite isASCII_app, Hascii, andb_true_l
      | apply validRuleTypes_path_suffix ].
Qed.

(** X10 at the types [hostname] and [xpath]. *)
Lemma SetRules_accepts_longer_types_witness :
  SetRules Examples.behindAlb ["hostname=a"] =
    Ret (set_Rules Examples.behindAlb
           [ {| ELBV2.Type_ := "HOSTNAME"; ELBV2.Value := "a" |} ]).
Proof.
  apply (SetRules_accepts_longer_types asciiRuntime Examples.behindAlb "name" "a");
    [discriminate | reflexivity | reflexivity].
Defined.

(** X11.  Whatever port [inflatePort] makes of the input and whatever
    the protocol pattern is, [SetPort] sets the port exactly when the
    pattern matches its protocol and its number is between 1 and 65535;
    otherwise nothing is set and the one error names the protocol when
    the pattern does not match it and the number when it is out of
    range. *)
Theorem SetPort_checks_any_port (R : GoRuntime) (inflate : string -> Port.t)
    (valid : string -> bool) (o : ServiceCreateOperation) (inputPort : string) :
  let port := inflate inputPort in
  let run := SetPort inflate valid o inputPort in
  (returns run = true <->
     valid (Port.Protocol port) = true /\ (1 <= Port.Port port <= 65535)%Z)
  /\ (returns run = true -> run = Ret (set_Port o port))
  /\ (returns run = false ->
      exists violations,
        run = ErrorExit (fmt_Errorf0 (Join violations ", "))
                "Invalid command line flags" /\
        (valid (Port.Protocol port) = false <->
         In (msgInvalidProtocol (Port.Protocol port)) violations) /\
        (~ (1 <= Port.Port port <= 65535)%Z ->
         In (msgInvalidPort (Port.Port port)) violations)).
Proof.
  intros port run. subst run. rewrite SetPort_aggregates. fold port.
  assert (Hrange : inPortRange (Port.Port port) = true <->
                   (1 <= Port.Port port <= 65535)%Z)
    by (unfold inPortRange; lia).
  unfold portViolations.
  destruct (valid (Port.Protocol port)); destruct (inPortRange (Port.Port port));
    cbn [andb returns app]; split_and!; try done; try tauto;
    try (intros; exfalso; intuition congruence);
    try (split; [discriminate | intros [? ?]; intuition congruence]);
    intros _; eexists; (split; [reflexivity|]); cbn [In];
    (split; [split; [auto | intros [Heq|[]]; try done] | auto]).
  all: try (intros; exfalso; intuition congruence).
Qed.

(** X11 at the input [http:8080]. *)
Lemma SetPort_checks_any_port_witness :
  SetPort inflatePort validProtocols_MatchString (Examples.onHttp "application")
    "http:8080"
  = Ret (set_Port (Examples.onHttp "application") (inflatePort "http:8080")).
Proof.
  apply (proj1 (proj2 (SetPort_checks_any_port asciiRuntime inflatePort
                         validProtocols_MatchString (Examples.onHttp "application")
                         "http:8080"))).
  reflexivity.
Defined.

End SetterClaims.

(** ** More on the deployment *)

Section CommandFacts.
Import GoStrings cmd Spec Command.

(** A trace in which the creation of the service, if it occurs, is the
    last call. *)
Lemma createService_last_tbind {A B} (m : Traced Event A) (f : A -> Traced Event B) :
  Forall (fun ev => isCreateService ev = false) (fst m) ->
  (forall a, exists before,
     Forall (fun ev => isCreateService ev = false) before /\
     (fst (f a) = before \/ exists input, fst (f a) = before ++ [ECS_CreateService input])) ->
  exists before,
    Forall (fun ev => isCreateService ev = false) before /\
    (fst (tbind m f) = before \/
     exists input, fst (tbind m f) = before ++ [ECS_CreateService input]).
Proof.
  intros Hm Hf. destruct m as [tr1 [a|e msg|r]]; cbn [fst tbind] in *.
  - destruct (Hf a) as (before & Hbefore & Hshape).
    destruct (f a) as [tr2 o]. cbn [fst] in *.
    exists (tr1 ++ before). split; [by apply Forall_app|].
    destruct Hshape as [->|[input ->]]; [by left|right].
    exists input. by rewrite app_assoc.
  - exists tr1. split; [done|by left].
  - exists tr1. split; [done|by left].
Qed.

Lemma obind_Ret_inv {A B} (m : Outcome A) (f : A -> Outcome B) b :
  obind m f = Ret b -> exists a, m = Ret a /\ f a = Ret b.
Proof. destruct m as [a| |]; cbn; [by exists a|done..]. Qed.

End CommandFacts.

Section CommandClaims.
Import GoStrings cmd Spec Command.

(** X12.  [SetLoadBalancer] checks the protocol of network and
    application balancers only: a described balancer of any other kind is
    recorded whatever the configured protocol is.  When the describe call
    exits, so does [SetLoadBalancer], with the same error. *)
Theorem SetLoadBalancer_other_kinds (o : ServiceCreateOperation) (lb : string) :
  (forall loadBalancer,
     ELBV2.DescribeLoadBalancer (Elbv2 o) lb = Ret loadBalancer ->
     ELBV2.LoadBalancer_Type loadBalancer <> "network" ->
     ELBV2.LoadBalancer_Type loadBalancer <> "application" ->
     SetLoadBalancer o lb = Ret (set_LoadBalancer o lb (ELBV2.Arn loadBalancer)))
  /\ (forall err msg,
        ELBV2.DescribeLoadBalancer (Elbv2 o) lb = ErrorExit err msg ->
        SetLoadBalancer o lb = ErrorExit err msg).
Proof.
  split.
  - intros loadBalancer Hdescribe Hnet Happ.
    rewrite (SetLoadBalancer_unfold o lb loadBalancer Hdescribe).
    apply String.eqb_neq in Hnet, Happ. by rewrite Hnet, Happ.
  - intros err msg Hdescribe. unfold SetLoadBalancer. by rewrite Hdescribe.
Qed.

(** X12 at a balancer of kind [gateway] with the protocol HTTP. *)
Lemma SetLoadBalancer_other_kinds_witness :
  SetLoadBalancer (Examples.onHttp "gateway") "my-gwlb" =
    Ret (set_LoadBalancer (Examples.onHttp "gateway") "my-gwlb" "arn:lb/my-gwlb").
Proof.
  apply (proj1 (SetLoadBalancer_other_kinds (Examples.onHttp "gateway") "my-gwlb")
           {| ELBV2.LoadBalancer_Type := "gateway"; ELBV2.Arn := "arn:lb/my-gwlb" |});
    [reflexivity | discriminate | discriminate].
Defined.

(** X13.  A run of [createService] that completes ends with the
    registration of the task definition followed by the creation of the
    service.  The task definition carries the role and the log group the
    earlier calls returned and the image of the operation as the run
    leaves it; the service carries the subnets returned, the identity of
    the task definition just registered, and the target group of the
    wiring, which is empty without a load balancer. *)
Theorem createService_registers_then_creates (c : Collaborators)
    (operation operation' : ServiceCreateOperation) (trace : list Event) :
  createService c operation = (trace, Ret operation') ->
  exists before taskDefinitionInput serviceInput,
    trace = before ++ [ECS_CreateTaskDefinition taskDefinitionInput;
                       ECS_CreateService serviceInput] /\
    iam_CreateEcsTaskExecutionRole c =
      Ret (ECS.CreateTaskDefinitionInput.ExecutionRoleArn taskDefinitionInput) /\
    cwl_CreateLogGroup c (logGroupFormat c) (ServiceName operation) =
      Ret (ECS.CreateTaskDefinitionInput.LogGroupName taskDefinitionInput) /\
    ECS.CreateTaskDefinitionInput.Image taskDefinitionInput = Image operation' /\
    (Image operation <> "" -> Image operation' = Image operation) /\
    ECS.CreateTaskDefinitionInput.Name taskDefinitionInput = ServiceName operation /\
    ECS.CreateTaskDefinitionInput.Port taskDefinitionInput =
      Port.Port (Port operation) /\
    ec2_GetDefaultVpcSubnetIds c =
      Ret (ECS.CreateServiceInput.SubnetIds serviceInput) /\
    ecs_CreateTaskDefinition c taskDefinitionInput =
      Ret (ECS.CreateServiceInput.TaskDefinitionArn serviceInput) /\
    (LoadBalancerArn operation = "" ->
     ECS.CreateServiceInput.TargetGroupArn serviceInput = "") /\
    (LoadBalancerArn operation <> "" ->
     exists vpcId,
       ELBV2.CreateTargetGroup (Elbv2 operation) (targetGroupInput operation vpcId)
         = Ret (ECS.CreateServiceInput.TargetGroupArn serviceInput)).
Proof.
  unfold createService. intros Hrun.
  apply tbind_Ret_inv in Hrun as (tr0 & uri & ? & Hacq & Hrun & ->).
  apply tbind_Ret_inv in Hrun as (? & subnetIds & ? & H1 & Hrun & ->).
  apply call_Ret_inv in H1 as [Hsubnets ->].
  apply tbind_Ret_inv in Hrun as (? & role & ? & H1 & Hrun & ->).
  apply call_Ret_inv in H1 as [Hrole ->].
  apply tbind_Ret_inv in Hrun as (? & logGroupName & ? & H1 & Hrun & ->).
  apply call_Ret_inv in H1 as [Hlog ->].
  apply tbind_Ret_inv in Hrun as (tr2 & image & ? & Himage & Hrun & ->).
  apply tbind_Ret_inv in Hrun as (tr3 & targetGroupArn & ? & Hwire & Hrun & ->).
  apply tbind_Ret_inv in Hrun as (? & taskDefinitionArn & ? & H1 & Hrun & ->).
  apply call_Ret_inv in H1 as [Hregister ->].
  apply tbind_Ret_inv in Hrun as (? & u & ? & H1 & Hrun & ->).
  apply call_Ret_inv in H1 as [_ ->].
  apply tret_inv in Hrun as [<- ->].
  eexists (tr0 ++ [_; _; _] ++ tr2 ++ tr3), _, _.
  split; [by rewrite <- !app_assoc|].
  cbn [ECS.CreateTaskDefinitionInput.ExecutionRoleArn
       ECS.CreateTaskDefinitionInput.LogGroupName
       ECS.CreateTaskDefinitionInput.Image ECS.CreateTaskDefinitionInput.Name
       ECS.CreateTaskDefinitionInput.Port ECS.CreateServiceInput.SubnetIds
       ECS.CreateServiceInput.TaskDefinitionArn ECS.CreateServiceInput.TargetGroupArn].
  split; [exact Hrole|]. split; [exact Hlog|]. split; [reflexivity|].
  split.
  { intros Hgiven. rewrite resolveImage_given in Himage by done.
    by apply tret_inv in Himage as [<- _]. }
  split; [reflexivity|]. split; [reflexivity|].
  split; [exact Hsubnets|]. split; [exact Hregister|]. split.
  - intros Harn. rewrite wireLoadBalancer_unconfigured in Hwire by done.
    by apply tret_inv in Hwire as [<- _].
  - intros Harn. apply wireLoadBalancer_Ret in Hwire as (vpcId & _ & Hgroup & _);
      [|done]. by exists vpcId.
Qed.

(** X13 at the deployment behind [my-alb]. *)
Lemma createService_registers_then_creates_witness :
  exists before taskDefinitionInput serviceInput,
    fst (createService Deployments.collaborators Deployments.withPathRule) =
      before ++ [ECS_CreateTaskDefinition taskDefinitionInput;
                 ECS_CreateService serviceInput] /\
    ECS.CreateServiceInput.TargetGroupArn serviceInput = "arn:tg/my-alb-web".
Proof.
  destruct (createService_registers_then_creates Deployments.collaborators
              Deployments.withPathRule
              (set_Image Deployments.withPathRule "registry.example/web:abc1234")
              (fst (createService Deployments.collaborators Deployments.withPathRule)))
    as (before & taskDefinitionInput & serviceInput & Htrace & _ & _ & _ & _ & _ & _
        & _ & _ & _ & Hgroup).
  - reflexivity.
  - exists before, taskDefinitionInput, serviceInput. split; [exact Htrace|].
    destruct Hgroup as [vpcId Hgroup]; [discriminate|].
    cbn in Hgroup. by injection Hgroup as <-.
Defined.

(** X14.  In every run of [createService], complete or not, the
    creation of the service is called at most once and nothing is called
    after it. *)
Theorem createService_creates_last (c : Collaborators)
    (operation : ServiceCreateOperation) :
  exists before,
    Forall (fun ev => isCreateService ev = false) before /\
    (fst (createService c operation) = before \/
     exists input, fst (createService c operation) = before ++ [ECS_CreateService input]).
Proof.
  unfold createService.
  apply createService_last_tbind; [by apply acquireRepository_all|intros uri].
  apply createService_last_tbind; [by apply Forall_call|intros subnetIds].
  apply createService_last_tbind; [by apply Forall_call|intros role].
  apply createService_last_tbind; [by apply Forall_call|intros logGroupName].
  apply createService_last_tbind;
    [apply resolveImage_all; by intros []|intros image].
  apply createService_last_tbind;
    [by apply wireLoadBalancer_all|intros targetGroupArn].
  apply createService_last_tbind; [by apply Forall_call|intros taskDefinitionArn].
  exists []. split; [constructor|]. right. eexists.
  destruct (ecs_CreateService c _); reflexivity.
Qed.

(** X15.  The command reaches [createService] only with a configuration
    that every setter accepted: then the operation deployed has the name,
    the image and the compute shape of the command line, the port
    [inflatePort] made, the balancer described for the [lb] flag, the
    rules parsed from the [rule] flags, which are empty unless that
    balancer has an identity, and the environment extracted.  When a
    setter exits, the command makes no deployment call. *)
Theorem Run_deploys_configured_operation (R : GoRuntime)
    (validateCpuAndMemory : string -> string -> option string)
    (extractEnvVars : list string -> list ECS.EnvVar)
    (inflate : string -> Port.t) (valid : string -> bool)
    (heading : string -> list string -> string)
    (c : Collaborators) (elbv2 : ELBV2.ELBV2) (args0 : string) (flags : Flags) :
  let configured := configure validateCpuAndMemory extractEnvVars inflate valid heading
                      elbv2 args0 flags in
  let run := Run validateCpuAndMemory extractEnvVars inflate valid heading
               c elbv2 args0 flags in
  (returns configured = false -> fst run = [] /\ returns (snd run) = false)
  /\ (forall operation, configured = Ret operation ->
      run = createService c operation /\
      validateCpuAndMemory (flagServiceCreateCpu flags) (flagServiceCreateMemory flags)
        = None /\
      ServiceName operation = args0 /\
      Image operation = flagServiceCreateImage flags /\
      Cpu operation = flagServiceCreateCpu flags /\
      Memory operation = flagServiceCreateMemory flags /\
      Port operation = inflate (flagServiceCreatePort flags) /\
      (exists loadBalancer,
         ELBV2.DescribeLoadBalancer elbv2 (flagServiceCreateLb flags) = Ret loadBalancer /\
         LoadBalancerName operation = flagServiceCreateLb flags /\
         LoadBalancerArn operation = ELBV2.Arn loadBalancer) /\
      Rules operation = map parseRule (flagServiceCreateRules flags) /\
      (flagServiceCreateRules flags <> [] -> LoadBalancerArn operation <> "") /\
      EnvVars operation = extractEnvVars (flagServiceCreateEnvVars flags)).
Proof.
  intros configured run. subst run. unfold Run. fold configured. split.
  - intros Hfail. destruct configured as [operation|err msg|reason]; [done|done..].
  - intros operation Hconfigured. rewrite Hconfigured.
    split; [by rewrite tbind_lift_Ret|].
    subst configured. unfold configure in Hconfigured.
    apply obind_Ret_inv in Hconfigured as (u & Hvalidate & Hconfigured).
    apply obind_Ret_inv in Hconfigured as (o1 & Hport & Hconfigured).
    apply obind_Ret_inv in Hconfigured as (o2 & Hlb & Hconfigured).
    apply obind_Ret_inv in Hconfigured as (o3 & Hrules & Hconfigured).
    injection Hconfigured as <-.
    unfold Validate in Hvalidate. cbn [newOperation Cpu Memory] in Hvalidate.
    destruct (validateCpuAndMemory _ _) eqn:Hshape; [done|].
    rewrite SetPort_aggregates in Hport.
    destruct (valid _ && inPortRange _); [|done]. injection Hport as <-.
    unfold SetLoadBalancer in Hlb. cbn [set_Port Elbv2 newOperation] in Hlb.
    destruct (ELBV2.DescribeLoadBalancer elbv2 (flagServiceCreateLb flags))
      as [loadBalancer|e m|r] eqn:Hdescribe; [|done..].
    pose proof (SetLoadBalancer_unfold
                  (set_Port (newOperation elbv2 args0 flags)
                     (inflate (flagServiceCreatePort flags)))
                  (flagServiceCreateLb flags) loadBalancer Hdescribe) as Hunfold.
    unfold SetLoadBalancer in Hunfold. cbn [set_Port Elbv2 newOperation] in Hunfold.
    rewrite Hdescribe in Hunfold. rewrite Hunfold in Hlb. clear Hunfold.
    destruct (_ && _) in Hlb; [done|]. destruct (_ && _) in Hlb; [done|].
    injection Hlb as <-.
    apply SetRules_Ret in Hrules as (-> & Hbalancer & _).
    split; [done|]. split; [done|]. split; [done|]. split; [done|].
    split; [done|]. split; [done|]. split; [by exists loadBalancer|].
    split; [done|]. split; [|done].
    intros Hsome. by destruct Hbalancer.
Qed.

(** X15 at the flags of the specification's second deployment. *)
Lemma Run_deploys_configured_operation_witness :
  Run (fun _ _ => None) (fun _ => []) inflatePort validProtocols_MatchString
    (fun format _ => format) Deployments.collaborators (Examples.elbv2 "application")
    "web" (sampleFlags ["path=/api/*"])
  = createService Deployments.collaborators Deployments.withPathRule.
Proof.
  apply (proj2 (Run_deploys_configured_operation asciiRuntime (fun _ _ => None)
                  (fun _ => []) inflatePort validProtocols_MatchString
                  (fun format _ => format) Deployments.collaborators
                  (Examples.elbv2 "application") "web" (sampleFlags ["path=/api/*"]))).
  reflexivity.
Defined.

End CommandClaims.

(** ** The running time *)

Section UptimeFacts.
Import GoTime.
Local Open Scope Z_scope.

(** [Time.Sub] is the difference clamped to the range of a
    [Duration]. *)
Lemma Sub_clamped (t u : Z) :
  Sub t u = Z.max minDuration (Z.min maxDuration (t - u)).
Proof.
  unfold Sub, Add, minDuration, maxDuration.
  destruct (Z_le_gt_dec (- 2 ^ 63) (t - u)) as [Hlow|Hlow];
    [destruct (Z_le_gt_dec (t - u) (2 ^ 63 - 1)) as [Hhigh|Hhigh]|].
  - rewrite wrap64_small by lia.
    replace (u + (t - u) =? t) with true by (symmetry; apply Z.eqb_eq; lia). lia.
  - assert (- 2 ^ 63 <= ECS.wrap64 (t - u) < 2 ^ 63) as Hrange.
    { unfold ECS.wrap64.
      pose proof (Z.mod_pos_bound (t - u + 2 ^ 63) (2 ^ 64) ltac:(lia)). lia. }
    replace (u + ECS.wrap64 (t - u) =? t) with false
      by (symmetry; apply Z.eqb_neq; lia).
    replace (t <? u) with false by (symmetry; apply Z.ltb_ge; lia). lia.
  - assert (- 2 ^ 63 <= ECS.wrap64 (t - u) < 2 ^ 63) as Hrange.
    { unfold ECS.wrap64.
      pose proof (Z.mod_pos_bound (t - u + 2 ^ 63) (2 ^ 64) ltac:(lia)). lia. }
    replace (u + ECS.wrap64 (t - u) =? t) with false
      by (symmetry; apply Z.eqb_neq; lia).
    replace (t <? u) with true by (symmetry; apply Z.ltb_lt; lia). lia.
Qed.

Lemma Truncate_Second (d : Z) :
  Truncate d Second = Z.quot d Second * Second.
Proof.
  unfold Truncate, Second. cbn [Z.leb Z.compare].
  pose proof (Z.quot_rem' d 1000000000). lia.
Qed.

End UptimeFacts.

Section UptimeClaims.
Import GoTime Uptime.
Local Open Scope Z_scope.

(** X16.  [RunningFor] is a whole number of seconds.  While the time
    since the creation of the task fits a [Duration], it is that time
    with the fraction of a second dropped, towards zero for a creation
    time in the future; beyond that range it is the bound of the range,
    truncated likewise. *)
Theorem RunningFor_whole_seconds (now : Z) (t : ECS.Task) :
  let elapsed := now - ECS.CreatedAt t in
  Z.rem (RunningFor now t) Second = 0
  /\ (minDuration <= elapsed <= maxDuration ->
      RunningFor now t = Z.quot elapsed Second * Second /\
      Z.abs (RunningFor now t) <= Z.abs elapsed < Z.abs (RunningFor now t) + Second /\
      (0 <= elapsed -> 0 <= RunningFor now t) /\
      (elapsed <= 0 -> RunningFor now t <= 0))
  /\ (maxDuration < elapsed -> RunningFor now t = 9223372036 * Second)
  /\ (elapsed < minDuration -> RunningFor now t = - 9223372036 * Second).
Proof.
  intros elapsed. unfold RunningFor. rewrite Truncate_Second, Sub_clamped.
  fold elapsed. split_and!.
  - apply Z.rem_mul. unfold Second. lia.
  - intros Hfits. rewrite Z.max_r, Z.min_r by lia.
    destruct (Z_le_gt_dec 0 elapsed) as [Hsign|Hsign].
    + rewrite Z.quot_div_nonneg by (unfold Second; lia).
      unfold Second.
      pose proof (Z.div_mod elapsed 1000000000 ltac:(lia)).
      pose proof (Z.mod_pos_bound elapsed 1000000000 ltac:(lia)).
      lia.
    + assert (Z.quot elapsed Second = - (- elapsed / Second)) as ->.
      { rewrite <- (Z.opp_involutive elapsed) at 1.
        rewrite Z.quot_opp_l by (unfold Second; lia).
        by rewrite Z.quot_div_nonneg by (unfold Second; lia). }
      unfold Second.
      pose proof (Z.div_mod (- elapsed) 1000000000 ltac:(lia)).
      pose proof (Z.mod_pos_bound (- elapsed) 1000000000 ltac:(lia)).
      lia.
  - intros Hover. rewrite Z.min_l, Z.max_r by (unfold minDuration, maxDuration in *; lia).
    reflexivity.
  - intros Hunder. rewrite Z.max_l by (unfold minDuration, maxDuration in *; lia).
    reflexivity.
Qed.

(** X16 at a task created 90.5 seconds before the reading of the
    clock. *)
Lemma RunningFor_whole_seconds_witness :
  RunningFor 1514764890500000000 (createdAt 1514764800000000000) = 90 * Second.
Proof.
  apply (proj1 (proj2 (RunningFor_whole_seconds 1514764890500000000
                         (createdAt 1514764800000000000)))).
  unfold minDuration, maxDuration. cbn [createdAt ECS.CreatedAt]. lia.
Defined.

End UptimeClaims.
